(** * CodeVibe Journal backend: a shallow embedding of the analysis pipeline,
      the daily-log manager and the activity aggregator, with the properties
      of the specification checked against it.

    Conventions of the embedding.
    - Calendar dates ('YYYY-MM-DD' strings, SQL [DATE] columns) are day
      numbers counted from 1970-01-01 ([Z]); instants ([Date] objects,
      [Date.now()]) are milliseconds since the epoch ([Z]).
    - The host time zone is a fixed offset [tz] in milliseconds (local time =
      UTC + [tz]); daylight-saving changes are not modelled.
    - Hours are counted in hundredths of an hour ([Z]), the precision of the
      [DECIMAL(_, 2)] columns; the precision limit of those columns is not
      modelled.
    - A thrown JavaScript exception is a value of [exn] carried by [result].
    - The relational store is a record of tables; its declared constraints
      (primary keys, [UNIQUE]) are checked by the insert operations, any
      other store operation succeeds.  The users and repositories that a row
      refers to are taken to exist.
    - External collaborators (the HTTP client, the text-generation service)
      are oracles passed as arguments; the calls made are recorded in a
      trace. *)

From Stdlib Require Import ZArith String Ascii List Bool Lia DecimalString.
From stdpp Require Import base option list gmap strings sorting.

Import ListNotations.
Set Warnings "-register-all".
Local Open Scope string_scope.
Local Open Scope Z_scope.

(** ** JavaScript string primitives used by the services *)

Module Js.

(** A string in a condition: only the empty string is falsy. *)
Definition truthy (s : string) : bool :=
  match s with EmptyString => false | _ => true end.

(** [s.startsWith(p)] *)
Fixpoint startsWith (p s : string) : bool :=
  match p, s with
  | EmptyString, _ => true
  | String _ _, EmptyString => false
  | String a p', String b s' => if Ascii.eqb a b then startsWith p' s' else false
  end.

(** [s.includes(sub)] *)
Fixpoint includes (sub s : string) : bool :=
  startsWith sub s ||
  match s with
  | EmptyString => false
  | String _ s' => includes sub s'
  end.

(** [s.split(sep)] for a one-character separator; the result is never empty. *)
Fixpoint split (sep : ascii) (s : string) : list string :=
  match s with
  | EmptyString => [EmptyString]
  | String c s' =>
      if Ascii.eqb c sep then EmptyString :: split sep s'
      else match split sep s' with
           | [] => [String c EmptyString]
           | w :: ws => String c w :: ws
           end
  end.

(** [arr.pop() || ''] on a list of strings *)
Definition pop_or_empty (l : list string) : string := List.last l EmptyString.

(** [path.split('/').pop() || ''] *)
Definition baseName (path : string) : string := pop_or_empty (split "/"%char path).

(** [c.toUpperCase()] on an ASCII letter *)
Definition upper (c : ascii) : ascii :=
  let n := nat_of_ascii c in
  if (Nat.leb 97 n && Nat.leb n 122)%bool then ascii_of_nat (n - 32) else c.

(** [fw.charAt(0).toUpperCase() + fw.slice(1)] *)
Definition capitalize (s : string) : string :=
  match s with
  | EmptyString => EmptyString
  | String c s' => String (upper c) s'
  end.

(** Decimal rendering of a non-negative integer inside a template literal. *)
Definition showN (n : N) : string := NilEmpty.string_of_uint (N.to_uint n).

Definition showZ (z : Z) : string :=
  match z with
  | Z0 => "0"
  | Zpos p => showN (Npos p)
  | Zneg p => "-" ++ showN (Npos p)
  end.

(** [c.toLowerCase()] on an ASCII letter, and on a string *)
Definition lower (c : ascii) : ascii :=
  let n := nat_of_ascii c in
  if (Nat.leb 65 n && Nat.leb n 90)%bool then ascii_of_nat (n + 32) else c.

Fixpoint toLowerCase (s : string) : string :=
  match s with
  | EmptyString => EmptyString
  | String c s' => String (lower c) (toLowerCase s')
  end.

(** [s.endsWith(suffix)] *)
Definition endsWith (suffix s : string) : bool :=
  let n := String.length s in
  let m := String.length suffix in
  (m <=? n)%nat && String.eqb (String.substring (n - m) m s) suffix.

(** [s.slice(0, -k)] *)
Definition sliceEnd (k : nat) (s : string) : string :=
  String.substring 0 (String.length s - k) s.

End Js.

(** ** Codebase scanner (services/scanner.service.ts) *)

Module Scanner.

Inductive NodeType := TFile | TDir.

Record FileTreeNode := mkNode {
  path : string;
  type : NodeType;
  size : option Z;
  extension : option string
}.

Definition isFile (n : FileTreeNode) : bool :=
  match type n with TFile => true | TDir => false end.
Definition isDir (n : FileTreeNode) : bool :=
  match type n with TDir => true | TFile => false end.

(** The extension table of [detectLanguages]: the own keys of [languageMap].
    An extension that names an inherited member of [Object.prototype]
    ("constructor", "__proto__") finds that member instead of a language
    name; this is left out, and the properties of the score below are
    proved for every value of [languages]. *)
Definition languageMap : list (string * string) :=
  [ ("js", "JavaScript"); ("jsx", "JavaScript"); ("ts", "TypeScript");
    ("tsx", "TypeScript"); ("py", "Python"); ("java", "Java"); ("cpp", "C++");
    ("c", "C"); ("cs", "C#"); ("go", "Go"); ("rs", "Rust"); ("rb", "Ruby");
    ("php", "PHP"); ("swift", "Swift"); ("kt", "Kotlin"); ("scala", "Scala");
    ("html", "HTML"); ("css", "CSS"); ("scss", "SCSS"); ("sass", "SASS");
    ("vue", "Vue"); ("svelte", "Svelte"); ("dart", "Dart"); ("r", "R");
    ("sql", "SQL"); ("sh", "Shell"); ("yaml", "YAML"); ("yml", "YAML");
    ("json", "JSON"); ("xml", "XML"); ("md", "Markdown") ].

Fixpoint assoc (k : string) (l : list (string * string)) : option string :=
  match l with
  | [] => None
  | (k', v) :: l' => if String.eqb k k' then Some v else assoc k l'
  end.

(** [languages[language] = (languages[language] || 0) + 1]; the record keeps
    its keys in insertion order. *)
Fixpoint bump (k : string) (m : list (string * nat)) : list (string * nat) :=
  match m with
  | [] => [(k, 1%nat)]
  | (k', n) :: m' => if String.eqb k k' then (k', S n) :: m' else (k', n) :: bump k m'
  end.

(** One iteration of the loop of [detectLanguages]. *)
Definition detectStep (languages : list (string * nat)) (file : FileTreeNode)
  : list (string * nat) :=
  match extension file with
  | Some ext =>
      if Js.truthy ext then
        match assoc ext languageMap with
        | Some language => bump language languages
        | None => languages
        end
      else languages
  | None => languages
  end.

Definition detectLanguages (files : list FileTreeNode) : list (string * nat) :=
  fold_left detectStep files [].

Definition dependencyFiles : list string :=
  [ "package.json"; "requirements.txt"; "Gemfile"; "go.mod"; "Cargo.toml";
    "pom.xml"; "build.gradle"; "composer.json"; "Pipfile"; "pyproject.toml" ].

Definition inList (s : string) (l : list string) : bool :=
  existsb (String.eqb s) l.

Definition extractDependencies (files : list FileTreeNode) : list string :=
  flat_map (fun file =>
              let fileName := Js.baseName (path file) in
              if inList fileName dependencyFiles then [fileName] else [])
           files.

Definition patterns : list (string * string) :=
  [ ("next.config.js", "Next.js"); ("next.config.ts", "Next.js");
    ("nuxt.config.js", "Nuxt.js"); ("angular.json", "Angular");
    ("vue.config.js", "Vue.js"); ("svelte.config.js", "Svelte");
    ("gatsby-config.js", "Gatsby"); ("remix.config.js", "Remix");
    ("vite.config.js", "Vite"); ("vite.config.ts", "Vite");
    ("webpack.config.js", "Webpack"); ("rollup.config.js", "Rollup");
    ("tsconfig.json", "TypeScript"); ("Dockerfile", "Docker");
    ("docker-compose.yml", "Docker Compose"); (".eslintrc", "ESLint");
    (".prettierrc", "Prettier"); ("jest.config.js", "Jest");
    ("vitest.config.ts", "Vitest"); ("cypress.json", "Cypress");
    ("playwright.config.ts", "Playwright"); ("tailwind.config.js", "Tailwind CSS");
    ("prisma/schema.prisma", "Prisma"); ("manage.py", "Django");
    ("app.py", "Flask"); ("main.go", "Go"); ("Cargo.toml", "Rust");
    ("pom.xml", "Maven"); ("build.gradle", "Gradle") ].

(** [Set.add]: insertion order, no duplicates. *)
Definition setAdd (x : string) (s : list string) : list string :=
  if inList x s then s else s ++ [x].

Definition frameworkIndicators : list string :=
  [ "react"; "vue"; "angular"; "svelte"; "express"; "fastify"; "nestjs"; "koa" ].

Definition detectFrameworks (files : list FileTreeNode) : list string :=
  let frameworks :=
    fold_left
      (fun acc file =>
         fold_left
           (fun acc' pf =>
              if Js.includes (fst pf) (path file) then setAdd (snd pf) acc' else acc')
           patterns acc)
      files [] in
  if existsb (fun f => String.eqb (path f) "package.json") files
  then fold_left (fun acc fw => setAdd (Js.capitalize fw) acc) frameworkIndicators frameworks
  else frameworks.

(** The five banded contributions of [calculateComplexity]. *)
Definition fileBand (fileCount : nat) : Z :=
  if (fileCount <? 10)%nat then 5
  else if (fileCount <? 50)%nat then 10
  else if (fileCount <? 200)%nat then 15
  else if (fileCount <? 500)%nat then 20
  else if (fileCount <? 1000)%nat then 25
  else 30.

Definition dirBand (dirCount : nat) : Z :=
  if (dirCount <? 5)%nat then 5
  else if (dirCount <? 15)%nat then 10
  else if (dirCount <? 30)%nat then 15
  else 20.

Definition languageBand (languageCount : nat) : Z :=
  if (languageCount =? 1)%nat then 5
  else if (languageCount =? 2)%nat then 10
  else if (languageCount <=? 4)%nat then 15
  else 20.

Definition dependencyBand (depCount : nat) : Z :=
  if (depCount =? 0)%nat then 0
  else if (depCount =? 1)%nat then 5
  else if (depCount <=? 3)%nat then 10
  else 15.

Definition configBand (configCount : nat) : Z :=
  if (configCount <? 5)%nat then 3
  else if (configCount <? 10)%nat then 7
  else if (configCount <? 20)%nat then 11
  else 15.

Definition isConfigFile (f : FileTreeNode) : bool :=
  let name := Js.baseName (path f) in
  Js.startsWith "." name || Js.includes "config" name || Js.includes ".json" name
  || Js.includes ".yaml" name || Js.includes ".yml" name.

Definition calculateComplexity (files directories : list FileTreeNode)
    (languages : list (string * nat)) (dependencies : list string) : Z :=
  let score := 0 in
  let score := score + fileBand (length files) in
  let score := score + dirBand (length directories) in
  let score := score + languageBand (length languages) in
  let score := score + dependencyBand (length dependencies) in
  let configFiles := List.filter isConfigFile files in
  let score := score + configBand (length configFiles) in
  Z.min 100 score.

Record ScanResults := mkScan {
  totalFiles : nat;
  totalDirectories : nat;
  languages : list (string * nat);
  dependencies : list string;
  frameworks : list string;
  complexityScore : Z;
  fileTree : list FileTreeNode
}.

Definition scanCodebase (tree : list FileTreeNode) : ScanResults :=
  let files := List.filter isFile tree in
  let directories := List.filter isDir tree in
  let languages := detectLanguages files in
  let dependencies := extractDependencies files in
  let frameworks := detectFrameworks files in
  let complexityScore := calculateComplexity files directories languages dependencies in
  {| totalFiles := length files;
     totalDirectories := length directories;
     languages := languages;
     dependencies := dependencies;
     frameworks := frameworks;
     complexityScore := complexityScore;
     fileTree := tree |}.

End Scanner.

(** ** Exceptions and results *)

Inductive exn :=
| AppError (statusCode : Z) (message : string)
| HttpError (status : Z) (rateLimitExhausted : bool)
| OtherError (message : string).

Inductive result (A : Type) :=
| Ok (a : A)
| Throw (e : exn).
Arguments Ok {A} a.
Arguments Throw {A} e.

Definition isOk {A} (r : result A) : bool :=
  match r with Ok _ => true | Throw _ => false end.

(** ** Insight generator (services/llm.service.ts) *)

Module Llm.

Import Scanner.

Record GitHubRepoMetadata := mkMeta {
  owner : string;
  repo : string;
  full_name : string;
  description : option string;
  language : option string;
  stars : Z;
  forks : Z;
  default_branch : string
}.

Record LLMAnalysis := mkAnalysis {
  summary : string;
  vibe : string;
  difficulty : string;
  improvements : list string
}.

(** What [client.chat.completions.create] does: it rejects, or it resolves
    with a response whose [choices[0]?.message?.content] is absent or a
    string. *)
Inductive completion :=
| Rejected (e : exn)
| Content (c : option string).

(** The replies of the text-generation service to the four requests of one
    analysis (each prompt is a function of the metadata and the scan). *)
Record replies := mkReplies {
  summaryReply : completion;
  vibeReply : completion;
  difficultyReply : completion;
  improvementReply : completion
}.

(** A parsed JSON value; numbers are integers here. *)
Inductive json :=
| JNull
| JBool (b : bool)
| JNum (n : Z)
| JStr (s : string)
| JArr (items : list json)
| JObj (fields : list (string * json)).

Definition isSpace (c : ascii) : bool :=
  let n := nat_of_ascii c in
  ((Nat.leb 9 n && Nat.leb n 13) || Nat.eqb n 32)%bool.

Fixpoint trimStart (s : string) : string :=
  match s with
  | EmptyString => EmptyString
  | String c s' => if isSpace c then trimStart s' else s
  end.

Fixpoint trimEnd (s : string) : string :=
  match s with
  | EmptyString => EmptyString
  | String c s' =>
      match trimEnd s' with
      | EmptyString => if isSpace c then EmptyString else String c EmptyString
      | t => String c t
      end
  end.

(** [s.trim()] over the ASCII white space *)
Definition trim (s : string) : string := trimEnd (trimStart s).

(** [${v}] for a JSON value *)
Fixpoint toStr (j : json) : string :=
  match j with
  | JNull => "null"
  | JBool true => "true"
  | JBool false => "false"
  | JNum n => Js.showZ n
  | JStr s => s
  | JArr items =>
      (fix join (l : list json) : string :=
         match l with
         | [] => ""
         | x :: l' =>
             (match x with JNull => "" | _ => toStr x end)
             ++ (match l' with [] => "" | _ => "," ++ join l' end)
         end) items
  | JObj _ => "[object Object]"
  end.

(** [${imp.key}] where the property may be missing *)
Definition showProp (v : option json) : string :=
  match v with
  | None => "undefined"
  | Some j => toStr j
  end.

Fixpoint field (k : string) (fs : list (string * json)) : option json :=
  match fs with
  | [] => None
  | (k', v) :: fs' => if String.eqb k k' then Some v else field k fs'
  end.

(** [imp.key]: a [TypeError] on [null], the own property of an object,
    [undefined] on the other values (the three keys read are not inherited). *)
Definition getProp (k : string) (imp : json) : result (option json) :=
  match imp with
  | JNull => Throw (OtherError "TypeError")
  | JObj fs => Ok (field k fs)
  | _ => Ok None
  end.

(** [`[${imp.category}] ${imp.title}: ${imp.description}`] *)
Definition formatImprovement (imp : json) : result string :=
  match getProp "category" imp, getProp "title" imp, getProp "description" imp with
  | Ok c, Ok t, Ok d =>
      Ok ("[" ++ showProp c ++ "] " ++ showProp t ++ ": " ++ showProp d)
  | Throw e, _, _ => Throw e
  | _, Throw e, _ => Throw e
  | _, _, Throw e => Throw e
  end.

Fixpoint mapM {A B} (f : A -> result B) (l : list A) : result (list B) :=
  match l with
  | [] => Ok []
  | x :: l' =>
      match f x with
      | Throw e => Throw e
      | Ok y => match mapM f l' with
                | Throw e => Throw e
                | Ok ys => Ok (y :: ys)
                end
      end
  end.

(** [improvements.map(...)]: only an array has a [map] method. *)
Definition formatImprovements (parsed : json) : result (list string) :=
  match parsed with
  | JArr items => mapM formatImprovement items
  | _ => Throw (OtherError "TypeError")
  end.

Definition getFallbackSummary (metadata : GitHubRepoMetadata) : string :=
  full_name metadata ++ " is a "
  ++ (match language metadata with
      | Some l => if Js.truthy l then l else "software"
      | None => "software"
      end)
  ++ " project"
  ++ (match description metadata with
      | Some d => if Js.truthy d then ": " ++ d else ""
      | None => ""
      end)
  ++ ". The repository has " ++ Js.showZ (stars metadata) ++ " stars and "
  ++ Js.showZ (forks metadata) ++ " forks.".

Definition getFallbackVibe (scanResults : ScanResults) : string :=
  if complexityScore scanResults <? 30 then "Learning Project"
  else if complexityScore scanResults <? 50 then "Personal Tool"
  else if complexityScore scanResults <? 70 then "Open Source Library"
  else "Enterprise".

Definition getFallbackDifficulty (scanResults : ScanResults) : string :=
  if complexityScore scanResults <? 25 then "Beginner"
  else if complexityScore scanResults <? 50 then "Intermediate"
  else if complexityScore scanResults <? 75 then "Advanced"
  else "Expert".

Definition getFallbackImprovements : list string :=
  [ "[documentation] Add README: Create comprehensive documentation explaining project setup and usage.";
    "[testing] Implement tests: Add unit and integration tests to ensure code reliability.";
    "[code-quality] Add linting: Set up ESLint or similar tools for consistent code style." ].

Definition getFallbackAnalysis (metadata : GitHubRepoMetadata)
    (scanResults : ScanResults) : LLMAnalysis :=
  {| summary := getFallbackSummary metadata;
     vibe := getFallbackVibe scanResults;
     difficulty := getFallbackDifficulty scanResults;
     improvements := getFallbackImprovements |}.

(** The body of a [try] block of the text operations: the trimmed content,
    or the exception thrown for a rejected call or an empty answer. *)
Definition textOf (reply : completion) : result string :=
  match reply with
  | Rejected e => Throw e
  | Content None => Throw (OtherError "Empty response from LLM")
  | Content (Some c) =>
      if Js.truthy (trim c) then Ok (trim c)
      else Throw (OtherError "Empty response from LLM")
  end.

(** [try { body } catch { return fallback }] *)
Definition orElse {A} (body : result A) (fallback : A) : result A :=
  match body with
  | Ok a => Ok a
  | Throw _ => Ok fallback
  end.

Section Operations.

(** [JSON.parse]: the parsed value, or [None] for a [SyntaxError]. *)
Variable JSON_parse : string -> option json.

Definition generateRepoSummary (reply : completion) (metadata : GitHubRepoMetadata)
    (scanResults : ScanResults) : result string :=
  orElse (textOf reply) (getFallbackSummary metadata).

Definition classifyVibe (reply : completion) (metadata : GitHubRepoMetadata)
    (scanResults : ScanResults) : result string :=
  orElse (textOf reply) (getFallbackVibe scanResults).

Definition predictDifficulty (reply : completion) (scanResults : ScanResults)
  : result string :=
  orElse (textOf reply) (getFallbackDifficulty scanResults).

Definition improvementBody (reply : completion) : result (list string) :=
  match textOf reply with
  | Throw e => Throw e
  | Ok content =>
      match JSON_parse content with
      | None => Throw (OtherError "SyntaxError")
      | Some parsed => formatImprovements parsed
      end
  end.

Definition generateImprovementPlan (reply : completion) (metadata : GitHubRepoMetadata)
    (scanResults : ScanResults) : result (list string) :=
  orElse (improvementBody reply) getFallbackImprovements.

(** [await Promise.all([...])] and the construction of the answer: the value
    when the four promises fulfil, a rejection when one of them rejects. *)
Definition joinAll (s v d : result string) (i : result (list string))
  : result LLMAnalysis :=
  match s, v, d, i with
  | Ok s', Ok v', Ok d', Ok i' =>
      Ok {| summary := s'; vibe := v'; difficulty := d'; improvements := i' |}
  | Throw e, _, _, _ => Throw e
  | _, Throw e, _, _ => Throw e
  | _, _, Throw e, _ => Throw e
  | _, _, _, Throw e => Throw e
  end.

(** The [try]/[catch] of [analyzeRepository] around the join of four
    operations, whatever those operations are. *)
Definition analyzeRepositoryOf (s v d : result string) (i : result (list string))
    (metadata : GitHubRepoMetadata) (scanResults : ScanResults) : result LLMAnalysis :=
  orElse (joinAll s v d i) (getFallbackAnalysis metadata scanResults).

Definition analyzeRepository (r : replies) (metadata : GitHubRepoMetadata)
    (scanResults : ScanResults) : result LLMAnalysis :=
  analyzeRepositoryOf
    (generateRepoSummary (summaryReply r) metadata scanResults)
    (classifyVibe (vibeReply r) metadata scanResults)
    (predictDifficulty (difficultyReply r) scanResults)
    (generateImprovementPlan (improvementReply r) metadata scanResults)
    metadata scanResults.

End Operations.

End Llm.

(** ** Helpers (utils/helpers.ts): calendar arithmetic and retry *)

Module Helpers.

Definition msPerDay : Z := 86400000.

(** *** The proleptic Gregorian calendar: day numbers and civil dates *)

(** Day of the 400-year era from (year of era, month 1..12, day of month). *)
Definition doe_of_civil (yoe m d : Z) : Z :=
  let mp := if 2 <? m then m - 3 else m + 9 in
  let doy := (153 * mp + 2) / 5 + d - 1 in
  yoe * 365 + yoe / 4 - yoe / 100 + doy.

(** (year of era shifted to start in March, month, day) from the day of era. *)
Definition civil_of_doe (doe : Z) : Z * Z * Z :=
  let yoe := (doe - doe / 1460 + doe / 36524 - doe / 146096) / 365 in
  let doy := doe - (365 * yoe + yoe / 4 - yoe / 100) in
  let mp := (5 * doy + 2) / 153 in
  let d := doy - (153 * mp + 2) / 5 + 1 in
  let m := if mp <? 10 then mp + 3 else mp - 9 in
  (yoe, m, d).

Definition janFeb (m : Z) : Z := if m <=? 2 then 1 else 0.

(** Day number of the civil date [y]-[m]-[d]; linear in [d], so a day of
    month outside the month carries over as [Date] does. *)
Definition days_from_civil (y m d : Z) : Z :=
  let y' := y - janFeb m in
  (y' / 400) * 146097 + doe_of_civil (y' mod 400) m d - 719468.

Definition civil_from_days (z : Z) : Z * Z * Z :=
  let z' := z + 719468 in
  let '(yoe, m, d) := civil_of_doe (z' mod 146097) in
  (yoe + (z' / 146097) * 400 + janFeb m, m, d).

(** The date literal '2000-01-01'. *)
Definition date_2000_01_01 : Z := days_from_civil 2000 1 1.

(** [new Date('YYYY-MM-DD')]: a date-only string is midnight UTC. *)
Definition parseDate (date : Z) : Z := date * msPerDay.

Section LocalTime.

(** Offset of the host time zone: local time = UTC + [tz] milliseconds. *)
Variable tz : Z.

Definition localDay (t : Z) : Z := (t + tz) / msPerDay.
Definition timeInDay (t : Z) : Z := (t + tz) mod msPerDay.

Definition getFullYear (t : Z) : Z := fst (fst (civil_from_days (localDay t))).
(** [getMonth()] counts from 0. *)
Definition getMonth (t : Z) : Z := snd (fst (civil_from_days (localDay t))) - 1.
Definition getDate (t : Z) : Z := snd (civil_from_days (localDay t)).

(** The instant of local year, month index (any integer), day of month (any
    integer) and time in the day. *)
Definition makeLocal (y mIdx d time : Z) : Z :=
  days_from_civil (y + mIdx / 12) (mIdx mod 12 + 1) d * msPerDay + time - tz.

Definition setDate (t d : Z) : Z := makeLocal (getFullYear t) (getMonth t) d (timeInDay t).
Definition setMonth (t mIdx : Z) : Z := makeLocal (getFullYear t) mIdx (getDate t) (timeInDay t).
Definition setFullYear (t y : Z) : Z := makeLocal y (getMonth t) (getDate t) (timeInDay t).
(** [setHours(0, 0, 0, 0)] *)
Definition setHours0 (t : Z) : Z := makeLocal (getFullYear t) (getMonth t) (getDate t) 0.

(** [formatDate]: the calendar date that the 'YYYY-MM-DD' string names. *)
Definition formatDate (date : Z) : Z :=
  days_from_civil (getFullYear date) (getMonth date + 1) (getDate date).

Inductive period := Week | Month | Year | All.

(** [getDateRange(period)] at the instant [now]: (startDate, endDate). *)
Definition getDateRange (p : period) (now : Z) : Z * Z :=
  let endDate := formatDate now in
  let startDate :=
    match p with
    | Week =>
        let weekAgo := now in
        let weekAgo := setDate weekAgo (getDate weekAgo - 7) in
        formatDate weekAgo
    | Month =>
        let monthAgo := now in
        let monthAgo := setMonth monthAgo (getMonth monthAgo - 1) in
        formatDate monthAgo
    | Year =>
        let yearAgo := now in
        let yearAgo := setFullYear yearAgo (getFullYear yearAgo - 1) in
        formatDate yearAgo
    | All => date_2000_01_01
    end in
  (startDate, endDate).



End LocalTime.

(** *** [retryWithBackoff] *)

Inductive event :=
| HttpGet (path : string)
| Sleep (ms : Z)
| ScanCall
| GenerateCall.

(** The loop [for (let i = 0; i < maxRetries; i++)], entered at [i] with
    [remaining = maxRetries - i] iterations left.  [fn i] is the outcome of
    the call made in iteration [i], [call] the event that the call leaves in
    the trace. *)
Fixpoint retryLoop {T} (fn : nat -> result T) (call : event)
    (maxRetries : nat) (initialDelay : Z) (i remaining : nat)
    (lastError : exn) : result T * list event :=
  match remaining with
  | O => (Throw lastError, [])
  | S remaining' =>
      match fn i with
      | Ok v => (Ok v, [call])
      | Throw error =>
          let pause :=
            if (i <? maxRetries - 1)%nat
            then [Sleep (initialDelay * 2 ^ Z.of_nat i)] else [] in
          let '(r, tr) :=
            retryLoop fn call maxRetries initialDelay (S i) remaining' error in
          (r, call :: pause ++ tr)
      end
  end.

(** [lastError] before the first failure. *)
Definition undefinedError : exn := OtherError "undefined".

Definition retryWithBackoffN {T} (fn : nat -> result T) (call : event)
    (maxRetries : nat) (initialDelay : Z) : result T * list event :=
  retryLoop fn call maxRetries initialDelay 0 maxRetries undefinedError.

(** The default arguments [maxRetries = 3], [initialDelay = 1000]. *)
Definition retryWithBackoff {T} (fn : nat -> result T) (call : event)
  : result T * list event :=
  retryWithBackoffN fn call 3 1000.

(** *** [parseGitHubUrl] *)

Section Url.

(** [new URL(url)]: the [hostname] and the [pathname] of the parsed URL, or
    [None] when the constructor throws. *)
Variable URL : string -> option (string * string).

Definition parseGitHubUrl (url : string) : option (string * string) :=
  match URL url with
  | None => None
  | Some (hostname, pathname) =>
      if negb (String.eqb hostname "github.com") && negb (String.eqb hostname "www.github.com")
      then None
      else
        let pathParts := List.filter Js.truthy (Js.split "/"%char pathname) in
        match pathParts with
        | owner :: repo :: _ =>
            let repo := if Js.endsWith ".git" repo then Js.sliceEnd 4 repo else repo in
            Some (owner, repo)
        | _ => None
        end
  end.

End Url.

End Helpers.

(** ** External repository provider client (services/github.service.ts) *)

Module GitHub.

Import Scanner Llm Helpers.

(** The fields read from the body of [GET /repos/:owner/:repo]. *)
Record RepoData := mkRepoData {
  owner_login : string;
  data_name : string;
  data_full_name : string;
  data_description : option string;
  data_language : option string;
  stargazers_count : option Z;
  forks_count : option Z;
  data_default_branch : option string
}.

(** An entry of the [tree] array of [GET /repos/:owner/:repo/git/trees/:branch]. *)
Record TreeItem := mkItem {
  item_path : string;
  item_type : string;
  item_size : option Z
}.

(** The remote API: the outcome of the [n]-th request in a row to a path,
    as axios reports it before the response interceptor runs. *)
Record api := mkApi {
  getRepo : string -> nat -> result RepoData;
  getTree : string -> nat -> result (list TreeItem)
}.

(** The response interceptor installed by the constructor. *)
Definition interceptor (error : exn) : exn :=
  match error with
  | HttpError 403 true =>
      AppError 429 "GitHub API rate limit exceeded. Please try again later."
  | _ => error
  end.

(** [this.client.get(...)]: the request with the interceptor applied. *)
Definition clientGet {T} (raw : result T) : result T :=
  match raw with
  | Ok v => Ok v
  | Throw e => Throw (interceptor e)
  end.

(** [value || fallback] on an optional string / number *)
Definition strOr (v : option string) : option string :=
  match v with
  | Some s => if Js.truthy s then Some s else None
  | None => None
  end.

Definition numOr0 (v : option Z) : Z := default 0 v.

Definition toMetadata (data : RepoData) : GitHubRepoMetadata :=
  {| owner := owner_login data;
     repo := data_name data;
     full_name := data_full_name data;
     description := strOr (data_description data);
     language := strOr (data_language data);
     stars := numOr0 (stargazers_count data);
     forks := numOr0 (forks_count data);
     default_branch := default "main" (strOr (data_default_branch data)) |}.

(** [error.response?.status === n] *)
Definition responseStatusIs (n : Z) (error : exn) : bool :=
  match error with
  | HttpError status _ => status =? n
  | _ => false
  end.

Section Client.

(** [parseGitHubUrl] of utils/helpers.ts, taken as given (it rests on the
    platform's URL parser). *)
Variable parseGitHubUrl : string -> option (string * string).
Variable gh : api.

Definition fetchRepoMetadata (githubUrl : string)
  : result GitHubRepoMetadata * list event :=
  match parseGitHubUrl githubUrl with
  | None => (Throw (AppError 400 "Invalid GitHub URL"), [])
  | Some (owner, repo) =>
      let path := "/repos/" ++ owner ++ "/" ++ repo in
      let '(response, tr) :=
        retryWithBackoff (fun n => clientGet (getRepo gh path n)) (HttpGet path) in
      match response with
      | Ok data => (Ok (toMetadata data), tr)
      | Throw error =>
          if responseStatusIs 404 error
          then (Throw (AppError 404 "Repository not found"), tr)
          else if responseStatusIs 403 error
          then (Throw (AppError 403 "Repository is private or access denied"), tr)
          else (Throw (AppError 500 "Failed to fetch repository metadata"), tr)
      end
  end.

Definition getFileExtension (path : string) : option string :=
  let parts := Js.split "."%char path in
  if (1 <? length parts)%nat then Some (Js.toLowerCase (List.last parts EmptyString))
  else None.

Definition toNode (item : TreeItem) : FileTreeNode :=
  {| path := item_path item;
     type := if String.eqb (item_type item) "tree" then TDir else TFile;
     size := item_size item;
     extension := if String.eqb (item_type item) "blob"
                  then getFileExtension (item_path item) else None |}.

Definition fetchRepoTree (owner repo branch : string)
  : result (list FileTreeNode) * list event :=
  let path := "/repos/" ++ owner ++ "/" ++ repo ++ "/git/trees/" ++ branch in
  let '(response, tr) :=
    retryWithBackoff (fun n => clientGet (getTree gh path n)) (HttpGet path) in
  match response with
  | Ok tree => (Ok (map toNode tree), tr)
  | Throw error =>
      if responseStatusIs 409 error then (Ok [], tr)
      else (Throw (AppError 500 "Failed to fetch repository file tree"), tr)
  end.

Definition cloneRepoStructure (githubUrl : string)
  : result (GitHubRepoMetadata * list FileTreeNode) * list event :=
  match fetchRepoMetadata githubUrl with
  | (Throw e, tr) => (Throw e, tr)
  | (Ok metadata, tr) =>
      match fetchRepoTree (owner metadata) (repo metadata) (default_branch metadata) with
      | (Throw e, tr') => (Throw e, (tr ++ tr')%list)
      | (Ok fileTree, tr') => (Ok (metadata, fileTree), (tr ++ tr')%list)
      end
  end.

End Client.

End GitHub.

(** ** Cache (services/cache.service.ts) *)

Module Cache.

Section Entries.

Context {T : Type}.

(** [Map<string, CacheEntry<T>>]: the value and [expiresAt]. *)
Definition get (key : string) (now : Z) (cache : gmap string (T * Z))
  : option T * gmap string (T * Z) :=
  match cache !! key with
  | None => (None, cache)
  | Some (value, expiresAt) =>
      if expiresAt <? now then (None, delete key cache)
      else (Some value, cache)
  end.

(** [set(key, value, ttl)], [ttl] in seconds. *)
Definition set (key : string) (value : T) (ttl : Z) (now : Z)
    (cache : gmap string (T * Z)) : gmap string (T * Z) :=
  <[key := (value, now + ttl * 1000)]> cache.

(** [has(key)]: like [get], an expired entry is removed. *)
Definition has (key : string) (now : Z) (cache : gmap string (T * Z))
  : bool * gmap string (T * Z) :=
  match cache !! key with
  | None => (false, cache)
  | Some (_, expiresAt) =>
      if expiresAt <? now then (false, base.delete key cache)
      else (true, cache)
  end.

(** [cleanup()]: every entry with [now > expiresAt] is removed. *)
Definition cleanup (now : Z) (cache : gmap string (T * Z)) : gmap string (T * Z) :=
  filter (fun entry => ¬ (snd (snd entry) < now)) cache.

(** [getStats()]: ([size], [expired]). *)
Definition getStats (now : Z) (cache : gmap string (T * Z)) : nat * nat :=
  (base.size cache, base.size (filter (fun entry => snd (snd entry) < now) cache)).

(** [delete(key)]: whether an entry was there, and the map without it. *)
Definition delete (key : string) (cache : gmap string (T * Z))
  : bool * gmap string (T * Z) :=
  (bool_decide (is_Some (cache !! key)), base.delete key cache).

Definition clear (cache : gmap string (T * Z)) : gmap string (T * Z) := ∅.

Definition size (cache : gmap string (T * Z)) : nat := base.size cache.

End Entries.

End Cache.

(** ** Analysis orchestrator (services/repo.service.ts) *)

Module Repo.

Import Scanner Llm Helpers.

Record RepoMetadata := mkRepoMetadata {
  meta_owner : string;
  meta_full_name : string;
  meta_default_branch : string;
  total_files : nat;
  total_directories : nat;
  meta_languages : list (string * nat);
  meta_frameworks : list string;
  meta_dependencies : list string;
  meta_improvements : list string
}.

(** A row of the [repositories] table. *)
Record Repository := mkRepository {
  id : nat;
  user_id : string;
  github_url : string;
  name : string;
  repo_description : option string;
  repo_language : option string;
  repo_stars : Z;
  repo_forks : Z;
  complexity_score : Z;
  difficulty_level : string;
  vibe_classification : string;
  repo_summary : string;
  tags : list string;
  metadata : RepoMetadata
}.

(** The [repositories] table with the counter that stands for
    [uuid_generate_v4()], and the process-wide cache. *)
Record state := mkState {
  repositories : list Repository;
  next_id : nat;
  cache : gmap string (Repository * Z)
}.

Definition initial : state :=
  {| repositories := []; next_id := 0; cache := ∅ |}.

(** [.eq('user_id', userId).eq('github_url', githubUrl).single()]: the row
    when exactly one matches, no data otherwise. *)
Definition selectExisting (userId githubUrl : string) (rows : list Repository)
  : option Repository :=
  match List.filter (fun r => String.eqb (user_id r) userId
                              && String.eqb (github_url r) githubUrl) rows with
  | [r] => Some r
  | _ => None
  end.

(** [github_url TEXT NOT NULL UNIQUE]: an insert fails when a row of any user
    has the URL. *)
Definition urlTaken (githubUrl : string) (rows : list Repository) : bool :=
  existsb (fun r => String.eqb (github_url r) githubUrl) rows.

(** [.insert({...}).select().single()] *)
Definition insertRepository (mk : nat -> Repository) (st : state)
  : option Repository * state :=
  let row := mk (next_id st) in
  if urlTaken (github_url row) (repositories st) then (None, st)
  else (Some row,
        {| repositories := repositories st ++ [row];
           next_id := S (next_id st);
           cache := cache st |}).

Definition cacheKey (githubUrl : string) : string := "repo:" ++ githubUrl.

(** The collaborators of one analysis: the provider client, the replies of
    the text-generation service and the JSON parser. *)
Record world := mkWorld {
  cloneRepoStructure : string -> result (GitHubRepoMetadata * list FileTreeNode) * list event;
  llmReplies : replies;
  JSON_parse : string -> option json
}.

Definition newRow (userId githubUrl : string) (metadata : GitHubRepoMetadata)
    (scanResults : ScanResults) (llmAnalysis : LLMAnalysis) (rowId : nat) : Repository :=
  {| id := rowId;
     user_id := userId;
     github_url := githubUrl;
     name := repo metadata;
     repo_description := description metadata;
     repo_language := language metadata;
     repo_stars := stars metadata;
     repo_forks := forks metadata;
     complexity_score := complexityScore scanResults;
     difficulty_level := difficulty llmAnalysis;
     vibe_classification := vibe llmAnalysis;
     repo_summary := summary llmAnalysis;
     tags := [];
     metadata :=
       {| meta_owner := owner metadata;
          meta_full_name := full_name metadata;
          meta_default_branch := default_branch metadata;
          total_files := totalFiles scanResults;
          total_directories := totalDirectories scanResults;
          meta_languages := languages scanResults;
          meta_frameworks := frameworks scanResults;
          meta_dependencies := dependencies scanResults;
          meta_improvements := improvements llmAnalysis |} |}.

(** The part of [analyzeRepository] that follows the cache lookup: the
    lookup in the table, then the pipeline. *)
Definition analyzeUncached (w : world) (userId githubUrl : string) (now : Z)
    (st : state) : result Repository * state * list event :=
  let key := cacheKey githubUrl in
  match selectExisting userId githubUrl (repositories st) with
  | Some existing =>
      (Ok existing,
       {| repositories := repositories st; next_id := next_id st;
          cache := Cache.set key existing 86400 now (cache st) |}, [])
  | None =>
      match cloneRepoStructure w githubUrl with
      | (Throw e, tr) =>
          (Throw (match e with
                  | AppError _ _ => e
                  | _ => AppError 500 "Repository analysis failed"
                  end), st, tr)
      | (Ok (metadata, fileTree), tr) =>
          let calls := (tr ++ [ScanCall; GenerateCall])%list in
          let scanResults := scanCodebase fileTree in
          match Llm.analyzeRepository (JSON_parse w) (llmReplies w) metadata scanResults with
          | Throw _ => (Throw (AppError 500 "Repository analysis failed"), st, calls)
          | Ok llmAnalysis =>
              match insertRepository
                      (newRow userId githubUrl metadata scanResults llmAnalysis) st with
              | (None, st') =>
                  (Throw (AppError 500 "Failed to save repository analysis"), st', calls)
              | (Some repo, st') =>
                  (Ok repo,
                   {| repositories := repositories st'; next_id := next_id st';
                      cache := Cache.set key repo 86400 now (cache st') |}, calls)
              end
          end
      end
  end.

(** [analyzeRepository(userId, githubUrl)] at the instant [now]: the
    outcome, the state left behind, and the calls made to the provider
    client, the scanner and the insight generator. *)
Definition analyzeRepository (w : world) (userId githubUrl : string) (now : Z)
    (st : state) : result Repository * state * list event :=
  let '(cached, cache1) := Cache.get (cacheKey githubUrl) now (cache st) in
  let st1 := {| repositories := repositories st; next_id := next_id st;
                cache := cache1 |} in
  match cached with
  | Some hit =>
      if String.eqb (user_id hit) userId then (Ok hit, st1, [])
      else analyzeUncached w userId githubUrl now st1
  | None => analyzeUncached w userId githubUrl now st1
  end.

Record RepoUpdates := mkRepoUpdates {
  upd_tags : option (list string);
  upd_metadata : option RepoMetadata
}.

(** [.eq('id', repoId).eq('user_id', userId)] *)
Definition owns (repoId : nat) (userId : string) (r : Repository) : bool :=
  (id r =? repoId)%nat && String.eqb (user_id r) userId.

Definition applyRepoUpdates (u : RepoUpdates) (r : Repository) : Repository :=
  {| id := id r;
     user_id := user_id r;
     github_url := github_url r;
     name := name r;
     repo_description := repo_description r;
     repo_language := repo_language r;
     repo_stars := repo_stars r;
     repo_forks := repo_forks r;
     complexity_score := complexity_score r;
     difficulty_level := difficulty_level r;
     vibe_classification := vibe_classification r;
     repo_summary := repo_summary r;
     tags := default (tags r) (upd_tags u);
     metadata := default (metadata r) (upd_metadata u) |}.

Definition updateRepository (repoId : nat) (userId : string) (updates : RepoUpdates)
    (st : state) : result Repository * state :=
  match List.find (owns repoId userId) (repositories st) with
  | None => (Throw (AppError 404 "Repository not found or update failed"), st)
  | Some old =>
      let data := applyRepoUpdates updates old in
      (Ok data,
       {| repositories :=
            map (fun r => if owns repoId userId r then applyRepoUpdates updates r else r)
                (repositories st);
          next_id := next_id st;
          cache := delete (cacheKey (github_url data)) (cache st) |})
  end.

Definition deleteRepository (repoId : nat) (userId : string) (st : state)
  : result unit * state :=
  let repo := List.find (owns repoId userId) (repositories st) in
  (Ok tt,
   {| repositories := List.filter (fun r => negb (owns repoId userId r)) (repositories st);
      next_id := next_id st;
      cache := match repo with
               | Some r => delete (cacheKey (github_url r)) (cache st)
               | None => cache st
               end |}).

(** [getRepositoryById(repoId, userId)]:
    [.eq('id', repoId).eq('user_id', userId).single()]. *)
Definition getRepositoryById (repoId : nat) (userId : string) (st : state)
  : result Repository :=
  match List.filter (owns repoId userId) (repositories st) with
  | [data] => Ok data
  | _ => Throw (AppError 404 "Repository not found")
  end.

End Repo.

(** ** Daily log manager (services/log.service.ts) *)

Module Logs.

(** A row of [daily_logs]. *)
Record DailyLog := mkLog {
  id : nat;
  user_id : string;
  repo_id : option string;
  log_date : Z;
  content : string;
  hours_worked : Z;
  mood : option string
}.

(** The columns of a row of [activity_days] besides its key
    [(user_id, activity_date)]. *)
Record ActivityDay := mkActivity {
  log_count : nat;
  total_hours : Z;
  is_active : bool
}.

(** The two tables.  [UNIQUE(user_id, activity_date)] makes [activity_days]
    a finite map from its key; [next_id] stands for [uuid_generate_v4()]. *)
Record store := mkStore {
  daily_logs : list DailyLog;
  next_id : nat;
  activity_days : gmap (string * Z) ActivityDay
}.

Definition initial : store :=
  {| daily_logs := []; next_id := 0; activity_days := ∅ |}.

Record CreateData := mkCreate {
  repoId : option string;
  logDate : Z;
  new_content : string;
  hoursWorked : option Z;
  new_mood : option string
}.

Record Updates := mkUpdates {
  upd_content : option string;
  upd_hoursWorked : option Z;
  upd_mood : option string
}.

(** [value || null] on an optional string *)
Definition strOrNull (v : option string) : option string :=
  match v with
  | Some s => if Js.truthy s then Some s else None
  | None => None
  end.

(** [UNIQUE(user_id, repo_id, log_date)].  PostgreSQL compares NULLs as
    distinct in a unique constraint (no [NULLS NOT DISTINCT] is declared), so
    a row whose [repo_id] is NULL conflicts with no row. *)
Definition conflicts (new old : DailyLog) : bool :=
  String.eqb (user_id new) (user_id old)
  && (log_date new =? log_date old)
  && match repo_id new, repo_id old with
     | Some a, Some b => String.eqb a b
     | _, _ => false
     end.

Definition uniqueViolation (new : DailyLog) (rows : list DailyLog) : bool :=
  existsb (conflicts new) rows.

Definition onDate (userId : string) (date : Z) (log : DailyLog) : bool :=
  String.eqb (user_id log) userId && (log_date log =? date).

(** [logs.reduce((sum, log) => sum + (log.hours_worked || 0), 0)] *)
Definition sumHours (logs : list DailyLog) : Z :=
  fold_left (fun sum log => sum + hours_worked log) logs 0.

(** [updateActivityForDate(userId, date)]: query the day's rows, count and
    sum them, upsert the aggregate on its key. *)
Definition updateActivityForDate (userId : string) (date : Z) (st : store) : store :=
  let logs := List.filter (onDate userId date) (daily_logs st) in
  let logCount := length logs in
  let totalHours := sumHours logs in
  let isActive := (0 <? logCount)%nat in
  {| daily_logs := daily_logs st;
     next_id := next_id st;
     activity_days :=
       <[(userId, date) := {| log_count := logCount; total_hours := totalHours;
                              is_active := isActive |}]> (activity_days st) |}.

Definition createLog (userId : string) (data : CreateData) (st : store)
  : result DailyLog * store :=
  let log := {| id := next_id st;
                user_id := userId;
                repo_id := strOrNull (repoId data);
                log_date := logDate data;
                content := new_content data;
                hours_worked := default 0 (hoursWorked data);
                mood := strOrNull (new_mood data) |} in
  if uniqueViolation log (daily_logs st)
  then (Throw (AppError 409 "Log entry already exists for this date and repository"), st)
  else
    let st1 := {| daily_logs := daily_logs st ++ [log];
                  next_id := S (next_id st);
                  activity_days := activity_days st |} in
    (Ok log, updateActivityForDate userId (logDate data) st1).

(** [.eq('id', logId).eq('user_id', userId)] *)
Definition targets (logId : nat) (userId : string) (log : DailyLog) : bool :=
  (id log =? logId)%nat && String.eqb (user_id log) userId.

Definition applyUpdates (u : Updates) (log : DailyLog) : DailyLog :=
  {| id := id log;
     user_id := user_id log;
     repo_id := repo_id log;
     log_date := log_date log;
     content := default (content log) (upd_content u);
     hours_worked := default (hours_worked log) (upd_hoursWorked u);
     mood := match upd_mood u with Some m => Some m | None => mood log end |}.

Definition updateLog (logId : nat) (userId : string) (updates : Updates) (st : store)
  : result DailyLog * store :=
  match List.find (targets logId userId) (daily_logs st) with
  | None => (Throw (AppError 404 "Log entry not found or update failed"), st)
  | Some old =>
      let data := applyUpdates updates old in
      let st1 := {| daily_logs :=
                      map (fun log => if targets logId userId log
                                      then applyUpdates updates log else log)
                          (daily_logs st);
                    next_id := next_id st;
                    activity_days := activity_days st |} in
      (Ok data, updateActivityForDate userId (log_date data) st1)
  end.

Definition deleteLog (logId : nat) (userId : string) (st : store)
  : result unit * store :=
  let log := List.find (targets logId userId) (daily_logs st) in
  let st1 := {| daily_logs :=
                  List.filter (fun l => negb (targets logId userId l)) (daily_logs st);
                next_id := next_id st;
                activity_days := activity_days st |} in
  match log with
  | Some l => (Ok tt, updateActivityForDate userId (log_date l) st1)
  | None => (Ok tt, st1)
  end.

(** A mutation requested of the log manager, and its effect on the store. *)
Inductive mutation :=
| Create (userId : string) (data : CreateData)
| Update (logId : nat) (userId : string) (updates : Updates)
| Delete (logId : nat) (userId : string).

Definition apply (m : mutation) (st : store) : store :=
  match m with
  | Create userId data => snd (createLog userId data st)
  | Update logId userId updates => snd (updateLog logId userId updates st)
  | Delete logId userId => snd (deleteLog logId userId st)
  end.

Definition run (ms : list mutation) (st : store) : store :=
  fold_left (fun s m => apply m s) ms st.


End Logs.

(** ** Activity aggregator (services/activity.service.ts) *)

Module Activity.

Import Helpers Logs.

Record Streak := mkStreak {
  currentStreak : nat;
  longestStreak : nat;
  lastActiveDate : option Z
}.

(** [.eq('user_id', userId).eq('is_active', true)
     .order('activity_date', { ascending: false })], projected on the date. *)
Definition activeDates (userId : string) (days : gmap (string * Z) ActivityDay) : list Z :=
  merge_sort Z.ge
    (omap (fun '((u, date), day) =>
             if String.eqb u userId && is_active day then Some date else None)
          (map_to_list days)).

Section Clock.

Variable tz : Z.

(** The first loop of [calculateStreak], entered at index [i]. *)
Fixpoint currentLoop (today : Z) (i : nat) (activities : list Z) : nat :=
  match activities with
  | [] => 0%nat
  | activity_date :: rest =>
      let activityDate := setHours0 tz (parseDate activity_date) in
      let expectedDate := setDate tz today (getDate tz today - Z.of_nat i) in
      if activityDate =? expectedDate
      then S (currentLoop today (S i) rest)
      else 0%nat
  end.

(** The second loop, with its two counters. *)
Fixpoint longestLoop (activities : list Z) (longestStreak tempStreak : nat) : nat * nat :=
  match activities with
  | current :: ((next :: _) as rest) =>
      let dayDiff := (parseDate current - parseDate next) / (1000 * 60 * 60 * 24) in
      if dayDiff =? 1
      then longestLoop rest longestStreak (S tempStreak)
      else longestLoop rest (Nat.max longestStreak tempStreak) 1%nat
  | _ => (longestStreak, tempStreak)
  end.

(** The computation of [calculateStreak] on the rows the query returned. *)
Definition streakOf (now : Z) (activities : list Z) : Streak :=
  match activities with
  | [] => {| currentStreak := 0; longestStreak := 0; lastActiveDate := None |}
  | first :: _ =>
      let today := setHours0 tz now in
      let '(longest, temp) := longestLoop activities 0 1 in
      {| currentStreak := currentLoop today 0 activities;
         longestStreak := Nat.max longest temp;
         lastActiveDate := Some first |}
  end.

Definition calculateStreak (userId : string) (now : Z) (st : store) : Streak :=
  streakOf now (activeDates userId (activity_days st)).

Record Metrics := mkMetrics {
  totalHours : Z;
  totalLogs : nat;
  activeDays : nat;
  uniqueRepos : nat;
  averageHoursPerDay : Z;
  startDate : Z;
  endDate : Z
}.

(** [.gte(column, startDate).lte(column, endDate)] *)
Definition inRange (startDate endDate date : Z) : bool :=
  (startDate <=? date) && (date <=? endDate).

(** The rows of [activity_days] that the first query of
    [getProductivityMetrics] returns. *)
Definition activitiesIn (userId : string) (startDate endDate : Z)
    (days : gmap (string * Z) ActivityDay) : list (Z * ActivityDay) :=
  omap (fun '((u, date), day) =>
          if String.eqb u userId && inRange startDate endDate date
          then Some (date, day) else None)
       (map_to_list days).

(** [new Set(logs.filter(log => log.repo_id).map(log => log.repo_id)).size] *)
Definition countUniqueRepos (logs : list DailyLog) : nat :=
  length (remove_dups (omap (fun log => strOrNull (repo_id log)) logs)).

(** [Math.round(total / days)] on hundredths, halves rounded up. *)
Definition roundDiv (total : Z) (days : nat) : Z :=
  (2 * total + Z.of_nat days) / (2 * Z.of_nat days).

Definition getProductivityMetrics (userId : string) (p : period) (now : Z) (st : store)
  : Metrics :=
  let '(startDate, endDate) := getDateRange tz p now in
  let activities := activitiesIn userId startDate endDate (activity_days st) in
  let logs := List.filter (fun log => String.eqb (Logs.user_id log) userId
                                      && inRange startDate endDate (log_date log))
                          (daily_logs st) in
  let totalHours := fold_left (fun sum day => sum + total_hours (snd day)) activities 0 in
  let totalLogs := fold_left (fun sum day => (sum + log_count (snd day))%nat) activities 0%nat in
  let activeDays := length (List.filter (fun day => is_active (snd day)) activities) in
  {| totalHours := totalHours;
     totalLogs := totalLogs;
     activeDays := activeDays;
     uniqueRepos := countUniqueRepos logs;
     averageHoursPerDay := if (0 <? activeDays)%nat then roundDiv totalHours activeDays else 0;
     startDate := startDate;
     endDate := endDate |}.





Record Summary := mkSummary {
  streak_current : nat;
  streak_longest : nat;
  streak_lastActive : option Z;
  thisWeek_activeDays : nat;
  thisWeek_totalHours : Z;
  thisMonth_activeDays : nat;
  thisMonth_totalHours : Z;
  allTime_activeDays : nat;
  allTime_totalHours : Z;
  allTime_totalRepos : nat
}.

(** [getActivitySummary(userId)]: the four computations each read the clock
    on their own, at [nowS], [nowW], [nowM] and [nowA]. *)
Definition getActivitySummary (userId : string) (nowS nowW nowM nowA : Z) (st : store)
  : Summary :=
  let streak := calculateStreak userId nowS st in
  let weekMetrics := getProductivityMetrics userId Week nowW st in
  let monthMetrics := getProductivityMetrics userId Month nowM st in
  let allTimeMetrics := getProductivityMetrics userId All nowA st in
  {| streak_current := currentStreak streak;
     streak_longest := longestStreak streak;
     streak_lastActive := lastActiveDate streak;
     thisWeek_activeDays := activeDays weekMetrics;
     thisWeek_totalHours := totalHours weekMetrics;
     thisMonth_activeDays := activeDays monthMetrics;
     thisMonth_totalHours := totalHours monthMetrics;
     allTime_activeDays := activeDays allTimeMetrics;
     allTime_totalHours := totalHours allTimeMetrics;
     allTime_totalRepos := uniqueRepos allTimeMetrics |}.

End Clock.

End Activity.

(** * Properties *)

(** ** Facts on lists used below *)

Module ListFacts.

Lemma key_determines_row {A B} (f : A -> B) (l : list A) (a b : A) :
  List.NoDup (map f l) -> In a l -> In b l -> f a = f b -> a = b.
Proof.
  induction l as [|x l IH]; intros Hnd Ha Hb Hab; [destruct Ha|].
  simpl in Hnd. apply List.NoDup_cons_iff in Hnd as [Hx Hnd].
  destruct Ha as [->|Ha], Hb as [->|Hb]; auto.
  - exfalso. apply Hx. rewrite Hab. by apply in_map.
  - exfalso. apply Hx. rewrite <- Hab. by apply in_map.
Qed.

Lemma filter_map_frame {A} (P : A -> bool) (g : A -> A) (l : list A) :
  (forall x, In x l -> P (g x) = P x /\ (P x = true -> g x = x)) ->
  List.filter P (map g l) = List.filter P l.
Proof.
  induction l as [|x l IH]; intros H; [reflexivity|].
  simpl. destruct (H x (or_introl eq_refl)) as [H1 H2].
  rewrite H1, IH by (intros y Hy; apply H; by right).
  destruct (P x) eqn:E; [|reflexivity]. by rewrite H2.
Qed.

Lemma filter_filter_frame {A} (P Q : A -> bool) (l : list A) :
  (forall x, In x l -> P x = true -> Q x = true) ->
  List.filter P (List.filter Q l) = List.filter P l.
Proof.
  induction l as [|x l IH]; intros H; [reflexivity|].
  simpl. rewrite <- IH by (intros y Hy; apply H; by right).
  destruct (Q x) eqn:EQ; simpl; [reflexivity|].
  destruct (P x) eqn:EP; [|reflexivity].
  rewrite (H x (or_introl eq_refl) EP) in EQ. discriminate.
Qed.

Lemma find_none_filter {A} (P : A -> bool) (l : list A) :
  List.find P l = None -> List.filter (fun x => negb (P x)) l = l.
Proof.
  induction l as [|x l IH]; [reflexivity|]. simpl.
  destruct (P x); [discriminate|]. intros H. simpl. by rewrite IH.
Qed.

Lemma NoDup_map_filter {A B} (f : A -> B) (keep : A -> bool) (l : list A) :
  List.NoDup (map f l) -> List.NoDup (map f (List.filter keep l)).
Proof.
  induction l as [|x l IH]; intros H; [constructor|].
  simpl in H. apply List.NoDup_cons_iff in H as [Hx H].
  simpl. destruct (keep x); [|by apply IH]. simpl. constructor; [|by apply IH].
  intros (y & Hy & Hin)%in_map_iff. apply filter_In in Hin as [Hin _].
  apply Hx. rewrite <- Hy. by apply in_map.
Qed.

Lemma NoDup_map_snoc {A B} (f : A -> B) (l : list A) (x : A) :
  List.NoDup (map f l) -> ~ In (f x) (map f l) -> List.NoDup (map f (l ++ [x])).
Proof.
  intros Hl Hx. rewrite map_app. simpl. apply List.NoDup_app; [exact Hl | |].
  - constructor; [intros [] | constructor].
  - intros y Hy [<-|[]]. by apply Hx.
Qed.

End ListFacts.

(** ** The scanner's complexity score *)

Module ScannerProps.

Import Scanner.

Lemma fileBand_range n : 5 <= fileBand n <= 30.
Proof. unfold fileBand. repeat case_match; lia. Qed.

Lemma dirBand_range n : 5 <= dirBand n <= 20.
Proof. unfold dirBand. repeat case_match; lia. Qed.

Lemma languageBand_range n : 5 <= languageBand n <= 20.
Proof. unfold languageBand. repeat case_match; lia. Qed.

Lemma dependencyBand_range n : 0 <= dependencyBand n <= 15.
Proof. unfold dependencyBand. repeat case_match; lia. Qed.

Lemma configBand_range n : 3 <= configBand n <= 15.
Proof. unfold configBand. repeat case_match; lia. Qed.

Lemma calculateComplexity_range files directories languages dependencies :
  18 <= calculateComplexity files directories languages dependencies <= 100.
Proof.
  unfold calculateComplexity.
  pose proof (fileBand_range (length files)).
  pose proof (dirBand_range (length directories)).
  pose proof (languageBand_range (length languages)).
  pose proof (dependencyBand_range (length dependencies)).
  pose proof (configBand_range (length (List.filter isConfigFile files))).
  lia.
Qed.

(** The score is the plain sum of the bands: the clamp at 100 never cuts. *)
Lemma calculateComplexity_sum files directories languages dependencies :
  calculateComplexity files directories languages dependencies
  = fileBand (length files) + dirBand (length directories)
    + languageBand (length languages) + dependencyBand (length dependencies)
    + configBand (length (List.filter isConfigFile files)).
Proof.
  unfold calculateComplexity.
  pose proof (fileBand_range (length files)).
  pose proof (dirBand_range (length directories)).
  pose proof (languageBand_range (length languages)).
  pose proof (dependencyBand_range (length dependencies)).
  pose proof (configBand_range (length (List.filter isConfigFile files))).
  lia.
Qed.

(** A tree with one JavaScript file, the smallest score there is. *)
Definition oneScript : list FileTreeNode :=
  [ mkNode "index.js" TFile (Some 120) (Some "js") ].

(** C2, evaluated on the code: the scan of the empty file tree scores 28,
    not 18.  With no language detected the language band adds 15 (the count 0
    is caught by the branch [languageCount <= 4]), the other bands add 5
    (files), 5 (directories), 0 (dependencies) and 3 (configuration
    files). *)
Theorem C2_empty_tree_scores_28 :
  let r := scanCodebase [] in
  totalFiles r = 0%nat /\ totalDirectories r = 0%nat /\ languages r = []
  /\ dependencies r = []
  /\ fileBand 0 = 5 /\ dirBand 0 = 5 /\ languageBand 0 = 15
  /\ dependencyBand 0 = 0 /\ configBand 0 = 3
  /\ complexityScore r = 28 /\ complexityScore r <> 18.
Proof. cbv. repeat split; congruence. Qed.

(** C10: for every file tree, the empty one included, the complexity score
    lies between 18 and 100.  Each band has the minimum and maximum stated
    (5, 5, 5, 0, 3 and 30, 20, 20, 15, 15), the minima sum to 18, the maxima
    to 100, and 18 is reached. *)
Theorem C10_score_between_18_and_100 :
  (forall tree, 18 <= complexityScore (scanCodebase tree) <= 100)
  /\ (forall files directories languages dependencies,
        18 <= calculateComplexity files directories languages dependencies <= 100)
  /\ (forall n, 5 <= fileBand n <= 30)
  /\ (forall n, 5 <= dirBand n <= 20)
  /\ (forall n, 5 <= languageBand n <= 20)
  /\ (forall n, 0 <= dependencyBand n <= 15)
  /\ (forall n, 3 <= configBand n <= 15)
  /\ (fileBand 0 = 5 /\ dirBand 0 = 5 /\ languageBand 1 = 5
      /\ dependencyBand 0 = 0 /\ configBand 0 = 3 /\ 5 + 5 + 5 + 0 + 3 = 18)
  /\ (fileBand 1000 = 30 /\ dirBand 30 = 20 /\ languageBand 5 = 20
      /\ dependencyBand 4 = 15 /\ configBand 20 = 15 /\ 30 + 20 + 20 + 15 + 15 = 100)
  /\ complexityScore (scanCodebase oneScript) = 18
  /\ 18 <= complexityScore (scanCodebase []).
Proof.
  split; [intros tree; apply calculateComplexity_range|].
  split; [apply calculateComplexity_range|].
  split; [apply fileBand_range|].
  split; [apply dirBand_range|].
  split; [apply languageBand_range|].
  split; [apply dependencyBand_range|].
  split; [apply configBand_range|].
  split; [cbv; repeat split; reflexivity|].
  split; [cbv; repeat split; reflexivity|].
  split; [reflexivity|].
  vm_compute. congruence.
Qed.

End ScannerProps.

(** ** The insight generator absorbs every failure *)

Module LlmProps.

Import Scanner Llm.




(** [joinAll] rejects exactly when one of the four operations does. *)
Lemma joinAll_rejects s v d i :
  isOk (joinAll s v d i) = isOk s && isOk v && isOk d && isOk i.
Proof. destruct s, v, d, i; reflexivity. Qed.



Lemma analyzeRepository_total JSON_parse r metadata scanResults :
  exists a, analyzeRepository JSON_parse r metadata scanResults = Ok a.
Proof.
  unfold analyzeRepository, analyzeRepositoryOf.
  destruct (joinAll _ _ _ _); simpl; eauto.
Qed.





End LlmProps.

(** ** Calendar arithmetic and date ranges *)

Module HelpersProps.

Import Helpers.

(** The round trip of one 400-year era, on one day of the era. *)
Definition eraDayOk (doe : Z) : bool :=
  let '(yoe, m, d) := civil_of_doe doe in
  (0 <=? yoe) && (yoe <? 400) && (1 <=? m) && (m <=? 12) && (1 <=? d) && (d <=? 31)
  && (doe_of_civil yoe m d =? doe).

(** [P] on the [2 ^ k] integers from [lo]. *)
Fixpoint allFrom (k : nat) (lo : Z) (P : Z -> bool) : bool :=
  match k with
  | O => P lo
  | S k' => allFrom k' lo P && allFrom k' (lo + 2 ^ Z.of_nat k') P
  end.

Lemma allFrom_spec k : forall lo P,
  allFrom k lo P = true -> forall z, lo <= z < lo + 2 ^ Z.of_nat k -> P z = true.
Proof.
  induction k as [|k IH]; intros lo P H z Hz.
  - simpl in *. replace z with lo by lia. exact H.
  - cbn [allFrom] in H. apply andb_prop in H as [H1 H2].
    replace (Z.of_nat (S k)) with (Z.succ (Z.of_nat k)) in Hz by lia.
    rewrite Z.pow_succ_r in Hz by lia.
    destruct (Z_lt_dec z (lo + 2 ^ Z.of_nat k)).
    + apply (IH lo P H1). lia.
    + apply (IH _ P H2). lia.
Qed.

Lemma era_checked : allFrom 18 0 (fun z => (146097 <=? z) || eraDayOk z) = true.
Proof. vm_cast_no_check (eq_refl true). Qed.

Lemma eraDayOk_all doe : 0 <= doe < 146097 -> eraDayOk doe = true.
Proof.
  intros H.
  pose proof (allFrom_spec 18 0 _ era_checked doe) as Hc.
  simpl in Hc. destruct (146097 <=? doe) eqn:E; [lia|].
  apply Hc. lia.
Qed.

(** A civil date read off a day number names that day, and its month is a
    month. *)
Lemma civil_round_trip z :
  let '(y, m, d) := civil_from_days z in
  1 <= m <= 12 /\ days_from_civil y m d = z.
Proof.
  unfold civil_from_days, days_from_civil.
  set (z' := z + 719468).
  assert (Hd : 0 <= z' mod 146097 < 146097) by (apply Z.mod_pos_bound; lia).
  pose proof (eraDayOk_all _ Hd) as Hok. unfold eraDayOk in Hok.
  destruct (civil_of_doe (z' mod 146097)) as [[yoe m] d].
  repeat (apply andb_prop in Hok as [Hok ?]).
  split; [lia|].
  replace (yoe + z' / 146097 * 400 + janFeb m - janFeb m)
    with (yoe + z' / 146097 * 400) by lia.
  rewrite Z.div_add by lia. rewrite Z.mod_add by lia.
  rewrite (Z.div_small yoe 400) by lia. rewrite (Z.mod_small yoe 400) by lia.
  pose proof (Z.div_mod z' 146097 ltac:(lia)). lia.
Qed.

(** The day numbers of the dates used in the examples below. *)
Example january_2024 :
  days_from_civil 2024 1 3 = 19725 /\ days_from_civil 2024 1 6 = 19728
  /\ days_from_civil 2024 1 10 = 19732 /\ civil_from_days 19733 = (2024, 1, 11).
Proof. repeat split; reflexivity. Qed.

Lemma days_from_civil_linear y m d k :
  days_from_civil y m (d + k) = days_from_civil y m d + k.
Proof. unfold days_from_civil, doe_of_civil. lia. Qed.

Section LocalTime.

Variable tz : Z.

(** Moving the day of the month by [k] moves the local day by [k]; the month
    and the year carry as [Date] makes them. *)
Lemma makeLocal_shift t k time :
  makeLocal tz (getFullYear tz t) (getMonth tz t) (getDate tz t + k) time
  = (localDay tz t + k) * msPerDay + time - tz.
Proof.
  unfold makeLocal, getFullYear, getMonth, getDate.
  pose proof (civil_round_trip (localDay tz t)) as H.
  destruct (civil_from_days (localDay tz t)) as [[y m] d]. simpl.
  destruct H as [Hm Hd].
  rewrite (Z.div_small (m - 1) 12) by lia. rewrite (Z.mod_small (m - 1) 12) by lia.
  replace (y + 0) with y by lia. replace (m - 1 + 1) with m by lia.
  rewrite days_from_civil_linear, Hd. reflexivity.
Qed.

Lemma formatDate_localDay t : formatDate tz t = localDay tz t.
Proof.
  unfold formatDate, getFullYear, getMonth, getDate.
  pose proof (civil_round_trip (localDay tz t)) as H.
  destruct (civil_from_days (localDay tz t)) as [[y m] d]. simpl.
  replace (m - 1 + 1) with m by lia. tauto.
Qed.

Lemma timeInDay_bound t : 0 <= timeInDay tz t < msPerDay.
Proof. unfold timeInDay, msPerDay. apply Z.mod_pos_bound. lia. Qed.

Lemma localDay_of_local d time :
  0 <= time < msPerDay -> localDay tz (d * msPerDay + time - tz) = d.
Proof.
  intros H. unfold localDay, msPerDay in *.
  replace (d * 86400000 + time - tz + tz) with (time + d * 86400000) by lia.
  rewrite Z.div_add by lia. rewrite Z.div_small by lia. lia.
Qed.

Lemma setDate_shift t k :
  setDate tz t (getDate tz t + k) = (localDay tz t + k) * msPerDay + timeInDay tz t - tz.
Proof. unfold setDate. apply makeLocal_shift. Qed.

Lemma setHours0_localDay t : setHours0 tz t = localDay tz t * msPerDay - tz.
Proof.
  unfold setHours0.
  replace (getDate tz t) with (getDate tz t + 0) by lia.
  rewrite makeLocal_shift. lia.
Qed.

Lemma localDay_setDate t k : localDay tz (setDate tz t (getDate tz t + k)) = localDay tz t + k.
Proof. rewrite setDate_shift. apply localDay_of_local, timeInDay_bound. Qed.

(** The range of period "week": from the local day seven days before today
    to today. *)
Lemma getDateRange_week now :
  getDateRange tz Week now = (localDay tz now - 7, localDay tz now).
Proof.
  unfold getDateRange. rewrite !formatDate_localDay.
  replace (getDate tz now - 7) with (getDate tz now + -7) by lia.
  rewrite localDay_setDate. reflexivity.
Qed.

End LocalTime.

End HelpersProps.

(** ** Retry with backoff and the provider client *)

Module GitHubProps.

Import Llm Helpers GitHub.

Definition isGet (e : event) : bool :=
  match e with HttpGet _ => true | _ => false end.

(** The number of requests in a trace, and the pauses between them. *)
Definition attempts (tr : list event) : nat := length (List.filter isGet tr).

Definition pauses (tr : list event) : list Z :=
  omap (fun e => match e with Sleep ms => Some ms | _ => None end) tr.

Section Retry.

Context {T : Type}.
Variable fn : nat -> result T.
Variable path : string.
Variable maxRetries : nat.
Variable initialDelay : Z.

Lemma retryLoop_bounded remaining : forall i lastError,
  (attempts (snd (retryLoop fn (HttpGet path) maxRetries initialDelay i remaining lastError))
   <= remaining)%nat.
Proof.
  induction remaining as [|remaining IH]; intros i lastError; simpl; [unfold attempts; simpl; lia|].
  destruct (fn i) as [v|error]; [simpl; unfold attempts; simpl; lia|].
  specialize (IH (S i) error).
  destruct (retryLoop fn (HttpGet path) maxRetries initialDelay (S i) remaining error)
    as [r tr]. simpl in *.
  unfold attempts in *. simpl.
  rewrite List.filter_app, length_app.
  destruct (i <? maxRetries - 1)%nat; simpl; lia.
Qed.

(** When every call fails, whatever the failures are, all the iterations
    run, each followed by its pause but the last, and the last failure is
    thrown. *)
Lemma retryLoop_all_fail (errors : nat -> exn) remaining : forall i lastError,
  (i + remaining = maxRetries)%nat ->
  (forall n, (n < maxRetries)%nat -> fn n = Throw (errors n)) ->
  let '(r, tr) := retryLoop fn (HttpGet path) maxRetries initialDelay i remaining lastError in
  r = Throw (match remaining with O => lastError | S _ => errors (maxRetries - 1)%nat end)
  /\ attempts tr = remaining
  /\ pauses tr = map (fun n => initialDelay * 2 ^ Z.of_nat n) (seq i (remaining - 1)).
Proof.
  induction remaining as [|remaining IH]; intros i lastError Hi Hfail; simpl.
  - repeat split.
  - rewrite (Hfail i) by lia.
    specialize (IH (S i) (errors i) ltac:(lia) Hfail).
    destruct (retryLoop fn (HttpGet path) maxRetries initialDelay (S i) remaining (errors i))
      as [r tr].
    destruct IH as (Hr & Ha & Hp).
    split; [|split].
    + rewrite Hr. destruct remaining; [|reflexivity].
      do 2 f_equal. lia.
    + unfold attempts in *. simpl. rewrite List.filter_app, length_app, Ha.
      destruct (i <? maxRetries - 1)%nat; simpl; lia.
    + unfold pauses in *. simpl. rewrite omap_app, Hp.
      destruct remaining as [|remaining].
      * destruct (Nat.ltb_spec i (maxRetries - 1)); [lia|]. reflexivity.
      * destruct (Nat.ltb_spec i (maxRetries - 1)); [|lia].
        simpl. rewrite Nat.sub_0_r. reflexivity.
Qed.

End Retry.

(** The specification's wording, "fails immediately without any retry": a
    response with this status to the first request ends the call after that
    one request. *)
Definition failsWithoutRetry (status : Z) : Prop :=
  forall (parseGitHubUrl : string -> option (string * string)) (gh : api)
         (githubUrl owner repo : string),
    parseGitHubUrl githubUrl = Some (owner, repo) ->
    getRepo gh ("/repos/" ++ owner ++ "/" ++ repo) 0%nat = Throw (HttpError status false) ->
    attempts (snd (fetchRepoMetadata parseGitHubUrl gh githubUrl)) = 1%nat.

(** A remote API that answers every request with the same status. *)
Definition always (status : Z) (exhausted : bool) : api :=
  {| getRepo := fun _ _ => Throw (HttpError status exhausted);
     getTree := fun _ _ => Throw (HttpError status exhausted) |}.

Definition parseDemo (url : string) : option (string * string) := Some ("octo", "demo").

Definition demoUrl : string := "https://github.com/octo/demo".

(** C5 as stated fails: a 404, a 403 and a 429 response are each retried,
    three requests are made with pauses of 1000 and 2000 ms; and the
    rate-limited error that the interceptor builds leaves
    [fetchRepoMetadata] as a generic 500. *)
Lemma C5_not_found_is_retried :
  ~ failsWithoutRetry 404 /\ ~ failsWithoutRetry 403 /\ ~ failsWithoutRetry 429
  /\ fetchRepoMetadata parseDemo (always 404 false) demoUrl
     = (Throw (AppError 404 "Repository not found"),
        [HttpGet "/repos/octo/demo"; Sleep 1000; HttpGet "/repos/octo/demo"; Sleep 2000;
         HttpGet "/repos/octo/demo"])
  /\ fst (fetchRepoMetadata parseDemo (always 403 true) demoUrl)
     = Throw (AppError 500 "Failed to fetch repository metadata").
Proof.
  assert (H : forall status, ~ failsWithoutRetry status).
  { intros status Hc.
    specialize (Hc parseDemo (always status false) demoUrl "octo" "demo" eq_refl eq_refl).
    unfold fetchRepoMetadata, retryWithBackoff, retryWithBackoffN in Hc. simpl in Hc.
    repeat case_match; simpl in Hc; discriminate. }
  repeat split; try apply H; reflexivity.
Qed.

(** C5, amended: the call to the provider is retried with a bounded
    exponential backoff after a failure of any kind.  At most three requests
    are made; a success ends the call with the metadata; a failure, a 404 or
    a 403 like any other, is followed by a pause (1000 ms, then 2000 ms) and a
    new request; only when the third request has failed is the last failure
    reported, a 404 as not-found and a 403 as access-denied.  The client's
    interceptor turns a 403 that signals an exhausted rate limit into a
    rate-limited error (429) of its own. *)
Theorem C5_retry_on_every_failure
    (parseGitHubUrl : string -> option (string * string)) (gh : api)
    (githubUrl owner repo : string)
    (Hurl : parseGitHubUrl githubUrl = Some (owner, repo)) :
  let path := "/repos/" ++ owner ++ "/" ++ repo in
  let get := HttpGet path in
  let out := fetchRepoMetadata parseGitHubUrl gh githubUrl in
  (attempts (snd out) <= 3)%nat
  /\ (forall data, getRepo gh path 0%nat = Ok data ->
        out = (Ok (toMetadata data), [get]))
  /\ (forall e0 data, getRepo gh path 0%nat = Throw e0 -> getRepo gh path 1%nat = Ok data ->
        out = (Ok (toMetadata data), [get; Sleep 1000; get]))
  /\ (forall e0 e1 data,
        getRepo gh path 0%nat = Throw e0 -> getRepo gh path 1%nat = Throw e1 ->
        getRepo gh path 2%nat = Ok data ->
        out = (Ok (toMetadata data), [get; Sleep 1000; get; Sleep 2000; get]))
  /\ (forall e0 e1 e2,
        getRepo gh path 0%nat = Throw e0 -> getRepo gh path 1%nat = Throw e1 ->
        getRepo gh path 2%nat = Throw e2 ->
        snd out = [get; Sleep 1000; get; Sleep 2000; get]
        /\ (forall b, e2 = HttpError 404 b ->
              fst out = Throw (AppError 404 "Repository not found"))
        /\ (e2 = HttpError 403 false ->
              fst out = Throw (AppError 403 "Repository is private or access denied")))
  /\ clientGet (getRepo (always 403 true) path 0%nat)
     = Throw (AppError 429 "GitHub API rate limit exceeded. Please try again later.").
Proof.
  intros path get out. subst out. unfold fetchRepoMetadata. rewrite Hurl.
  fold path. fold get.
  split.
  { pose proof (retryLoop_bounded (fun n => clientGet (getRepo gh path n)) path 3 1000 3 0
                  undefinedError) as Hb.
    unfold retryWithBackoff, retryWithBackoffN. fold get in Hb.
    destruct (retryLoop _ get 3 1000 0 3 undefinedError) as [r tr]. simpl in Hb.
    destruct r; [exact Hb|]. repeat case_match; exact Hb. }
  unfold retryWithBackoff, retryWithBackoffN. simpl.
  split; [intros data ->; reflexivity|].
  split; [intros e0 data -> ->; reflexivity|].
  split; [intros e0 e1 data -> -> ->; reflexivity|].
  split; [|reflexivity].
  intros e0 e1 e2 -> -> ->. simpl.
  split; [repeat case_match; reflexivity|].
  split.
  - intros b ->. simpl. reflexivity.
  - intros ->. reflexivity.
Qed.

Lemma C5_witness :
  fetchRepoMetadata parseDemo (always 403 false) demoUrl
  = (Throw (AppError 403 "Repository is private or access denied"),
     [HttpGet "/repos/octo/demo"; Sleep 1000; HttpGet "/repos/octo/demo"; Sleep 2000;
      HttpGet "/repos/octo/demo"]).
Proof.
  pose proof (C5_retry_on_every_failure parseDemo (always 403 false) demoUrl "octo" "demo"
                eq_refl) as H.
  cbv zeta in H. destruct H as (_ & _ & _ & _ & H & _).
  destruct (H _ _ _ eq_refl eq_refl eq_refl) as (Htr & _ & Hres).
  apply injective_projections; [exact (Hres eq_refl) | exact Htr].
Defined.

End GitHubProps.

(** ** The analysis orchestrator *)

Module RepoProps.

Import Scanner Llm Helpers Repo ListFacts.

(** What the table and the cache keep true: the declared [UNIQUE] on
    [github_url], the primary key, and a cache that holds rows of the table
    under their own key. *)
Record wfState (st : state) : Prop := mkWfState {
  wf_urls : List.NoDup (map github_url (repositories st));
  wf_repo_ids : List.NoDup (map id (repositories st));
  wf_repo_fresh : forall r, In r (repositories st) -> (id r < next_id st)%nat;
  wf_cache : forall k r e,
      cache st !! k = Some (r, e) ->
      In r (repositories st) /\ k = cacheKey (github_url r)
}.

Lemma wfState_initial : wfState initial.
Proof.
  split; [constructor | constructor | intros r [] |].
  intros k r e H. simpl in H. by rewrite lookup_empty in H.
Qed.

Lemma cacheKey_inj a b : cacheKey a = cacheKey b -> a = b.
Proof. unfold cacheKey. cbn. intros H. injection H. auto. Qed.

Definition matches (userId githubUrl : string) (r : Repository) : bool :=
  String.eqb (user_id r) userId && String.eqb (github_url r) githubUrl.

Lemma matches_spec userId githubUrl r :
  matches userId githubUrl r = true <-> user_id r = userId /\ github_url r = githubUrl.
Proof. unfold matches. rewrite andb_true_iff, !String.eqb_eq. tauto. Qed.

Lemma selectExisting_Some userId githubUrl rows r :
  selectExisting userId githubUrl rows = Some r ->
  In r rows /\ user_id r = userId /\ github_url r = githubUrl.
Proof.
  unfold selectExisting. fold (matches userId githubUrl).
  destruct (List.filter (matches userId githubUrl) rows) as [|x [|y l]] eqn:E; try discriminate.
  intros [= ->].
  assert (Hin : In r (List.filter (matches userId githubUrl) rows)) by (rewrite E; left; reflexivity).
  apply filter_In in Hin as [Hin Hm]. apply matches_spec in Hm. tauto.
Qed.

(** With unique URLs, the rows of a URL are at most one. *)
Lemma filter_unique_url userId githubUrl rows :
  List.NoDup (map github_url rows) ->
  forall r, In r rows -> github_url r = githubUrl ->
  List.filter (matches userId githubUrl) rows
  = if String.eqb (user_id r) userId then [r] else [].
Proof.
  induction rows as [|x rows IH]; intros Hnd r Hin Hurl; [destruct Hin|].
  simpl in Hnd. apply List.NoDup_cons_iff in Hnd as [Hx Hnd].
  assert (Hnone : forall y, In y rows -> github_url y = github_url x ->
                            List.filter (matches userId githubUrl) rows = [] -> False).
  { intros y Hy Hyx _. apply Hx. rewrite <- Hyx. by apply in_map. }
  destruct Hin as [->|Hin].
  - simpl. unfold matches at 1. rewrite Hurl, String.eqb_refl, andb_true_r.
    assert (Hrest : List.filter (matches userId githubUrl) rows = []).
    { clear IH Hnone. induction rows as [|y rows IH]; [reflexivity|].
      simpl. destruct (matches userId githubUrl y) eqn:Hm.
      - exfalso. apply matches_spec in Hm as [_ Hm]. apply Hx. simpl. left. congruence.
      - apply IH.
        + intros Hin. apply Hx. simpl. by right.
        + by apply List.NoDup_cons_iff in Hnd as [_ Hnd]. }
    rewrite Hrest. by destruct (String.eqb (user_id r) userId).
  - simpl. destruct (matches userId githubUrl x) eqn:Hm.
    + exfalso. apply matches_spec in Hm as [_ Hm]. apply Hx.
      rewrite Hm, <- Hurl. by apply in_map.
    + by apply IH.
Qed.

Lemma selectExisting_unique userId githubUrl rows r :
  List.NoDup (map github_url rows) -> In r rows ->
  user_id r = userId -> github_url r = githubUrl ->
  selectExisting userId githubUrl rows = Some r.
Proof.
  intros Hnd Hin Hu Hurl. unfold selectExisting. fold (matches userId githubUrl).
  rewrite (filter_unique_url userId githubUrl rows Hnd r Hin Hurl).
  rewrite Hu, String.eqb_refl. reflexivity.
Qed.

Lemma selectExisting_other userId githubUrl rows r :
  List.NoDup (map github_url rows) -> In r rows ->
  user_id r <> userId -> github_url r = githubUrl ->
  selectExisting userId githubUrl rows = None.
Proof.
  intros Hnd Hin Hu Hurl. unfold selectExisting. fold (matches userId githubUrl).
  rewrite (filter_unique_url userId githubUrl rows Hnd r Hin Hurl).
  apply String.eqb_neq in Hu. rewrite Hu. reflexivity.
Qed.

Lemma urlTaken_spec githubUrl rows :
  urlTaken githubUrl rows = true <-> In githubUrl (map github_url rows).
Proof.
  unfold urlTaken. rewrite existsb_exists, in_map_iff.
  split; intros (r & H1 & H2); exists r.
  - apply String.eqb_eq in H2. tauto.
  - split; [tauto|]. apply String.eqb_eq. tauto.
Qed.

Lemma cache_get_spec (key : string) (now : Z) (c : gmap string (Repository * Z)) :
  match Cache.get key now c with
  | (Some hit, c') => c' = c /\ exists e, c !! key = Some (hit, e) /\ now <= e
  | (None, c') => (c' = c /\ c !! key = None)
                  \/ (c' = delete key c /\ exists hit e, c !! key = Some (hit, e) /\ e < now)
  end.
Proof.
  unfold Cache.get. destruct (c !! key) as [[hit e]|] eqn:E; [|by left].
  destruct (Z.ltb_spec e now).
  - right. split; [reflexivity|]. by exists hit, e.
  - split; [reflexivity|]. by exists e.
Qed.

(** Dropping an expired entry keeps the cache coherent. *)
Lemma wf_after_get key now st :
  wfState st ->
  wfState {| repositories := repositories st; next_id := next_id st;
        cache := snd (Cache.get key now (cache st)) |}.
Proof.
  intros [Hu Hi Hf Hc]. split; [exact Hu | exact Hi | exact Hf |]. simpl.
  intros k r e Hk. apply (Hc k r e).
  pose proof (cache_get_spec key now (cache st)) as Hg.
  destruct (Cache.get key now (cache st)) as [[hit|] c']; simpl in *.
  - destruct Hg as [-> _]. exact Hk.
  - destruct Hg as [[-> _]|[-> _]]; [exact Hk|].
    apply lookup_delete_Some in Hk. tauto.
Qed.

Lemma wf_set st r now :
  wfState st -> In r (repositories st) ->
  wfState {| repositories := repositories st; next_id := next_id st;
        cache := Cache.set (cacheKey (github_url r)) r 86400 now (cache st) |}.
Proof.
  intros [Hu Hi Hf Hc] Hin. split; [exact Hu | exact Hi | exact Hf |]. simpl. unfold Cache.set.
  intros k r' e Hk. apply lookup_insert_Some in Hk as [[<- [= <- <-]]|[_ Hk]].
  - by split.
  - by apply (Hc k r' e).
Qed.

Lemma url_determines_row rows (a b : Repository) :
  List.NoDup (map github_url rows) -> In a rows -> In b rows ->
  github_url a = github_url b -> a = b.
Proof. apply key_determines_row. Qed.

(** Every record an analysis returns belongs to the caller: a cached record
    of another owner is treated as a miss, never handed out. *)
Lemma analyzeRepository_own w userId githubUrl now st r st' tr :
  analyzeRepository w userId githubUrl now st = (Ok r, st', tr) ->
  user_id r = userId.
Proof.
  unfold analyzeRepository.
  destruct (Cache.get (cacheKey githubUrl) now (cache st)) as [cached c1].
  set (st1 := {| repositories := repositories st; next_id := next_id st; cache := c1 |}).
  assert (Hun : forall st0, analyzeUncached w userId githubUrl now st0 = (Ok r, st', tr) ->
                user_id r = userId).
  { intros st0. unfold analyzeUncached.
    destruct (selectExisting userId githubUrl (repositories st0)) as [ex|] eqn:E.
    - intros [= <- <- <-]. apply selectExisting_Some in E. tauto.
    - destruct (cloneRepoStructure w githubUrl) as [[[metadata fileTree]|e] tr0]; [|discriminate].
      destruct (Llm.analyzeRepository _ _ _ _) as [a|]; [|discriminate].
      unfold insertRepository. simpl.
      destruct (urlTaken githubUrl (repositories st0)); [discriminate|].
      by intros [= <- <- <-]. }
  destruct cached as [hit|]; [|by apply (Hun st1)].
  destruct (String.eqb (user_id hit) userId) eqn:E.
  - intros [= <- <- <-]. by apply String.eqb_eq in E.
  - by apply (Hun st1).
Qed.

(** A valid cache entry under the key of a URL is the row of that URL. *)
Lemma cached_is_row st githubUrl now hit c1 r :
  wfState st -> Cache.get (cacheKey githubUrl) now (cache st) = (Some hit, c1) ->
  In r (repositories st) -> github_url r = githubUrl -> hit = r /\ c1 = cache st.
Proof.
  intros [Hu Hi Hf Hc] Hget Hin Hurl.
  pose proof (cache_get_spec (cacheKey githubUrl) now (cache st)) as Hg.
  rewrite Hget in Hg. destruct Hg as (-> & e & Hk & _).
  split; [|reflexivity].
  apply Hc in Hk as [Hhit Hkey]. apply cacheKey_inj in Hkey.
  apply (url_determines_row (repositories st)); auto. congruence.
Qed.

(** An analysis of a (user, URL) whose record is persisted: the record is
    returned, no collaborator is called, the table is unchanged, and a cache
    that had no valid entry for the URL has one afterwards. *)
Lemma analyze_persisted w userId githubUrl now st r :
  wfState st -> selectExisting userId githubUrl (repositories st) = Some r ->
  exists st',
    analyzeRepository w userId githubUrl now st = (Ok r, st', [])
    /\ repositories st' = repositories st /\ next_id st' = next_id st /\ wfState st'
    /\ (fst (Cache.get (cacheKey githubUrl) now (cache st)) = None ->
        cache st' !! cacheKey githubUrl = Some (r, now + 86400 * 1000)).
Proof.
  intros Hwf Hsel.
  pose proof (selectExisting_Some _ _ _ _ Hsel) as (Hin & Hu & Hurl).
  pose proof (wf_after_get (cacheKey githubUrl) now st Hwf) as Hwf1.
  unfold analyzeRepository.
  destruct (Cache.get (cacheKey githubUrl) now (cache st)) as [cached c1] eqn:Hget.
  simpl in Hwf1.
  assert (Hun : exists st',
    analyzeUncached w userId githubUrl now
      {| repositories := repositories st; next_id := next_id st; cache := c1 |}
    = (Ok r, st', [])
    /\ repositories st' = repositories st /\ next_id st' = next_id st /\ wfState st'
    /\ cache st' !! cacheKey githubUrl = Some (r, now + 86400 * 1000)).
  { unfold analyzeUncached. simpl. rewrite Hsel. eexists. split; [reflexivity|].
    simpl. split; [reflexivity|]. split; [reflexivity|]. split.
    - rewrite <- Hurl. apply (wf_set _ r now Hwf1 Hin).
    - unfold Cache.set. apply lookup_insert_eq. }
  destruct cached as [hit|].
  - destruct (cached_is_row st githubUrl now hit c1 r Hwf Hget Hin Hurl) as [-> ->].
    rewrite Hu, String.eqb_refl. eexists. split; [reflexivity|].
    simpl. split; [reflexivity|]. split; [reflexivity|]. split; [|discriminate].
    by destruct st.
  - destruct Hun as (st' & H1 & H2 & H3 & H4 & H5). exists st'. tauto.
Qed.

Lemma wf_insert st row :
  wfState st -> urlTaken (github_url row) (repositories st) = false ->
  id row = next_id st ->
  wfState {| repositories := repositories st ++ [row]; next_id := S (next_id st);
        cache := cache st |}.
Proof.
  intros [Hu Hi Hf Hc] Hfree Hid. split; simpl.
  - apply NoDup_map_snoc; [exact Hu|]. intros Hx.
    assert (urlTaken (github_url row) (repositories st) = true); [|congruence].
    by apply urlTaken_spec.
  - apply NoDup_map_snoc; [exact Hi|].
    intros (r & Hr & Hin)%in_map_iff. specialize (Hf r Hin). lia.
  - intros r [Hin|[<-|[]]]%in_app_or; [specialize (Hf r Hin); lia | lia].
  - intros k r e Hk. destruct (Hc k r e Hk) as [Hin Hkey].
    split; [apply in_or_app; by left | exact Hkey].
Qed.

(** A successful analysis leaves the record persisted for its (user, URL). *)
Lemma analyze_success_persists w userId githubUrl now st r st' tr :
  wfState st -> analyzeRepository w userId githubUrl now st = (Ok r, st', tr) ->
  wfState st' /\ selectExisting userId githubUrl (repositories st') = Some r.
Proof.
  intros Hwf.
  pose proof (wf_after_get (cacheKey githubUrl) now st Hwf) as Hwf1.
  unfold analyzeRepository.
  destruct (Cache.get (cacheKey githubUrl) now (cache st)) as [cached c1] eqn:Hget.
  simpl in Hwf1.
  set (st1 := {| repositories := repositories st; next_id := next_id st; cache := c1 |}) in *.
  assert (Hun : analyzeUncached w userId githubUrl now st1 = (Ok r, st', tr) ->
                wfState st' /\ selectExisting userId githubUrl (repositories st') = Some r).
  { unfold analyzeUncached.
    destruct (selectExisting userId githubUrl (repositories st1)) as [ex|] eqn:E.
    - intros [= <- <- <-]. simpl. split; [|exact E].
      apply selectExisting_Some in E as (Hin & _ & Hurl).
      rewrite <- Hurl. apply (wf_set st1 ex now Hwf1 Hin).
    - destruct (cloneRepoStructure w githubUrl) as [[[metadata fileTree]|e] tr0]; [|discriminate].
      destruct (Llm.analyzeRepository _ _ _ _) as [a|]; [|discriminate].
      unfold insertRepository. simpl.
      destruct (urlTaken githubUrl (repositories st)) eqn:Ht; [discriminate|].
      intros [= <- <- <-]. simpl.
      set (row := newRow userId githubUrl metadata (scanCodebase fileTree) a (next_id st)).
      pose proof (wf_insert st1 row Hwf1 Ht eq_refl) as Hwf2.
      assert (Hin : In row (repositories st ++ [row])) by (apply in_or_app; right; by left).
      split.
      + apply (wf_set _ row now Hwf2 Hin).
      + apply selectExisting_unique; auto. apply Hwf2. }
  destruct cached as [hit|]; [|exact Hun].
  destruct (String.eqb (user_id hit) userId) eqn:E; [|exact Hun].
  intros [= <- <- <-]. split; [exact Hwf1|]. simpl.
  apply String.eqb_eq in E.
  pose proof (cache_get_spec (cacheKey githubUrl) now (cache st)) as Hg.
  rewrite Hget in Hg. destruct Hg as (_ & e & Hk & _).
  apply (wf_cache _ Hwf) in Hk as [Hin Hkey]. apply cacheKey_inj in Hkey.
  apply selectExisting_unique; auto. apply Hwf.
Qed.

(** Every analysis, failed ones included, keeps the invariant. *)
Lemma analyzeRepository_wf w userId githubUrl now st :
  wfState st -> wfState (snd (fst (analyzeRepository w userId githubUrl now st))).
Proof.
  intros Hwf.
  destruct (analyzeRepository w userId githubUrl now st) as [[[r|e] st'] tr] eqn:E.
  { apply (analyze_success_persists _ _ _ _ _ _ _ _ Hwf E). }
  pose proof (wf_after_get (cacheKey githubUrl) now st Hwf) as Hwf1.
  unfold analyzeRepository in E.
  destruct (Cache.get (cacheKey githubUrl) now (cache st)) as [cached c1].
  simpl in Hwf1. simpl.
  assert (Hun : forall st1, wfState st1 ->
            analyzeUncached w userId githubUrl now st1 = (Throw e, st', tr) -> wfState st').
  { intros st1 H1. unfold analyzeUncached.
    destruct (selectExisting userId githubUrl (repositories st1)); [discriminate|].
    destruct (cloneRepoStructure w githubUrl) as [[[metadata fileTree]|e0] tr0].
    - destruct (Llm.analyzeRepository _ _ _ _) as [a|]; [|by intros [= _ <- _]].
      unfold insertRepository. simpl.
      destruct (urlTaken githubUrl (repositories st1)); [by intros [= _ <- _]|discriminate].
    - by intros [= _ <- _]. }
  destruct cached as [hit|]; [|by apply (Hun _ Hwf1)].
  destruct (String.eqb (user_id hit) userId); [discriminate | by apply (Hun _ Hwf1)].
Qed.

Lemma owns_spec repoId userId r :
  owns repoId userId r = true <-> id r = repoId /\ user_id r = userId.
Proof. unfold owns. rewrite andb_true_iff, Nat.eqb_eq, String.eqb_eq. tauto. Qed.

(** An update of tags or metadata drops the cached copy of the row. *)
Lemma updateRepository_wf repoId userId updates st :
  wfState st -> wfState (snd (updateRepository repoId userId updates st)).
Proof.
  intros [Hu Hi Hf Hc]. unfold updateRepository.
  destruct (List.find (owns repoId userId) (repositories st)) as [old|] eqn:Hfind; [|by split].
  cbn [snd]. apply find_some in Hfind as [Hold Hto]. apply owns_spec in Hto as [Hid Huser].
  set (g := fun r => if owns repoId userId r then applyRepoUpdates updates r else r).
  assert (Hg : forall r, id (g r) = id r /\ github_url (g r) = github_url r)
    by (intros r; unfold g; by case_match).
  split; simpl.
  - rewrite map_map. erewrite map_ext; [exact Hu|]. intros r. apply Hg.
  - rewrite map_map. erewrite map_ext; [exact Hi|]. intros r. apply Hg.
  - intros r (x & <- & Hx)%in_map_iff. rewrite (proj1 (Hg x)). by apply Hf.
  - intros k r e [Hne Hk]%lookup_delete_Some. destruct (Hc k r e Hk) as [Hin ->].
    split; [|reflexivity]. apply in_map_iff. exists r. split; [|exact Hin].
    unfold g. destruct (owns repoId userId r) eqn:Ho; [|reflexivity].
    exfalso. apply Hne. apply owns_spec in Ho as [Ho _].
    by rewrite (key_determines_row id (repositories st) r old Hi Hin Hold ltac:(congruence)).
Qed.

(** A deletion drops the row and its cached copy. *)
Lemma deleteRepository_wf repoId userId st :
  wfState st -> wfState (snd (deleteRepository repoId userId st)).
Proof.
  intros [Hu Hi Hf Hc]. unfold deleteRepository. cbn [snd].
  set (keep := fun r => negb (owns repoId userId r)).
  split; simpl.
  - by apply NoDup_map_filter.
  - by apply NoDup_map_filter.
  - intros r [Hin _]%filter_In. by apply Hf.
  - intros k r e Hk.
    destruct (List.find (owns repoId userId) (repositories st)) as [old|] eqn:Hfind.
    + apply lookup_delete_Some in Hk as [Hne Hk]. destruct (Hc k r e Hk) as [Hin ->].
      split; [|reflexivity]. apply filter_In. split; [exact Hin|].
      unfold keep. destruct (owns repoId userId r) eqn:Ho; [|reflexivity].
      exfalso. apply Hne.
      apply find_some in Hfind as [Hold Hto].
      apply owns_spec in Hto as [Hid _]. apply owns_spec in Ho as [Ho _].
      by rewrite (key_determines_row id (repositories st) r old Hi Hin Hold ltac:(congruence)).
    + destruct (Hc k r e Hk) as [Hin ->]. split; [|reflexivity].
      apply filter_In. split; [exact Hin|]. unfold keep.
      by rewrite (find_none _ _ Hfind r Hin).
Qed.

(** *** Two users, one URL *)

Definition demoApi : GitHub.api :=
  {| GitHub.getRepo := fun _ _ =>
       Ok {| GitHub.owner_login := "octo"; GitHub.data_name := "demo";
             GitHub.data_full_name := "octo/demo";
             GitHub.data_description := Some "A demo";
             GitHub.data_language := Some "TypeScript";
             GitHub.stargazers_count := Some 12; GitHub.forks_count := None;
             GitHub.data_default_branch := Some "main" |};
     GitHub.getTree := fun _ _ =>
       Ok [ GitHub.mkItem "src" "tree" None;
            GitHub.mkItem "src/index.ts" "blob" (Some 2048);
            GitHub.mkItem "package.json" "blob" (Some 512) ] |}.

(** A world in which the provider answers and the text-generation service
    is down. *)
Definition demoWorld : world :=
  {| cloneRepoStructure :=
       GitHub.cloneRepoStructure (fun _ => Some ("octo", "demo")) demoApi;
     llmReplies :=
       {| summaryReply := Content (Some " A small demo. ");
          vibeReply := Rejected (OtherError "timeout");
          difficultyReply := Content (Some "Beginner");
          improvementReply := Content None |};
     JSON_parse := fun _ => None |}.

Definition repoUrl : string := "https://github.com/octo/demo".

(** The state after the first analysis of the URL, by alice at instant 1000. *)
Definition afterAlice : state :=
  snd (fst (analyzeRepository demoWorld "alice" repoUrl 1000 initial)).

Definition aliceRecord : Repository :=
  newRow "alice" repoUrl
    {| owner := "octo"; repo := "demo"; full_name := "octo/demo";
       description := Some "A demo"; language := Some "TypeScript";
       stars := 12; forks := 0; default_branch := "main" |}
    (scanCodebase [ mkNode "src" TDir None None;
                    mkNode "src/index.ts" TFile (Some 2048) (Some "ts");
                    mkNode "package.json" TFile (Some 512) (Some "json") ])
    {| summary := "A small demo."; vibe := "Learning Project";
       difficulty := "Beginner"; improvements := getFallbackImprovements |}
    0.

Lemma alice_first_analysis :
  analyzeRepository demoWorld "alice" repoUrl 1000 initial
  = (Ok aliceRecord, afterAlice,
     [HttpGet "/repos/octo/demo"; HttpGet "/repos/octo/demo/git/trees/main";
      ScanCall; GenerateCall]).
Proof. vm_compute. reflexivity. Qed.

Lemma wf_afterAlice :
  wfState afterAlice /\ selectExisting "alice" repoUrl (repositories afterAlice) = Some aliceRecord.
Proof. exact (analyze_success_persists _ _ _ _ _ _ _ _ wfState_initial alice_first_analysis). Qed.

(** C1, evaluated on the code: once a user holds the record of a URL, the
    analysis of that URL by another user never yields a second record.  The
    cached record, owned by the first user, is treated as a miss and the
    lookup in the table finds nothing for the second user, so the pipeline
    runs; its insert then violates [github_url TEXT NOT NULL UNIQUE] and the
    request fails with "Failed to save repository analysis" (500).  The table
    is left as it was: the second user has no record of the URL. *)
Theorem C1_second_user_gets_no_record
    (w : world) (st : state) (userA userB githubUrl : string) (now : Z)
    (rA : Repository)
    (Hwf : wfState st)
    (HA : selectExisting userA githubUrl (repositories st) = Some rA)
    (Hdistinct : userA <> userB) :
  exists e st' tr,
    analyzeRepository w userB githubUrl now st = (Throw e, st', tr)
    /\ repositories st' = repositories st
    /\ selectExisting userB githubUrl (repositories st') = None
    /\ (forall metadata fileTree tr0,
          cloneRepoStructure w githubUrl = (Ok (metadata, fileTree), tr0) ->
          e = AppError 500 "Failed to save repository analysis"
          /\ tr = (tr0 ++ [ScanCall; GenerateCall])%list).
Proof.
  pose proof (selectExisting_Some _ _ _ _ HA) as (Hin & Hu & Hurl).
  assert (HB : selectExisting userB githubUrl (repositories st) = None).
  { apply (selectExisting_other _ _ _ rA); auto; [apply Hwf | congruence]. }
  assert (Htaken : urlTaken githubUrl (repositories st) = true).
  { apply urlTaken_spec. rewrite <- Hurl. by apply in_map. }
  unfold analyzeRepository.
  destruct (Cache.get (cacheKey githubUrl) now (cache st)) as [cached c1] eqn:Hget.
  set (st1 := {| repositories := repositories st; next_id := next_id st; cache := c1 |}).
  assert (Hun : exists e st' tr,
    analyzeUncached w userB githubUrl now st1 = (Throw e, st', tr)
    /\ repositories st' = repositories st
    /\ selectExisting userB githubUrl (repositories st') = None
    /\ (forall metadata fileTree tr0,
          cloneRepoStructure w githubUrl = (Ok (metadata, fileTree), tr0) ->
          e = AppError 500 "Failed to save repository analysis"
          /\ tr = (tr0 ++ [ScanCall; GenerateCall])%list)).
  { unfold analyzeUncached. simpl. rewrite HB.
    destruct (cloneRepoStructure w githubUrl) as [[[metadata fileTree]|e] tr0].
    - destruct (LlmProps.analyzeRepository_total (JSON_parse w) (llmReplies w) metadata
                  (scanCodebase fileTree)) as [a ->].
      unfold insertRepository. simpl. rewrite Htaken.
      do 3 eexists. split; [reflexivity|]. simpl. split; [reflexivity|]. split; [exact HB|].
      intros ? ? ? [= <- <- <-]. by split.
    - do 3 eexists. split; [reflexivity|]. simpl. split; [reflexivity|]. split; [exact HB|].
      discriminate. }
  destruct cached as [hit|]; [|exact Hun].
  destruct (cached_is_row st githubUrl now hit c1 rA Hwf Hget Hin Hurl) as [-> _].
  apply String.eqb_neq in Hdistinct. rewrite Hu, Hdistinct. exact Hun.
Qed.

Lemma C1_witness :
  exists st' tr,
    analyzeRepository demoWorld "bob" repoUrl 2000 afterAlice
    = (Throw (AppError 500 "Failed to save repository analysis"), st', tr)
    /\ repositories st' = [aliceRecord].
Proof.
  destruct (C1_second_user_gets_no_record demoWorld afterAlice "alice" "bob" repoUrl 2000
              aliceRecord (proj1 wf_afterAlice) (proj2 wf_afterAlice)
              ltac:(discriminate))
    as (e & st' & tr & Hrun & Hrows & _ & Herr).
  destruct (Herr _ _ _ eq_refl) as [-> _].
  exists st', tr. split; [exact Hrun|]. rewrite Hrows. reflexivity.
Defined.

(** *** The second analysis of a (user, URL) *)

(** The state [st] with its cache replaced. *)
Definition withCache (c : gmap string (Repository * Z)) (st : state) : state :=
  {| repositories := repositories st; next_id := next_id st; cache := c |}.

(** C8: after a successful analysis of a (user, URL) the record is persisted,
    and a second analysis of the same (user, URL) returns that record without
    a call to the provider client, the scanner or the insight generator,
    whatever the cache holds then (any cache that holds rows of the table
    under their keys, the empty cache included); the decision rests on the
    lookup of (user, URL) in the table.  The table is unchanged, and when the
    cache had no valid entry for the URL the record is cached again with a
    24-hour expiry. *)
Theorem C8_second_analysis_short_circuits
    (w1 w2 : world) (st st1 : state) (userId githubUrl : string) (now1 now2 : Z)
    (r : Repository) (tr1 : list event)
    (Hwf : wfState st)
    (Hfirst : analyzeRepository w1 userId githubUrl now1 st = (Ok r, st1, tr1)) :
  selectExisting userId githubUrl (repositories st1) = Some r
  /\ (forall c, wfState (withCache c st1) ->
      exists st2,
        analyzeRepository w2 userId githubUrl now2 (withCache c st1) = (Ok r, st2, [])
        /\ repositories st2 = repositories st1
        /\ (fst (Cache.get (cacheKey githubUrl) now2 c) = None ->
            cache st2 !! cacheKey githubUrl = Some (r, now2 + 86400 * 1000)))
  /\ (exists st2,
        analyzeRepository w2 userId githubUrl now2 st1 = (Ok r, st2, [])
        /\ repositories st2 = repositories st1)
  /\ (exists st2,
        analyzeRepository w2 userId githubUrl now2 (withCache ∅ st1) = (Ok r, st2, [])
        /\ repositories st2 = repositories st1
        /\ cache st2 !! cacheKey githubUrl = Some (r, now2 + 86400 * 1000)).
Proof.
  destruct (analyze_success_persists _ _ _ _ _ _ _ _ Hwf Hfirst) as [Hwf1 Hsel].
  split; [exact Hsel|].
  assert (Hany : forall c, wfState (withCache c st1) ->
      exists st2,
        analyzeRepository w2 userId githubUrl now2 (withCache c st1) = (Ok r, st2, [])
        /\ repositories st2 = repositories st1
        /\ (fst (Cache.get (cacheKey githubUrl) now2 c) = None ->
            cache st2 !! cacheKey githubUrl = Some (r, now2 + 86400 * 1000))).
  { intros c Hc.
    destruct (analyze_persisted w2 userId githubUrl now2 (withCache c st1) r Hc Hsel)
      as (st2 & H1 & H2 & _ & _ & H5).
    exists st2. auto. }
  split; [exact Hany|]. split.
  - destruct (Hany (cache st1)) as (st2 & H1 & H2 & _).
    + by destruct st1.
    + exists st2. split; [|exact H2]. by destruct st1.
  - destruct (Hany ∅) as (st2 & H1 & H2 & H3).
    + split; [apply Hwf1 | apply Hwf1 | apply Hwf1 |].
      simpl. intros k r' e Hk. by rewrite lookup_empty in Hk.
    + exists st2. split; [exact H1|]. split; [exact H2|]. apply H3. reflexivity.
Qed.

Lemma C8_witness :
  exists st2,
    analyzeRepository demoWorld "alice" repoUrl 5000 (withCache ∅ afterAlice)
    = (Ok aliceRecord, st2, [])
    /\ repositories st2 = [aliceRecord]
    /\ cache st2 !! cacheKey repoUrl = Some (aliceRecord, 86405000).
Proof.
  destruct (C8_second_analysis_short_circuits demoWorld demoWorld initial afterAlice
              "alice" repoUrl 1000 5000 aliceRecord _ wfState_initial alice_first_analysis)
    as (_ & _ & _ & st2 & H1 & H2 & H3).
  exists st2. split; [exact H1|]. split; [rewrite H2; reflexivity | exact H3].
Defined.

End RepoProps.

(** ** The daily-log manager and the per-day aggregate *)

Module LogsProps.

Import Logs ListFacts.

(** *** The aggregate of a day *)



Lemma targets_spec logId userId log :
  targets logId userId log = true <-> id log = logId /\ user_id log = userId.
Proof. unfold targets. rewrite andb_true_iff, Nat.eqb_eq, String.eqb_eq. tauto. Qed.


Lemma updateActivityForDate_other userId date st u d :
  (u, d) <> (userId, date) ->
  activity_days (updateActivityForDate userId date st) !! (u, d) = activity_days st !! (u, d).
Proof. intros H. unfold updateActivityForDate. simpl. by rewrite lookup_insert_ne. Qed.

Lemma updateActivityForDate_rows userId date st :
  daily_logs (updateActivityForDate userId date st) = daily_logs st
  /\ next_id (updateActivityForDate userId date st) = next_id st.
Proof. by split. Qed.






Lemma applyUpdates_key updates log :
  id (applyUpdates updates log) = id log
  /\ user_id (applyUpdates updates log) = user_id log
  /\ log_date (applyUpdates updates log) = log_date log
  /\ repo_id (applyUpdates updates log) = repo_id log.
Proof. by repeat split. Qed.








Definition entry (repo : option string) (date hours : Z) : CreateData :=
  {| repoId := repo; logDate := date; new_content := "worked"; hoursWorked := Some hours;
     new_mood := None |}.

(** Two entries on 2024-01-10 (day 19732) and one on 2024-01-11. *)
Definition created : list mutation :=
  [ Create "alice" (entry (Some "repo-1") 19732 150);
    Create "alice" (entry (Some "repo-2") 19732 225);
    Create "alice" (entry None 19733 800) ].



(** *** The uniqueness of (user, repository, date) *)

(** The row is an entry of the user on the date, without repository. *)
Definition withoutRepository (userId : string) (date : Z) (log : DailyLog) : bool :=
  onDate userId date log && match repo_id log with None => true | Some _ => false end.

(** C3, evaluated on the code: a second entry for the same (user, no
    repository, date) is accepted.  Whatever the store holds, creating an
    entry without repository succeeds, and creating it once more succeeds
    too: no conflict (409) is raised and the store holds both rows.  The
    constraint [UNIQUE(user_id, repo_id, log_date)] does not compare rows
    whose [repo_id] is NULL. *)
Theorem C3_second_log_without_repository_is_accepted
    (userId content : string) (date : Z) (hours : option Z) (mood : option string)
    (st : store) :
  let data := {| repoId := None; logDate := date; new_content := content;
                 hoursWorked := hours; new_mood := mood |} in
  let first := createLog userId data st in
  let second := createLog userId data (snd first) in
  isOk (fst first) = true
  /\ isOk (fst second) = true
  /\ fst second <> Throw (AppError 409 "Log entry already exists for this date and repository")
  /\ length (daily_logs (snd second)) = S (S (length (daily_logs st)))
  /\ (2 <= length (List.filter (withoutRepository userId date)
                               (daily_logs (snd second))))%nat.
Proof.
  intros data first second.
  assert (Hfree : forall rows n,
             uniqueViolation
               {| id := n; user_id := userId; repo_id := strOrNull (repoId data);
                  log_date := logDate data; content := new_content data;
                  hours_worked := default 0 (hoursWorked data);
                  mood := strOrNull (new_mood data) |} rows = false).
  { intros rows n. unfold uniqueViolation. induction rows as [|x rows IH]; [reflexivity|].
    cbn [existsb]. rewrite IH. unfold conflicts. cbn. by rewrite andb_false_r. }
  subst first second. unfold createLog. rewrite !Hfree. cbn [fst snd isOk]. rewrite ?Hfree.
  cbn [fst snd isOk updateActivityForDate daily_logs].
  split; [reflexivity|]. split; [reflexivity|]. split; [discriminate|].
  split; [rewrite !length_app; simpl; lia|].
  rewrite !List.filter_app. simpl. unfold withoutRepository, onDate. simpl.
  rewrite String.eqb_refl, Z.eqb_refl. simpl. rewrite !length_app. simpl. lia.
Qed.

(** With a repository the constraint works: the second entry for the same
    (user, repository, date) is refused with 409 and the store is unchanged. *)
Lemma createLog_duplicate_with_repository userId data st old repo :
  In old (daily_logs st) -> user_id old = userId -> log_date old = logDate data ->
  strOrNull (repoId data) = Some repo -> repo_id old = Some repo ->
  createLog userId data st
  = (Throw (AppError 409 "Log entry already exists for this date and repository"), st).
Proof.
  intros Hin Hu Hd Hr Ho. unfold createLog.
  assert (Hv : uniqueViolation
             {| id := next_id st; user_id := userId; repo_id := strOrNull (repoId data);
                log_date := logDate data; content := new_content data;
                hours_worked := default 0 (hoursWorked data);
                mood := strOrNull (new_mood data) |} (daily_logs st) = true).
  { unfold uniqueViolation. apply existsb_exists. exists old. split; [exact Hin|].
    unfold conflicts. simpl. rewrite Hu, Hd, Hr, Ho, !String.eqb_refl, Z.eqb_refl.
    reflexivity. }
  by rewrite Hv.
Qed.

(** An entry for another repository on the same date is accepted. *)
Lemma createLog_other_repository userId data st repo :
  strOrNull (repoId data) = Some repo ->
  (forall old, In old (daily_logs st) -> user_id old = userId ->
               log_date old = logDate data -> repo_id old <> Some repo) ->
  exists log, fst (createLog userId data st) = Ok log
              /\ daily_logs (snd (createLog userId data st)) = (daily_logs st ++ [log])%list.
Proof.
  intros Hr Hfree. unfold createLog.
  assert (Hv : uniqueViolation
             {| id := next_id st; user_id := userId; repo_id := strOrNull (repoId data);
                log_date := logDate data; content := new_content data;
                hours_worked := default 0 (hoursWorked data);
                mood := strOrNull (new_mood data) |} (daily_logs st) = false).
  { apply not_true_is_false. intros (old & Hin & Hc)%existsb_exists.
    unfold conflicts in Hc. simpl in Hc. rewrite Hr in Hc.
    apply andb_prop in Hc as [[Hu Hd]%andb_prop Hrepo].
    apply String.eqb_eq in Hu. apply Z.eqb_eq in Hd.
    destruct (repo_id old) as [b|] eqn:E; [|discriminate].
    apply String.eqb_eq in Hrepo. subst b.
    by apply (Hfree old Hin). }
  rewrite Hv. eexists. by split.
Qed.

End LogsProps.

(** ** The activity aggregator: date ranges and streaks *)

Module ActivityProps.

Import Helpers HelpersProps Logs Activity.

(** *** Productivity metrics of a week *)

Lemma inRange_spec (startDate endDate d : Z) :
  inRange startDate endDate d = true <-> startDate <= d <= endDate.
Proof. unfold inRange. rewrite andb_true_iff, !Z.leb_le. tauto. Qed.

Lemma activitiesIn_spec (userId : string) (startDate endDate : Z)
    (days : gmap (string * Z) ActivityDay) (d : Z) (a : ActivityDay) :
  In (d, a) (activitiesIn userId startDate endDate days)
  <-> days !! (userId, d) = Some a /\ startDate <= d <= endDate.
Proof.
  unfold activitiesIn. rewrite <- list_elem_of_In, list_elem_of_omap. split.
  - intros ([[u d'] a'] & Hin & Hf). apply elem_of_map_to_list in Hin.
    destruct (String.eqb u userId) eqn:Eu; [|discriminate]. simpl in Hf.
    destruct (inRange startDate endDate d') eqn:Er; [|discriminate].
    injection Hf as -> ->. apply String.eqb_eq in Eu as ->.
    apply inRange_spec in Er. by split.
  - intros [Hl Hr]. exists ((userId, d), a). split; [by apply elem_of_map_to_list|].
    rewrite String.eqb_refl. apply inRange_spec in Hr. by rewrite Hr.
Qed.

(** The calendar dates from [startDate] to [endDate], both included. *)
Definition datesCovered (startDate endDate : Z) : list Z :=
  map (fun k => startDate + Z.of_nat k) (seq 0 (Z.to_nat (endDate - startDate + 1))).

(** A store with one entry, dated 2024-01-03 (day 19725), seven days before
    2024-01-10 (day 19732). *)
Definition aWeekAgo : store :=
  run [Create "alice" {| repoId := None; logDate := 19725; new_content := "old work";
                         hoursWorked := Some 200; new_mood := None |}] initial.

(** C4, evaluated on the code: the range of period "week" starts seven days
    before today and ends today, both ends included, so the metrics sum the
    aggregates of eight calendar dates, [today - 7] among them, not of the
    seven dates from [today - 6]. *)
Theorem C4_week_range_covers_eight_dates (tz now : Z) :
  let today := localDay tz now in
  getDateRange tz Week now = (today - 7, today)
  /\ length (datesCovered (fst (getDateRange tz Week now)) (snd (getDateRange tz Week now)))
     = 8%nat
  /\ (forall (userId : string) (days : gmap (string * Z) ActivityDay) (d : Z)
             (a : ActivityDay),
        In (d, a) (activitiesIn userId (fst (getDateRange tz Week now))
                     (snd (getDateRange tz Week now)) days)
        <-> days !! (userId, d) = Some a /\ today - 7 <= d <= today)
  /\ (let m := getProductivityMetrics 0 "alice" Week (19732 * msPerDay + 3600000) aWeekAgo in
      startDate m = 19725 /\ endDate m = 19732 /\ totalLogs m = 1%nat /\ totalHours m = 200).
Proof.
  intros today. rewrite getDateRange_week. fold today. cbn [fst snd].
  split; [reflexivity|]. split.
  - unfold datesCovered. rewrite length_map, length_seq.
    replace (today - (today - 7) + 1) with 8 by lia. reflexivity.
  - split; [intros; apply activitiesIn_spec|].
    vm_compute. repeat split; reflexivity.
Qed.

(** *** Streaks *)

(** The run of consecutive days counted down from [expected] at the head of
    a list of dates. *)
Fixpoint runFrom (expected : Z) (activities : list Z) : nat :=
  match activities with
  | [] => 0%nat
  | date :: rest =>
      if date =? expected then S (runFrom (expected - 1) rest) else 0%nat
  end.

Section Clock.

Variable tz : Z.

Lemma localDay_parseDate date : localDay tz (parseDate date) = date + tz / msPerDay.
Proof.
  unfold localDay, parseDate, msPerDay.
  replace (date * 86400000 + tz) with (tz + date * 86400000) by lia.
  rewrite Z.div_add by lia. lia.
Qed.

(** The first loop compares local days: the day of the activity, moved by the
    whole days of the zone offset, against today minus the index. *)
Lemma currentLoop_runFrom now activities : forall i,
  currentLoop tz (setHours0 tz now) i activities
  = runFrom (localDay tz now - Z.of_nat i - tz / msPerDay) activities.
Proof.
  assert (Hday : localDay tz (setHours0 tz now) = localDay tz now).
  { rewrite setHours0_localDay.
    replace (localDay tz now * msPerDay - tz) with (localDay tz now * msPerDay + 0 - tz) by lia.
    apply localDay_of_local. unfold msPerDay. lia. }
  assert (Htime : timeInDay tz (setHours0 tz now) = 0).
  { rewrite setHours0_localDay. unfold timeInDay.
    replace (localDay tz now * msPerDay - tz + tz) with (0 + localDay tz now * msPerDay) by lia.
    rewrite Z.mod_add by (unfold msPerDay; lia). reflexivity. }
  revert Hday Htime. generalize (setHours0 tz now) as today. intros today Hday Htime.
  induction activities as [|date rest IH]; intros i; [reflexivity|].
  cbn [currentLoop runFrom].
  rewrite (setHours0_localDay tz (parseDate date)), localDay_parseDate.
  replace (getDate tz today - Z.of_nat i) with (getDate tz today + - Z.of_nat i) by lia.
  rewrite setDate_shift, Hday, Htime.
  destruct (Z.eqb_spec ((date + tz / msPerDay) * msPerDay - tz)
              ((localDay tz now + - Z.of_nat i) * msPerDay + 0 - tz)) as [E|E];
    destruct (Z.eqb_spec date (localDay tz now - Z.of_nat i - tz / msPerDay)) as [E'|E'];
    unfold msPerDay in *; try lia.
  rewrite IH. do 2 f_equal. lia.
Qed.

Lemma currentStreak_runFrom now activities :
  currentStreak (streakOf tz now activities)
  = runFrom (localDay tz now - tz / msPerDay) activities.
Proof.
  unfold streakOf. destruct activities as [|first rest]; [reflexivity|].
  destruct (longestLoop (first :: rest) 0 1) as [longest temp]. cbn [currentStreak].
  rewrite currentLoop_runFrom. f_equal. lia.
Qed.

End Clock.

(** The second loop on two runs of three consecutive days with a gap between
    them. *)
Lemma longest_two_runs (tz now a b : Z) :
  b < a - 3 ->
  longestStreak (streakOf tz now [a; a - 1; a - 2; b; b - 1; b - 2]) = 3%nat.
Proof.
  intros Hgap. unfold streakOf, longestLoop, parseDate, msPerDay.
  replace ((a * 86400000 - (a - 1) * 86400000) / (1000 * 60 * 60 * 24)) with 1
    by (apply Z.div_unique with 0; lia).
  replace (((a - 1) * 86400000 - (a - 2) * 86400000) / (1000 * 60 * 60 * 24)) with 1
    by (apply Z.div_unique with 0; lia).
  replace ((b * 86400000 - (b - 1) * 86400000) / (1000 * 60 * 60 * 24)) with 1
    by (apply Z.div_unique with 0; lia).
  replace (((b - 1) * 86400000 - (b - 2) * 86400000) / (1000 * 60 * 60 * 24)) with 1
    by (apply Z.div_unique with 0; lia).
  replace (((a - 2) * 86400000 - b * 86400000) / (1000 * 60 * 60 * 24)) with (a - 2 - b)
    by (apply Z.div_unique with 0; lia).
  destruct (Z.eqb_spec (a - 2 - b) 1); [lia|]. reflexivity.
Qed.

(** *** The rows that the streak query returns *)

(** The user has an active aggregate on the date. *)
Definition activeOn (st : store) (userId : string) (d : Z) : Prop :=
  exists a, activity_days st !! (userId, d) = Some a /\ is_active a = true.

Definition pick (userId : string) (row : string * Z * ActivityDay) : option Z :=
  let '((u, date), day) := row in
  if String.eqb u userId && is_active day then Some date else None.

Lemma activeDates_unfold (userId : string) (days : gmap (string * Z) ActivityDay) :
  activeDates userId days = merge_sort Z.ge (omap (pick userId) (map_to_list days)).
Proof. reflexivity. Qed.

Lemma pick_Some (userId : string) (days : gmap (string * Z) ActivityDay)
    (row : string * Z * ActivityDay) (d : Z) :
  row ∈ map_to_list days -> pick userId row = Some d ->
  exists a, row = ((userId, d), a) /\ days !! (userId, d) = Some a /\ is_active a = true.
Proof.
  destruct row as [[u d'] a]. intros Hin Hp. apply elem_of_map_to_list in Hin.
  unfold pick in Hp. destruct (String.eqb u userId) eqn:Eu; [|discriminate].
  destruct (is_active a) eqn:Ea; [|discriminate]. injection Hp as ->.
  apply String.eqb_eq in Eu as ->. by exists a.
Qed.

Lemma activeDates_elem (st : store) (userId : string) (d : Z) :
  d ∈ activeDates userId (activity_days st) <-> activeOn st userId d.
Proof.
  rewrite activeDates_unfold, merge_sort_Permutation, list_elem_of_omap. split.
  - intros (row & Hin & Hp). destruct (pick_Some _ _ _ _ Hin Hp) as (a & _ & H1 & H2).
    by exists a.
  - intros (a & H1 & H2). exists ((userId, d), a). split; [by apply elem_of_map_to_list|].
    unfold pick. by rewrite String.eqb_refl, H2.
Qed.

Lemma NoDup_omap_inj {A B} (f : A -> option B) (l : list A) :
  NoDup l ->
  (forall x y b, x ∈ l -> y ∈ l -> f x = Some b -> f y = Some b -> x = y) ->
  NoDup (omap f l).
Proof.
  induction 1 as [|x l Hx Hl IH]; intros Hinj; [constructor|].
  simpl. assert (Hrest : NoDup (omap f l)).
  { apply IH. intros y z b Hy Hz. apply Hinj; by right. }
  destruct (f x) as [b|] eqn:E; [|exact Hrest].
  constructor; [|exact Hrest].
  intros (y & Hy & Hfy)%list_elem_of_omap. apply Hx.
  replace x with y; [exact Hy|]. apply (Hinj y x b); [by right | by left | done | done].
Qed.

Lemma activeDates_NoDup (st : store) (userId : string) :
  NoDup (activeDates userId (activity_days st)).
Proof.
  rewrite activeDates_unfold, merge_sort_Permutation.
  apply NoDup_omap_inj; [apply NoDup_map_to_list|].
  intros x y d Hx Hy Hfx Hfy.
  destruct (pick_Some _ _ _ _ Hx Hfx) as (a & -> & Ha & _).
  destruct (pick_Some _ _ _ _ Hy Hfy) as (a' & -> & Ha' & _).
  congruence.
Qed.

Local Instance ge_transitive : Transitive Z.ge.
Proof. intros x y z. lia. Qed.

Local Instance ge_total : Total Z.ge.
Proof. intros x y. lia. Qed.

Local Instance ge_antisymm : AntiSymm (=) Z.ge.
Proof. intros x y. lia. Qed.

Lemma activeDates_sorted (st : store) (userId : string) :
  StronglySorted Z.ge (activeDates userId (activity_days st)).
Proof. rewrite activeDates_unfold. apply StronglySorted_merge_sort; apply _. Qed.

(** On dates in descending order without repetition, none after [D], the
    run counted down from [D] is the number of consecutive dates present. *)
Lemma runFrom_count (n : nat) : forall (l : list Z) (D : Z),
  StronglySorted Z.ge l -> NoDup l -> (forall x, x ∈ l -> x <= D) ->
  (forall k, 0 <= k < Z.of_nat n -> D - k ∈ l) -> D - Z.of_nat n ∉ l ->
  runFrom D l = n.
Proof.
  induction n as [|n IH]; intros l D Hs Hnd Hmax Hin Hout.
  - destruct l as [|x rest]; [reflexivity|]. simpl.
    destruct (Z.eqb_spec x D) as [->|_]; [|reflexivity].
    exfalso. apply Hout. replace (D - Z.of_nat 0) with D by lia. by left.
  - destruct l as [|x rest].
    { exfalso. specialize (Hin 0 ltac:(lia)). by apply elem_of_nil in Hin. }
    apply StronglySorted_inv in Hs as [Hs Hall]. rewrite Forall_forall in Hall.
    apply NoDup_cons in Hnd as [Hx Hnd].
    assert (x = D) as ->.
    { specialize (Hin 0 ltac:(lia)). replace (D - 0) with D in Hin by lia.
      apply elem_of_cons in Hin as [->|Hin]; [reflexivity|].
      specialize (Hall D Hin). specialize (Hmax x ltac:(by left)). lia. }
    simpl. rewrite Z.eqb_refl. f_equal. apply IH; [exact Hs | exact Hnd | | |].
    + intros y Hy. specialize (Hall y Hy).
      assert (y <> D) by (intros ->; by apply Hx). lia.
    + intros k Hk. specialize (Hin (k + 1) ltac:(lia)).
      replace (D - 1 - k) with (D - (k + 1)) by lia.
      apply elem_of_cons in Hin as [Heq|Hin]; [lia | exact Hin].
    + intros Hc. apply Hout. replace (D - Z.of_nat (S n)) with (D - 1 - Z.of_nat n) by lia.
      by right.
Qed.

(** An empty answer of the query. *)
Lemma streak_without_active_days (tz now : Z) (userId : string) (st : store) :
  (forall d, ~ activeOn st userId d) ->
  calculateStreak tz userId now st
  = {| currentStreak := 0; longestStreak := 0; lastActiveDate := None |}.
Proof.
  intros Hnone. unfold calculateStreak.
  destruct (activeDates userId (activity_days st)) as [|d rest] eqn:E; [reflexivity|].
  exfalso. apply (Hnone d). apply activeDates_elem. rewrite E. by left.
Qed.

(** When the host is at or east of UTC (less than a day), the current streak
    is the number of consecutive active days that end today. *)
Lemma current_streak_counts_days (tz now : Z) (userId : string) (st : store) (n : nat) :
  0 <= tz < msPerDay ->
  let today := localDay tz now in
  (forall d, activeOn st userId d -> d <= today) ->
  (forall k, 0 <= k < Z.of_nat n -> activeOn st userId (today - k)) ->
  ~ activeOn st userId (today - Z.of_nat n) ->
  currentStreak (calculateStreak tz userId now st) = n.
Proof.
  intros Htz today Hmax Hin Hout. unfold calculateStreak.
  rewrite currentStreak_runFrom. rewrite (Z.div_small tz msPerDay) by exact Htz.
  replace (localDay tz now - 0) with today by (unfold today; lia).
  apply runFrom_count.
  - apply activeDates_sorted.
  - apply activeDates_NoDup.
  - intros x Hx. by apply Hmax, activeDates_elem.
  - intros k Hk. by apply activeDates_elem, Hin.
  - intros Hc. by apply Hout, activeDates_elem.
Qed.

(** Active today, yesterday and the day before, not on the day before
    those. *)
Lemma current_streak_three_days (tz now : Z) (userId : string) (st : store) :
  0 <= tz < msPerDay ->
  let today := localDay tz now in
  (forall d, activeOn st userId d -> d <= today) ->
  activeOn st userId today -> activeOn st userId (today - 1) ->
  activeOn st userId (today - 2) -> ~ activeOn st userId (today - 3) ->
  currentStreak (calculateStreak tz userId now st) = 3%nat.
Proof.
  intros Htz today Hmax H0 H1 H2 H3.
  apply (current_streak_counts_days tz now userId st 3 Htz Hmax); [|exact H3].
  intros k Hk.
  assert (Hcases : k = 0 \/ k = 1 \/ k = 2) by lia.
  destruct Hcases as [Hk0|[Hk1|Hk2]]; subst k; try assumption.
  rewrite Z.sub_0_r. exact H0.
Qed.

(** No activity today: the current streak is 0. *)
Lemma current_streak_zero_without_activity_today (tz now : Z) (userId : string) (st : store) :
  0 <= tz < msPerDay ->
  (forall d, activeOn st userId d -> d <= localDay tz now) ->
  ~ activeOn st userId (localDay tz now) ->
  currentStreak (calculateStreak tz userId now st) = 0%nat.
Proof.
  intros Htz Hmax H0.
  apply (current_streak_counts_days tz now userId st 0 Htz Hmax); [intros k Hk; lia|].
  change (Z.of_nat 0) with 0. by rewrite Z.sub_0_r.
Qed.

(** Two runs of three consecutive days with a gap between them, and no other
    active day. *)
Lemma longest_streak_two_runs (tz now a b : Z) (userId : string) (st : store) :
  b < a - 3 ->
  (forall d, activeOn st userId d <-> In d [a; a - 1; a - 2; b; b - 1; b - 2]) ->
  longestStreak (calculateStreak tz userId now st) = 3%nat.
Proof.
  intros Hgap Hset. unfold calculateStreak.
  replace (activeDates userId (activity_days st)) with [a; a - 1; a - 2; b; b - 1; b - 2];
    [by apply longest_two_runs|].
  symmetry. apply (Sorted_unique Z.ge).
  - apply Sorted_merge_sort, _.
  - repeat (constructor; [|constructor; lia]). constructor.
  - apply NoDup_Permutation.
    + apply activeDates_NoDup.
    + repeat (apply NoDup_cons; split; [rewrite ?elem_of_cons, elem_of_nil; lia|]).
      constructor.
    + intros d. rewrite activeDates_elem, Hset. symmetry. apply list_elem_of_In.
Qed.

(** Entries of alice on 2024-01-08, 2024-01-09 and 2024-01-10 (days 19730 to
    19732), and one on 2024-01-06 (day 19728). *)
Definition threeDays : store :=
  run [ Create "alice" (LogsProps.entry None 19728 100);
        Create "alice" (LogsProps.entry None 19730 100);
        Create "alice" (LogsProps.entry (Some "repo-1") 19731 250);
        Create "alice" (LogsProps.entry None 19732 75) ] initial.

Lemma threeDays_active (d : Z) :
  activeOn threeDays "alice" d <-> d = 19732 \/ d = 19731 \/ d = 19730 \/ d = 19728.
Proof.
  rewrite <- activeDates_elem.
  replace (activeDates "alice" (activity_days threeDays)) with [19732; 19731; 19730; 19728]
    by (vm_compute; reflexivity).
  rewrite !elem_of_cons, elem_of_nil. tauto.
Qed.

(** On a host in UTC, at one o'clock of 2024-01-10: three consecutive active
    days end today. *)
Example current_streak_three_in_utc :
  calculateStreak 0 "alice" (19732 * msPerDay + 3600000) threeDays
  = {| currentStreak := 3; longestStreak := 3; lastActiveDate := Some 19732 |}.
Proof. vm_compute. reflexivity. Qed.

(** The same host one day later, with no activity on 2024-01-11. *)
Example current_streak_zero_without_today :
  calculateStreak 0 "alice" (19733 * msPerDay + 3600000) threeDays
  = {| currentStreak := 0; longestStreak := 3; lastActiveDate := Some 19732 |}.
Proof. vm_compute. reflexivity. Qed.

(** Noon of 2024-01-10 in a zone five hours west of UTC (17:00 UTC). *)
Definition westOffset : Z := -18000000.
Definition westNoon : Z := 19732 * msPerDay + 43200000 + 18000000.

(** C7, evaluated on the code: when the host's zone is west of UTC, the
    current streak is 0 for every user without an active day after today,
    also for one active today, yesterday and the day before.  The date of an
    aggregate is read as midnight UTC and then moved to the local midnight
    before it, the day before its own; the loop therefore looks for tomorrow
    at the head of the list and stops at once. *)
Theorem C7_current_streak_zero_west_of_utc
    (tz now : Z) (userId : string) (st : store)
    (Hwest : - msPerDay <= tz < 0)
    (Hmax : forall d, activeOn st userId d -> d <= localDay tz now) :
  currentStreak (calculateStreak tz userId now st) = 0%nat.
Proof.
  unfold calculateStreak. rewrite currentStreak_runFrom.
  assert (Hq : tz / msPerDay = -1).
  { symmetry. apply Z.div_unique with (tz + msPerDay); unfold msPerDay in *; lia. }
  rewrite Hq.
  destruct (activeDates userId (activity_days st)) as [|d rest] eqn:E; [reflexivity|].
  simpl. destruct (Z.eqb_spec d (localDay tz now - -1)) as [Hd|_]; [|reflexivity].
  assert (Hin : activeOn st userId d) by (apply activeDates_elem; rewrite E; by left).
  specialize (Hmax d Hin). lia.
Qed.

Lemma C7_witness :
  localDay westOffset westNoon = 19732
  /\ activeOn threeDays "alice" 19732 /\ activeOn threeDays "alice" 19731
  /\ activeOn threeDays "alice" 19730 /\ ~ activeOn threeDays "alice" 19729
  /\ currentStreak (calculateStreak westOffset "alice" westNoon threeDays) = 0%nat.
Proof.
  split; [reflexivity|].
  repeat (split; [apply threeDays_active; lia|]).
  split; [rewrite threeDays_active; lia|].
  apply C7_current_streak_zero_west_of_utc.
  - unfold westOffset, msPerDay. lia.
  - intros d Hd. apply threeDays_active in Hd.
    replace (localDay westOffset westNoon) with 19732 by reflexivity. lia.
Defined.

End ActivityProps.

(** * Further properties of the code *)

(** ** The scanner's lists and counts *)

Module ScannerMore.

Import Scanner.

(** The file has an extension that the language table knows. *)
Definition recognised (file : FileTreeNode) : bool :=
  match extension file with
  | Some ext => Js.truthy ext && bool_decide (is_Some (assoc ext languageMap))
  | None => false
  end.

(** The file's base name is one of the dependency manifests. *)
Definition isManifest (file : FileTreeNode) : bool :=
  inList (Js.baseName (path file)) dependencyFiles.

Definition total (languages : list (string * nat)) : nat :=
  fold_right (fun p acc => (snd p + acc)%nat) 0%nat languages.

Lemma bump_keys k m :
  List.NoDup (map fst m) -> List.NoDup (map fst (bump k m))
  /\ (forall x, In x (map fst (bump k m)) <-> x = k \/ In x (map fst m)).
Proof.
  induction m as [|[k' n] m IH]; intros Hnd.
  - simpl. split; [constructor; [intros []|constructor] | intros x; intuition congruence].
  - simpl in Hnd. apply List.NoDup_cons_iff in Hnd as [Hk Hnd].
    destruct (IH Hnd) as [IH1 IH2]. simpl.
    destruct (String.eqb_spec k k') as [->|Hne]; simpl.
    + split; [constructor; assumption | intros x; intuition congruence].
    + split.
      * constructor; [|exact IH1]. rewrite IH2. intros [Heq|Hin]; [congruence | by apply Hk].
      * intros x. rewrite IH2. intuition congruence.
Qed.

Lemma bump_total k m : total (bump k m) = S (total m).
Proof.
  induction m as [|[k' n] m IH]; [reflexivity|]. simpl.
  destruct (String.eqb k k'); simpl; [lia | rewrite IH; lia].
Qed.

Lemma bump_positive k m :
  Forall (fun p => (1 <= snd p)%nat) m -> Forall (fun p => (1 <= snd p)%nat) (bump k m).
Proof.
  induction m as [|[k' n] m IH]; intros H; simpl.
  - repeat constructor.
  - apply Forall_cons in H as [H1 H2].
    destruct (String.eqb k k'); constructor; simpl in *; auto; lia.
Qed.

Lemma assoc_value k v : assoc k languageMap = Some v -> In v (map snd languageMap).
Proof.
  generalize languageMap. intros l. induction l as [|[k' v'] l IH]; [discriminate|].
  simpl. destruct (String.eqb k k'); [intros [= ->]; by left | intros H; right; by apply IH].
Qed.

(** The state of the loop of [detectLanguages] after any number of files. *)
Lemma detect_fold files : forall acc,
  List.NoDup (map fst acc) ->
  Forall (fun p => (1 <= snd p)%nat) acc ->
  (forall k, In k (map fst acc) -> In k (map snd languageMap)) ->
  let out := fold_left detectStep files acc in
  List.NoDup (map fst out)
  /\ Forall (fun p => (1 <= snd p)%nat) out
  /\ (forall k, In k (map fst out) -> In k (map snd languageMap))
  /\ total out = (total acc + length (List.filter recognised files))%nat.
Proof.
  induction files as [|file files IH]; intros acc Hnd Hpos Hkeys; simpl.
  - repeat split; auto.
  - assert (Hstep : List.NoDup (map fst (detectStep acc file))
            /\ Forall (fun p => (1 <= snd p)%nat) (detectStep acc file)
            /\ (forall k, In k (map fst (detectStep acc file)) -> In k (map snd languageMap))
            /\ total (detectStep acc file)
               = (total acc + if recognised file then 1 else 0)%nat).
    { unfold detectStep, recognised.
      destruct (extension file) as [ext|]; [|repeat split; auto; lia].
      destruct (Js.truthy ext); [|repeat split; auto; simpl; lia].
      destruct (assoc ext languageMap) as [language|] eqn:E; simpl.
      - destruct (bump_keys language acc Hnd) as [B1 B2].
        split; [exact B1|]. split; [by apply bump_positive|].
        split; [|rewrite bump_total; lia].
        intros k Hk. apply B2 in Hk as [->|Hk]; [by apply (assoc_value ext) | by apply Hkeys].
      - repeat split; auto; lia. }
    destruct Hstep as (S1 & S2 & S3 & S4).
    destruct (IH _ S1 S2 S3) as (I1 & I2 & I3 & I4).
    repeat split; auto. rewrite I4, S4.
    destruct (recognised file); simpl; lia.
Qed.

Lemma detectLanguages_facts (files : list FileTreeNode) :
  List.NoDup (map fst (detectLanguages files))
  /\ Forall (fun p => (1 <= snd p)%nat) (detectLanguages files)
  /\ (forall k, In k (map fst (detectLanguages files)) -> In k (map snd languageMap))
  /\ total (detectLanguages files) = length (List.filter recognised files).
Proof.
  destruct (detect_fold files [] ltac:(constructor) ltac:(constructor) ltac:(intros k []))
    as (H1 & H2 & H3 & H4).
  fold (detectLanguages files) in *. simpl in H4. repeat split; auto.
Qed.

Lemma detectLanguages_length (files : list FileTreeNode) :
  (length (detectLanguages files) <= length files)%nat.
Proof.
  destruct (detectLanguages_facts files) as (_ & H2 & _ & H4).
  assert (Hlen : (length (detectLanguages files) <= total (detectLanguages files))%nat).
  { clear -H2. induction H2 as [|[k n] l Hp _ IH]; simpl in *; lia. }
  pose proof (List.filter_length_le recognised files). lia.
Qed.

Lemma extractDependencies_filter (files : list FileTreeNode) :
  extractDependencies files = map (fun f => Js.baseName (path f)) (List.filter isManifest files).
Proof.
  unfold extractDependencies, isManifest.
  induction files as [|f files IH]; [reflexivity|].
  cbn [flat_map List.filter]. cbv zeta.
  destruct (inList (Js.baseName (path f)) dependencyFiles); cbn [map app];
    [f_equal|]; exact IH.
Qed.






Lemma setAdd_spec x s :
  List.NoDup s -> List.NoDup (setAdd x s) /\ (forall y, In y (setAdd x s) <-> y = x \/ In y s).
Proof.
  intros Hnd. unfold setAdd. destruct (inList x s) eqn:E.
  - split; [exact Hnd|]. intros y. split; [tauto|]. intros [->|H]; [|exact H].
    unfold inList in E. apply existsb_exists in E as (z & Hz & Heq).
    apply String.eqb_eq in Heq. by subst.
  - split.
    + apply List.NoDup_app; [exact Hnd | constructor; [intros []|constructor] |].
      intros y Hy [<-|[]].
      assert (inList x s = true); [|congruence].
      unfold inList. apply existsb_exists. exists x. split; [exact Hy | apply String.eqb_refl].
    + intros y. rewrite in_app_iff. simpl. intuition congruence.
Qed.

(** Folding additions into a set keeps it a set and loses no member. *)
Lemma fold_setAdd {A} (f : list string -> A -> list string) (l : list A) :
  (forall s a, List.NoDup s -> List.NoDup (f s a) /\ (forall y, In y s -> In y (f s a))) ->
  forall s, List.NoDup s ->
  List.NoDup (fold_left f l s) /\ (forall y, In y s -> In y (fold_left f l s)).
Proof.
  intros Hf. induction l as [|a l IH]; intros s Hs; simpl; [by split|].
  destruct (Hf s a Hs) as [H1 H2]. destruct (IH _ H1) as [I1 I2].
  split; auto.
Qed.

(** X2: the framework list has no repetition, and a file whose path is exactly
    "package.json" adds the eight generic names whatever the manifest
    holds. *)
Theorem detectFrameworks_set (files : list FileTreeNode) :
  List.NoDup (detectFrameworks files)
  /\ (existsb (fun f => String.eqb (path f) "package.json") files = true ->
      forall name, In name ["React"; "Vue"; "Angular"; "Svelte"; "Express"; "Fastify";
                            "Nestjs"; "Koa"] ->
      In name (detectFrameworks files)).
Proof.
  unfold detectFrameworks.
  set (scan := fold_left _ files []).
  assert (Hscan : List.NoDup scan).
  { unfold scan. apply fold_setAdd; [|constructor].
    intros s file Hs. apply fold_setAdd; [|exact Hs].
    intros s' pf Hs'. destruct (Js.includes (fst pf) (path file)); [|by split].
    destruct (setAdd_spec (snd pf) s' Hs') as [H1 H2]. split; [exact H1|].
    intros y Hy. apply H2. by right. }
  assert (Hadd : forall l s, List.NoDup s ->
            List.NoDup (fold_left (fun acc fw => setAdd (Js.capitalize fw) acc) l s)
            /\ (forall y, In y s \/ In y (map Js.capitalize l) ->
                          In y (fold_left (fun acc fw => setAdd (Js.capitalize fw) acc) l s))).
  { induction l as [|fw l IH]; intros s Hs; simpl; [split; [exact Hs | intros y [H|[]]; exact H]|].
    destruct (setAdd_spec (Js.capitalize fw) s Hs) as [H1 H2].
    destruct (IH _ H1) as [I1 I2]. split; [exact I1|].
    intros y Hy. apply I2. rewrite H2. intuition congruence. }
  destruct (existsb _ files).
  - destruct (Hadd frameworkIndicators scan Hscan) as [H1 H2].
    split; [exact H1|]. intros _ name Hname. apply H2. right. exact Hname.
  - split; [exact Hscan | discriminate].
Qed.

Lemma files_and_directories (tree : list FileTreeNode) :
  (length (List.filter isFile tree) + length (List.filter isDir tree))%nat = length tree.
Proof.
  induction tree as [|n tree IH]; [reflexivity|]. simpl.
  unfold isFile, isDir in *. destruct (type n); simpl; lia.
Qed.

(** X3: a scan counts every node once, as a file or as a directory, and hands
    the tree back; its dependency list has one entry per file whose base
    name is a manifest of the allow-list, in the order of the files and
    with repetitions kept (a manifest in two directories is listed twice). *)
Theorem scanCodebase_counts_and_manifests (tree : list FileTreeNode) :
  let scan := scanCodebase tree in
  (totalFiles scan + totalDirectories scan)%nat = length tree
  /\ fileTree scan = tree
  /\ dependencies scan
     = map (fun f => Js.baseName (path f)) (List.filter isManifest (List.filter isFile tree))
  /\ Forall (fun name => In name dependencyFiles) (dependencies scan)
  /\ (length (dependencies scan) <= totalFiles scan)%nat
  /\ (length (languages scan) <= totalFiles scan)%nat.
Proof.
  cbn [scanCodebase totalFiles totalDirectories fileTree dependencies languages].
  pose proof (extractDependencies_filter (List.filter isFile tree)) as H.
  split; [apply files_and_directories|]. split; [reflexivity|]. split; [exact H|].
  split; [|split].
  - rewrite H. apply Forall_forall. intros name Hin%list_elem_of_In.
    apply in_map_iff in Hin as (f & <- & Hf). apply filter_In in Hf as [_ Hf].
    unfold isManifest, inList in Hf. apply existsb_exists in Hf as (x & Hx & Heq).
    apply String.eqb_eq in Heq. by rewrite Heq.
  - rewrite H, length_map. apply List.filter_length_le.
  - apply detectLanguages_length.
Qed.

End ScannerMore.

(** ** Retry with backoff, for any operation and any bounds *)

Module RetryMore.

Import Helpers.

(** The trace of [k] failed calls from iteration [i], each followed by its
    pause, and one more call. *)
Definition retryTrace (call : event) (initialDelay : Z) (i k : nat) : list event :=
  (flat_map (fun n => [call; Sleep (initialDelay * 2 ^ Z.of_nat n)]) (seq i k) ++ [call])%list.

(** The time spent in pauses. *)
Definition slept (tr : list event) : Z :=
  fold_right (fun e acc => match e with Sleep ms => ms + acc | _ => acc end) 0 tr.

Definition isSleep (e : event) : bool :=
  match e with Sleep _ => true | _ => false end.

Section Loop.

Context {T : Type}.
Variable fn : nat -> result T.
Variable call : event.
Variable maxRetries : nat.
Variable initialDelay : Z.

Lemma retryLoop_success (k : nat) (v : T) : forall (i remaining : nat) (lastError : exn),
  (i + remaining = maxRetries)%nat -> (k < remaining)%nat ->
  (forall n, (i <= n < i + k)%nat -> isOk (fn n) = false) ->
  fn (i + k)%nat = Ok v ->
  retryLoop fn call maxRetries initialDelay i remaining lastError
  = (Ok v, retryTrace call initialDelay i k).
Proof.
  induction k as [|k IH]; intros i remaining lastError Hi Hk Hfail Hok.
  - destruct remaining as [|remaining]; [lia|]. cbn [retryLoop].
    rewrite Nat.add_0_r in Hok. rewrite Hok. reflexivity.
  - destruct remaining as [|remaining]; [lia|]. cbn [retryLoop].
    pose proof (Hfail i ltac:(lia)) as Hi0.
    destruct (fn i) as [v0|error]; [discriminate|].
    rewrite (IH (S i) remaining error); [| lia | lia | intros n Hn; apply Hfail; lia
                                          | rewrite <- Hok; f_equal; lia].
    destruct (Nat.ltb_spec i (maxRetries - 1)); [|lia].
    reflexivity.
Qed.

Lemma retryLoop_exhausted (errors : nat -> exn) (remaining : nat) :
  forall (i : nat) (lastError : exn),
  (i + S remaining = maxRetries)%nat ->
  (forall n, (i <= n < maxRetries)%nat -> fn n = Throw (errors n)) ->
  retryLoop fn call maxRetries initialDelay i (S remaining) lastError
  = (Throw (errors (maxRetries - 1)%nat), retryTrace call initialDelay i remaining).
Proof.
  induction remaining as [|remaining IH]; intros i lastError Hi Hfail.
  - cbn [retryLoop]. rewrite (Hfail i) by lia.
    destruct (Nat.ltb_spec i (maxRetries - 1)); [lia|].
    replace (maxRetries - 1)%nat with i by lia. reflexivity.
  - cbn [retryLoop]. rewrite (Hfail i) by lia.
    specialize (IH (S i) (errors i) ltac:(lia) ltac:(intros n Hn; apply Hfail; lia)).
    cbn [retryLoop] in IH. rewrite IH.
    destruct (Nat.ltb_spec i (maxRetries - 1)); [|lia].
    reflexivity.
Qed.

Lemma slept_retryTrace (k : nat) : forall i : nat,
  isSleep call = false ->
  slept (retryTrace call initialDelay i k) = initialDelay * 2 ^ Z.of_nat i * (2 ^ Z.of_nat k - 1).
Proof.
  induction k as [|k IH]; intros i Hcall.
  - unfold retryTrace. simpl. destruct call; try discriminate; simpl; lia.
  - unfold retryTrace in *. cbn [seq flat_map]. rewrite <- !app_assoc.
    cbn [app slept fold_right]. specialize (IH (S i) Hcall). unfold slept in IH.
    destruct call; try discriminate; rewrite IH;
      rewrite !Nat2Z.inj_succ, !Z.pow_succ_r by lia; lia.
Qed.

End Loop.

Lemma retryWithBackoffN_first_success {T : Type} (fn : nat -> result T) (call : event)
    (maxRetries : nat) (initialDelay : Z) (k : nat) (v : T) :
  (k < maxRetries)%nat ->
  (forall n, (n < k)%nat -> isOk (fn n) = false) ->
  fn k = Ok v ->
  retryWithBackoffN fn call maxRetries initialDelay
  = (Ok v, retryTrace call initialDelay 0 k).
Proof.
  intros Hk Hfail Hok. unfold retryWithBackoffN.
  apply retryLoop_success; [lia | exact Hk | intros n Hn; apply Hfail; lia | exact Hok].
Qed.

Lemma retryWithBackoffN_exhausted {T : Type} (fn : nat -> result T) (call : event)
    (maxRetries : nat) (initialDelay : Z) (errors : nat -> exn) :
  (forall n, (n < maxRetries)%nat -> fn n = Throw (errors n)) ->
  isSleep call = false ->
  retryWithBackoffN fn call maxRetries initialDelay
  = match maxRetries with
    | O => (Throw undefinedError, [])
    | S m => (Throw (errors m), retryTrace call initialDelay 0 m)
    end
  /\ slept (snd (retryWithBackoffN fn call maxRetries initialDelay))
     = initialDelay * (2 ^ Z.of_nat (maxRetries - 1) - 1).
Proof.
  intros Hfail Hcall. unfold retryWithBackoffN.
  destruct maxRetries as [|m].
  - split; [reflexivity|]. simpl. lia.
  - rewrite (retryLoop_exhausted fn call (S m) initialDelay errors m 0 undefinedError)
      by (try lia; intros n Hn; apply Hfail; lia).
    replace (S m - 1)%nat with m by lia. split; [reflexivity|].
    cbn [snd]. rewrite slept_retryTrace by exact Hcall. simpl (2 ^ Z.of_nat 0). lia.
Qed.

(** X4: the outcomes of [retryWithBackoff], for any operation and any bounds.
    When the first calls fail, whatever their failures, and the call of
    iteration [k] succeeds, its value is returned after exactly [k + 1]
    calls; the pause after the failure of iteration [n] is
    [initialDelay * 2 ^ n], and no call follows the success.  When every
    call fails, [maxRetries] calls are made, the failure of the last one is
    thrown, no pause follows the last call, and the pauses add up to
    [initialDelay * (2 ^ (maxRetries - 1) - 1)]; with no iteration allowed,
    the value thrown is the unset [lastError] and no call is made. *)
Theorem retryWithBackoffN_outcomes {T : Type} (fn : nat -> result T) (call : event)
    (maxRetries : nat) (initialDelay : Z) :
  (forall (k : nat) (v : T),
      (k < maxRetries)%nat -> (forall n, (n < k)%nat -> isOk (fn n) = false) ->
      fn k = Ok v ->
      retryWithBackoffN fn call maxRetries initialDelay
      = (Ok v, retryTrace call initialDelay 0 k))
  /\ (forall errors : nat -> exn,
        (forall n, (n < maxRetries)%nat -> fn n = Throw (errors n)) ->
        isSleep call = false ->
        retryWithBackoffN fn call maxRetries initialDelay
        = match maxRetries with
          | O => (Throw undefinedError, [])
          | S m => (Throw (errors m), retryTrace call initialDelay 0 m)
          end
        /\ slept (snd (retryWithBackoffN fn call maxRetries initialDelay))
           = initialDelay * (2 ^ Z.of_nat (maxRetries - 1) - 1)).
Proof.
  split.
  - intros k v. apply retryWithBackoffN_first_success.
  - intros errors. apply retryWithBackoffN_exhausted.
Qed.

Definition busyTwice (n : nat) : result nat :=
  if (n <? 2)%nat then Throw (OtherError "busy") else Ok n.

Lemma retryWithBackoffN_outcomes_witness :
  retryWithBackoffN busyTwice ScanCall 5 100
  = (Ok 2%nat, [ScanCall; Sleep 100; ScanCall; Sleep 200; ScanCall])
  /\ slept (snd (retryWithBackoffN (fun n => @Throw unit (HttpError 503 false))
                                  (HttpGet "/x") 4 500)) = 3500.
Proof.
  split.
  - apply (proj1 (retryWithBackoffN_outcomes busyTwice ScanCall 5 100) 2%nat 2%nat).
    + lia.
    + intros n Hn. unfold busyTwice. destruct (Nat.ltb_spec n 2); [reflexivity | lia].
    + reflexivity.
  - apply (proj2 (retryWithBackoffN_outcomes (fun n => @Throw unit (HttpError 503 false))
                    (HttpGet "/x") 4 500) (fun _ => HttpError 503 false)).
    + intros n Hn. reflexivity.
    + reflexivity.
Defined.

End RetryMore.

(** ** The provider client: extensions, the file tree, the two requests *)

Module GitHubMore.

Import Scanner Llm Helpers GitHub GitHubProps.

(** The character occurs in the string. *)
Fixpoint hasChar (c : ascii) (s : string) : bool :=
  match s with
  | EmptyString => false
  | String a s' => Ascii.eqb a c || hasChar c s'
  end.

Lemma split_nonempty (sep : ascii) (s : string) : Js.split sep s <> [].
Proof.
  destruct s as [|c s]; simpl; [discriminate|].
  destruct (Ascii.eqb c sep); [discriminate|].
  destruct (Js.split sep s); discriminate.
Qed.

Lemma split_app (sep : ascii) (a b : string) :
  Js.split sep (a ++ String sep b) = (Js.split sep a ++ Js.split sep b)%list.
Proof.
  induction a as [|c a IH]; simpl.
  - by rewrite Ascii.eqb_refl.
  - rewrite IH. destruct (Ascii.eqb c sep); [reflexivity|].
    pose proof (split_nonempty sep a) as Hne.
    destruct (Js.split sep a) as [|w ws]; [done|]. reflexivity.
Qed.

Lemma split_no_sep (sep : ascii) (s : string) :
  hasChar sep s = false -> Js.split sep s = [s].
Proof.
  induction s as [|c s IH]; simpl; [reflexivity|].
  intros H. apply orb_false_elim in H as [Hc Hs]. rewrite Hc, (IH Hs). reflexivity.
Qed.

Lemma split_length (sep : ascii) (s : string) :
  (1 <? length (Js.split sep s))%nat = hasChar sep s.
Proof.
  induction s as [|c s IH]; simpl; [reflexivity|].
  pose proof (split_nonempty sep s) as Hne.
  destruct (Ascii.eqb c sep); simpl.
  - destruct (Js.split sep s); [done | reflexivity].
  - destruct (Js.split sep s) as [|w ws]; [done|]. exact IH.
Qed.

Lemma split_parts (sep : ascii) (s : string) :
  Forall (fun part => hasChar sep part = false) (Js.split sep s).
Proof.
  induction s as [|c s IH]; simpl; [by repeat constructor|].
  destruct (Ascii.eqb c sep) eqn:E; [by constructor|].
  pose proof (split_nonempty sep s) as Hne.
  destruct (Js.split sep s) as [|w ws]; [done|].
  apply Forall_cons in IH as [Hw Hws]. constructor; [|exact Hws].
  simpl. by rewrite E, Hw.
Qed.

Lemma lower_dot (c : ascii) : Ascii.eqb (Js.lower c) "."%char = Ascii.eqb c "."%char.
Proof. destruct c as [[] [] [] [] [] [] [] []]; reflexivity. Qed.

Lemma lower_lower (c : ascii) : Js.lower (Js.lower c) = Js.lower c.
Proof. destruct c as [[] [] [] [] [] [] [] []]; reflexivity. Qed.

Lemma toLowerCase_dot (s : string) :
  hasChar "."%char (Js.toLowerCase s) = hasChar "."%char s.
Proof. induction s as [|c s IH]; simpl; [reflexivity|]. by rewrite lower_dot, IH. Qed.

Lemma toLowerCase_idem (s : string) : Js.toLowerCase (Js.toLowerCase s) = Js.toLowerCase s.
Proof. induction s as [|c s IH]; simpl; [reflexivity|]. by rewrite lower_lower, IH. Qed.

(** X5: the extension of a path: none exactly when the path has no dot;
    otherwise what follows the last dot of the whole path, in lower case,
    be it empty (a trailing dot) or with a slash in it (a dot in a directory
    name only). *)
Theorem getFileExtension_last_dot :
  (forall path : string, getFileExtension path = None <-> hasChar "."%char path = false)
  /\ (forall a b : string, hasChar "."%char b = false ->
        getFileExtension (a ++ String "."%char b) = Some (Js.toLowerCase b))
  /\ (forall (path ext : string), getFileExtension path = Some ext ->
        hasChar "."%char ext = false /\ Js.toLowerCase ext = ext)
  /\ getFileExtension ".gitignore" = Some "gitignore"
  /\ getFileExtension "v1.2/LICENSE" = Some "2/license".
Proof.
  split; [|split; [|split; [|split; reflexivity]]].
  - intros path. unfold getFileExtension. rewrite split_length.
    destruct (hasChar "."%char path); split; intros H; congruence.
  - intros a b Hb. unfold getFileExtension. rewrite split_length.
    assert (Hdot : hasChar "."%char (a ++ String "."%char b) = true).
    { induction a as [|c a IH]; simpl; [reflexivity|]. rewrite IH. apply orb_true_r. }
    rewrite Hdot, split_app, (split_no_sep _ b Hb), List.last_last. reflexivity.
  - intros path ext. unfold getFileExtension. rewrite split_length.
    destruct (hasChar "."%char path); [|discriminate]. intros [= <-].
    rewrite toLowerCase_dot, toLowerCase_idem. split; [|reflexivity].
    pose proof (split_parts "."%char path) as Hparts.
    pose proof (split_nonempty "."%char path) as Hne.
    destruct (exists_last Hne) as (front & final & Heq). rewrite Heq in *.
    rewrite List.last_last. apply Forall_app in Hparts as [_ Hfinal].
    by apply Forall_cons in Hfinal as [Hfinal _].
Qed.

Definition isTree (item : TreeItem) : bool := String.eqb (item_type item) "tree".
Definition isBlob (item : TreeItem) : bool := String.eqb (item_type item) "blob".

(** X6: the scan of a tree as the provider lists it: the entries of type "tree"
    are the directories, every other entry (a blob, or a submodule) is a
    file, and only blobs are counted in the language histogram. *)
Theorem scan_of_provider_tree (tree : list TreeItem) :
  let scan := scanCodebase (map toNode tree) in
  totalDirectories scan = length (List.filter isTree tree)
  /\ totalFiles scan = length (List.filter (fun item => negb (isTree item)) tree)
  /\ (ScannerMore.total (languages scan) <= length (List.filter isBlob tree))%nat.
Proof.
  cbn [scanCodebase totalDirectories totalFiles languages].
  assert (Hdir : forall l : list TreeItem,
            List.filter isDir (map toNode l) = map toNode (List.filter isTree l)).
  { induction l as [|x l IH]; [reflexivity|]. simpl. unfold isDir at 1, isTree at 1. simpl.
    destruct (String.eqb (item_type x) "tree"); simpl; by rewrite IH. }
  assert (Hfile : forall l : list TreeItem,
            List.filter isFile (map toNode l)
            = map toNode (List.filter (fun item => negb (isTree item)) l)).
  { induction l as [|x l IH]; [reflexivity|]. simpl. unfold isFile at 1, isTree at 1. simpl.
    destruct (String.eqb (item_type x) "tree"); simpl; by rewrite IH. }
  rewrite Hdir, Hfile, !length_map. split; [reflexivity|]. split; [reflexivity|].
  destruct (ScannerMore.detectLanguages_facts
              (map toNode (List.filter (fun item => negb (isTree item)) tree)))
    as (_ & _ & _ & ->).
  induction tree as [|x tree IH]; [simpl; lia|].
  simpl. unfold isTree at 1, isBlob at 1.
  destruct (String.eqb (item_type x) "tree") eqn:Et; simpl.
  - destruct (String.eqb (item_type x) "blob"); simpl; lia.
  - unfold ScannerMore.recognised at 1. simpl.
    destruct (String.eqb (item_type x) "blob"); simpl; [|exact IH].
    destruct (getFileExtension (item_path x)) as [ext|]; [|lia].
    destruct (Js.truthy ext && _); simpl; lia.
Qed.

Section Client.

Variable parseGitHubUrl : string -> option (string * string).
Variable gh : api.

Lemma retryWithBackoff_from_call {T : Type} (fn : nat -> result T) (path : string) :
  let out := retryWithBackoff fn (HttpGet path) in
  (attempts (snd out) <= 3)%nat
  /\ (forall v, fst out = Ok v -> exists n, (n < 3)%nat /\ fn n = Ok v)
  /\ (forall e, fst out = Throw e -> fn 2%nat = Throw e).
Proof.
  unfold retryWithBackoff, retryWithBackoffN. cbn [retryLoop].
  destruct (fn 0%nat) as [v0|e0] eqn:E0; cbn.
  { split; [unfold attempts; simpl; lia|]. split; [|discriminate].
    intros v [= <-]. exists 0%nat. split; [lia | exact E0]. }
  destruct (fn 1%nat) as [v1|e1] eqn:E1; cbn.
  { split; [unfold attempts; simpl; lia|]. split; [|discriminate].
    intros v [= <-]. exists 1%nat. split; [lia | exact E1]. }
  destruct (fn 2%nat) as [v2|e2] eqn:E2; cbn.
  { split; [unfold attempts; simpl; lia|]. split; [|discriminate].
    intros v [= <-]. exists 2%nat. split; [lia | exact E2]. }
  split; [unfold attempts; simpl; lia|]. split; [discriminate|].
  intros e [= <-]. reflexivity.
Qed.

Lemma fetchRepoTree_bound (owner repo branch : string) :
  let out := fetchRepoTree gh owner repo branch in
  (attempts (snd out) <= 3)%nat
  /\ (forall e, fst out = Throw e ->
        e = AppError 500 "Failed to fetch repository file tree").
Proof.
  unfold fetchRepoTree.
  set (path := "/repos/" ++ owner ++ "/" ++ repo ++ "/git/trees/" ++ branch).
  pose proof (retryWithBackoff_from_call (fun n => clientGet (getTree gh path n)) path)
    as (Ha & _ & _).
  destruct (retryWithBackoff _ _) as [[tree|error] tr]; cbn [fst snd] in *.
  - split; [exact Ha | discriminate].
  - destruct (responseStatusIs 409 error); cbn [fst snd];
      (split; [exact Ha|]); [discriminate|]. by intros e [= <-].
Qed.

Lemma fetchRepoMetadata_bound (githubUrl : string) :
  let out := fetchRepoMetadata parseGitHubUrl gh githubUrl in
  (attempts (snd out) <= 3)%nat
  /\ (forall e, fst out = Throw e ->
        In e [ AppError 400 "Invalid GitHub URL";
               AppError 404 "Repository not found";
               AppError 403 "Repository is private or access denied";
               AppError 500 "Failed to fetch repository metadata" ]).
Proof.
  unfold fetchRepoMetadata. destruct (parseGitHubUrl githubUrl) as [[owner repo]|].
  - set (path := "/repos/" ++ owner ++ "/" ++ repo).
    pose proof (retryWithBackoff_from_call (fun n => clientGet (getRepo gh path n)) path)
      as (Ha & _ & _).
    destruct (retryWithBackoff _ _) as [[data|error] tr]; cbn [fst snd] in *.
    + split; [exact Ha | discriminate].
    + destruct (responseStatusIs 404 error); [|destruct (responseStatusIs 403 error)];
        cbn [fst snd]; (split; [exact Ha|]); intros e [= <-]; simpl; tauto.
  - cbn [fst snd]. split; [unfold attempts; simpl; lia|].
    intros e [= <-]. simpl. tauto.
Qed.

(** X7: fetching the file tree makes at most three requests; its only failure
    is the generic 500, also when the client reported an exhausted rate
    limit; a list it returns is empty or the image, entry by entry, of a
    tree that the provider answered; and a repository that the provider
    reports as empty (409) is recognised only when the third request has
    failed, after three requests and two pauses. *)
Theorem fetchRepoTree_outcomes (owner repo branch : string) :
  let path := "/repos/" ++ owner ++ "/" ++ repo ++ "/git/trees/" ++ branch in
  let out := fetchRepoTree gh owner repo branch in
  (attempts (snd out) <= 3)%nat
  /\ (forall e, fst out = Throw e ->
        e = AppError 500 "Failed to fetch repository file tree")
  /\ (forall nodes, fst out = Ok nodes ->
        nodes = []
        \/ exists (tree : list TreeItem) (n : nat),
             (n < 3)%nat /\ getTree gh path n = Ok tree /\ nodes = map toNode tree
             /\ length nodes = length tree)
  /\ (getTree gh path 0%nat = Throw (HttpError 403 true) ->
      getTree gh path 1%nat = Throw (HttpError 403 true) ->
      getTree gh path 2%nat = Throw (HttpError 403 true) ->
      fst out = Throw (AppError 500 "Failed to fetch repository file tree"))
  /\ (forall b0 b1 b2 : bool,
        getTree gh path 0%nat = Throw (HttpError 409 b0) ->
        getTree gh path 1%nat = Throw (HttpError 409 b1) ->
        getTree gh path 2%nat = Throw (HttpError 409 b2) ->
        out = (Ok [], [HttpGet path; Sleep 1000; HttpGet path; Sleep 2000; HttpGet path])).
Proof.
  intros path out.
  destruct (fetchRepoTree_bound owner repo branch) as [Hb He]. fold out in Hb, He.
  split; [exact Hb|]. split; [exact He|]. subst out. unfold fetchRepoTree. fold path.
  pose proof (retryWithBackoff_from_call (fun n => clientGet (getTree gh path n)) path)
    as (_ & Hok & _).
  split.
  - intros nodes. destruct (retryWithBackoff _ _) as [[tree|error] tr].
    + intros [= <-]. right. destruct (Hok tree eq_refl) as (n & Hn & Hget).
      exists tree, n. split; [exact Hn|]. split; [|split; [reflexivity | apply length_map]].
      unfold clientGet in Hget. destruct (getTree gh path n); [exact Hget | discriminate].
    + destruct (responseStatusIs 409 error); [|discriminate]. intros [= <-]. by left.
  - split.
    + intros H0 H1 H2. unfold retryWithBackoff, retryWithBackoffN. cbn [retryLoop].
      rewrite H0, H1, H2. reflexivity.
    + intros b0 b1 b2 H0 H1 H2. unfold retryWithBackoff, retryWithBackoffN.
      cbn [retryLoop]. rewrite H0, H1, H2. reflexivity.
Qed.

Lemma cloneRepoStructure_error_list (githubUrl : string) (e : exn) :
  fst (cloneRepoStructure parseGitHubUrl gh githubUrl) = Throw e ->
  In e [ AppError 400 "Invalid GitHub URL";
         AppError 404 "Repository not found";
         AppError 403 "Repository is private or access denied";
         AppError 500 "Failed to fetch repository metadata";
         AppError 500 "Failed to fetch repository file tree" ].
Proof.
  unfold cloneRepoStructure.
  destruct (fetchRepoMetadata_bound githubUrl) as [_ He].
  destruct (fetchRepoMetadata parseGitHubUrl gh githubUrl) as [[metadata|e0] tr];
    cbn [fst snd] in *.
  - destruct (fetchRepoTree_bound (owner metadata) (repo metadata) (default_branch metadata))
      as [_ Hf].
    destruct (fetchRepoTree gh _ _ _) as [[fileTree|e1] tr']; cbn [fst snd] in *;
      [discriminate|].
    intros [= <-]. rewrite (Hf e1 eq_refl). simpl. tauto.
  - intros [= <-]. specialize (He e0 eq_refl). simpl in *. tauto.
Qed.

(** X8: the two requests of [cloneRepoStructure]: at most six calls to the
    provider, none to the tree when the metadata failed, and a failure is
    one of five errors, each with its status; the rate-limited error (429)
    of the interceptor is not among them. *)
Theorem cloneRepoStructure_failures (githubUrl : string) :
  let out := cloneRepoStructure parseGitHubUrl gh githubUrl in
  (attempts (snd out) <= 6)%nat
  /\ (forall e, fst out = Throw e ->
        In e [ AppError 400 "Invalid GitHub URL";
               AppError 404 "Repository not found";
               AppError 403 "Repository is private or access denied";
               AppError 500 "Failed to fetch repository metadata";
               AppError 500 "Failed to fetch repository file tree" ])
  /\ (forall e, fst (fetchRepoMetadata parseGitHubUrl gh githubUrl) = Throw e ->
        out = (Throw e, snd (fetchRepoMetadata parseGitHubUrl gh githubUrl))
        /\ (attempts (snd out) <= 3)%nat).
Proof.
  intros out. subst out.
  split; [|split; [apply cloneRepoStructure_error_list|]]; unfold cloneRepoStructure;
    destruct (fetchRepoMetadata_bound githubUrl) as [Ha He];
    destruct (fetchRepoMetadata parseGitHubUrl gh githubUrl) as [[metadata|e0] tr];
    cbn [fst snd] in *.
  - destruct (fetchRepoTree_bound (owner metadata) (repo metadata) (default_branch metadata))
      as [Hb Hf].
    destruct (fetchRepoTree gh _ _ _) as [[fileTree|e1] tr']; cbn [fst snd] in *;
      unfold attempts in *; rewrite List.filter_app, length_app; lia.
  - lia.
  - discriminate.
  - intros e [= <-]. split; [reflexivity | exact Ha].
Qed.

End Client.

Lemma fetchRepoTree_outcomes_witness :
  fetchRepoTree (always 409 false) "octo" "empty" "main"
  = (Ok [], [HttpGet "/repos/octo/empty/git/trees/main"; Sleep 1000;
             HttpGet "/repos/octo/empty/git/trees/main"; Sleep 2000;
             HttpGet "/repos/octo/empty/git/trees/main"]).
Proof.
  destruct (fetchRepoTree_outcomes (always 409 false) "octo" "empty" "main")
    as (_ & _ & _ & _ & Hempty).
  exact (Hempty false false false eq_refl eq_refl eq_refl).
Defined.

End GitHubMore.

(** ** The cache: expiry, eviction and clean-up *)

Module CacheMore.

Section Entries.

Context {T : Type}.

Implicit Types (cache : gmap string (T * Z)) (key : string) (now : Z).

(** What a read at [now] finds under a key: the value of an entry that has
    not expired. *)
Definition valid (now : Z) (entry : option (T * Z)) : option T :=
  match entry with
  | Some (value, expiresAt) => if expiresAt <? now then None else Some value
  | None => None
  end.

Lemma get_valid key now cache : fst (Cache.get key now cache) = valid now (cache !! key).
Proof.
  unfold Cache.get, valid. destruct (cache !! key) as [[value expiresAt]|]; [|reflexivity].
  by destruct (expiresAt <? now).
Qed.

Lemma get_store key now cache :
  snd (Cache.get key now cache)
  = match valid now (cache !! key) with Some _ => cache | None => base.delete key cache end.
Proof.
  unfold Cache.get, valid. destruct (cache !! key) as [[value expiresAt]|] eqn:E.
  - by destruct (expiresAt <? now).
  - cbn. symmetry. by apply delete_id.
Qed.


(** A read, by [get] or by [has], removes at most the entry it was asked
    for, and only when that entry has expired; a second read at the same
    instant gives the same answer and changes nothing; and [has] answers
    what [get] would find, leaving the same map. *)
Lemma reads_drop_only_the_expired_entry key now cache :
  let after := snd (Cache.get key now cache) in
  (forall key', key' <> key -> after !! key' = cache !! key')
  /\ (forall value expiresAt,
        after !! key = Some (value, expiresAt) ->
        cache !! key = Some (value, expiresAt) /\ now <= expiresAt)
  /\ Cache.get key now after = (fst (Cache.get key now cache), after)
  /\ fst (Cache.has key now cache) = bool_decide (is_Some (fst (Cache.get key now cache)))
  /\ snd (Cache.has key now cache) = after.
Proof.
  intros after. subst after.
  assert (Hhas : fst (Cache.has key now cache)
                 = bool_decide (is_Some (fst (Cache.get key now cache)))
                 /\ snd (Cache.has key now cache) = snd (Cache.get key now cache)).
  { unfold Cache.has, Cache.get. destruct (cache !! key) as [[value expiresAt]|].
    - destruct (expiresAt <? now); split; reflexivity.
    - split; reflexivity. }
  destruct Hhas as [Hhas1 Hhas2].
  split; [|split; [|split; [|split; [exact Hhas1 | exact Hhas2]]]];
    rewrite get_store, ?get_valid; unfold valid;
    destruct (cache !! key) as [[value expiresAt]|] eqn:E.
  - destruct (Z.ltb_spec expiresAt now); [|reflexivity].
    intros key' Hne. by apply lookup_delete_ne.
  - intros key' Hne. by apply lookup_delete_ne.
  - destruct (Z.ltb_spec expiresAt now) as [Hlt|Hge].
    + intros v e. by rewrite lookup_delete_eq.
    + intros v e. rewrite E. intros [= <- <-]. split; [reflexivity | lia].
  - intros v e. by rewrite lookup_delete_eq.
  - destruct (Z.ltb_spec expiresAt now) as [Hlt|Hge].
    + unfold Cache.get. rewrite lookup_delete_eq. reflexivity.
    + unfold Cache.get. rewrite E.
      destruct (Z.ltb_spec expiresAt now); [lia | reflexivity].
  - unfold Cache.get. rewrite lookup_delete_eq. reflexivity.
Qed.

Lemma cleanup_lookup now cache key :
  Cache.cleanup now cache !! key
  = match cache !! key with
    | Some (value, expiresAt) => if expiresAt <? now then None else Some (value, expiresAt)
    | None => None
    end.
Proof.
  unfold Cache.cleanup.
  destruct (cache !! key) as [[value expiresAt]|] eqn:E.
  - destruct (Z.ltb_spec expiresAt now) as [Hlt|Hge].
    + apply map_lookup_filter_None. right. intros x. rewrite E. intros [= <-]. simpl. lia.
    + apply map_lookup_filter_Some. split; [exact E|]. simpl. lia.
  - apply map_lookup_filter_None. by left.
Qed.

Lemma cleanup_is_transparent now t cache key :
  now <= t ->
  fst (Cache.get key t (Cache.cleanup now cache)) = fst (Cache.get key t cache)
  /\ snd (Cache.getStats now (Cache.cleanup now cache)) = 0%nat
  /\ (fst (Cache.getStats now (Cache.cleanup now cache)) <= fst (Cache.getStats now cache))%nat.
Proof.
  intros Ht. split; [|split].
  - rewrite !get_valid, cleanup_lookup. unfold valid.
    destruct (cache !! key) as [[value expiresAt]|]; [|reflexivity].
    destruct (Z.ltb_spec expiresAt now); [|reflexivity].
    destruct (Z.ltb_spec expiresAt t); [reflexivity | lia].
  - unfold Cache.getStats. cbn [snd]. apply map_size_empty_iff, map_empty_filter_2.
    intros k [value expiresAt] Hk. rewrite cleanup_lookup in Hk. simpl.
    destruct (cache !! k) as [[v e]|]; [|discriminate].
    destruct (Z.ltb_spec e now); [discriminate|]. injection Hk as <- <-. lia.
  - unfold Cache.getStats, Cache.cleanup. cbn [fst].
    apply map_subseteq_size, map_filter_subseteq.
Qed.

End Entries.

(** X10: evictions are invisible to readers.  A read, by [get] or by [has],
    removes at most the entry it was asked for, and only when that entry
    has expired; a second read at the same instant gives the same answer
    and changes nothing; [has] answers what [get] would find.  The
    clean-up removes the expired entries only: at the instant of the
    clean-up and at any later one, every key reads as it would have without
    it, and no entry counts as expired afterwards. *)
Theorem evictions_are_invisible {T : Type} (key : string) (now : Z)
    (cache : gmap string (T * Z)) :
  let after := snd (Cache.get key now cache) in
  (forall key', key' <> key -> after !! key' = cache !! key')
  /\ (forall value expiresAt,
        after !! key = Some (value, expiresAt) ->
        cache !! key = Some (value, expiresAt) /\ now <= expiresAt)
  /\ Cache.get key now after = (fst (Cache.get key now cache), after)
  /\ fst (Cache.has key now cache) = bool_decide (is_Some (fst (Cache.get key now cache)))
  /\ snd (Cache.has key now cache) = after
  /\ (forall t : Z, now <= t ->
        fst (Cache.get key t (Cache.cleanup now cache)) = fst (Cache.get key t cache))
  /\ snd (Cache.getStats now (Cache.cleanup now cache)) = 0%nat
  /\ (fst (Cache.getStats now (Cache.cleanup now cache)) <= fst (Cache.getStats now cache))%nat.
Proof.
  intros after.
  destruct (reads_drop_only_the_expired_entry key now cache) as (H1 & H2 & H3 & H4 & H5).
  destruct (cleanup_is_transparent now now cache key ltac:(lia)) as (_ & H7 & H8).
  repeat (split; [assumption|]). split; [|by split].
  intros t Ht. by destruct (cleanup_is_transparent now t cache key Ht) as [H6 _].
Qed.

Lemma evictions_are_invisible_witness :
  fst (Cache.get "k" 2500 (Cache.cleanup 2000 (Cache.set "k" 7%nat 3 0 ∅)))
  = fst (Cache.get "k" 2500 (Cache.set "k" 7%nat 3 0 ∅)).
Proof.
  destruct (evictions_are_invisible "k" 2000 (Cache.set "k" 7%nat 3 0 ∅))
    as (_ & _ & _ & _ & _ & H & _).
  apply H. lia.
Defined.

End CacheMore.

(** ** The orchestrator over any sequence of requests *)

Module RepoMore.

Import Scanner Llm Helpers Repo ListFacts RepoProps.

(** A request to the repository service, and the state it leaves. *)
Inductive request :=
| Analyze (w : world) (userId githubUrl : string) (now : Z)
| UpdateRepository (repoId : nat) (userId : string) (updates : RepoUpdates)
| DeleteRepository (repoId : nat) (userId : string).

Definition requester (r : request) : string :=
  match r with
  | Analyze _ userId _ _ => userId
  | UpdateRepository _ userId _ => userId
  | DeleteRepository _ userId => userId
  end.

Definition serve (r : request) (st : state) : state :=
  match r with
  | Analyze w userId githubUrl now => snd (fst (analyzeRepository w userId githubUrl now st))
  | UpdateRepository repoId userId updates => snd (updateRepository repoId userId updates st)
  | DeleteRepository repoId userId => snd (deleteRepository repoId userId st)
  end.

Definition serveAll (rs : list request) (st : state) : state :=
  fold_left (fun s r => serve r s) rs st.

Definition ownedBy (userId : string) (r : Repository) : bool :=
  String.eqb (user_id r) userId.

Lemma serve_wf (r : request) (st : state) : wfState st -> wfState (serve r st).
Proof.
  destruct r; simpl;
    [apply analyzeRepository_wf | apply updateRepository_wf | apply deleteRepository_wf].
Qed.

Lemma serveAll_wf (rs : list request) : forall st : state, wfState st -> wfState (serveAll rs st).
Proof.
  induction rs as [|r rs IH]; intros st Hwf; [exact Hwf|].
  apply IH, serve_wf, Hwf.
Qed.

(** X11: after any sequence of requests from the empty store: no two rows share
    a URL or an id, and every cache entry holds a row that is in the table
    now, under the key of the row's URL; so the cache never serves a record
    that was updated or deleted since. *)
Theorem store_invariant_after_requests (rs : list request) :
  let st := serveAll rs initial in
  List.NoDup (map github_url (repositories st))
  /\ List.NoDup (map id (repositories st))
  /\ (forall r, In r (repositories st) -> (id r < next_id st)%nat)
  /\ (forall (k : string) (r : Repository) (e : Z),
        cache st !! k = Some (r, e) ->
        In r (repositories st) /\ k = cacheKey (github_url r)).
Proof.
  intros st. destruct (serveAll_wf rs initial wfState_initial) as [H1 H2 H3 H4].
  repeat split; auto; by apply (H4 k r e).
Qed.

(** The rows after an analysis: the rows before, or those and one new row of
    the caller. *)
Lemma analyzeRepository_rows (w : world) (userId githubUrl : string) (now : Z) (st : state) :
  let out := analyzeRepository w userId githubUrl now st in
  (repositories (snd (fst out)) = repositories st /\ next_id (snd (fst out)) = next_id st)
  \/ (exists row, repositories (snd (fst out)) = (repositories st ++ [row])%list
                  /\ user_id row = userId /\ github_url row = githubUrl
                  /\ fst (fst out) = Ok row).
Proof.
  unfold analyzeRepository.
  destruct (Cache.get (cacheKey githubUrl) now (cache st)) as [cached c1].
  set (st1 := {| repositories := repositories st; next_id := next_id st; cache := c1 |}).
  assert (Hun : let out := analyzeUncached w userId githubUrl now st1 in
    (repositories (snd (fst out)) = repositories st /\ next_id (snd (fst out)) = next_id st)
    \/ (exists row, repositories (snd (fst out)) = (repositories st ++ [row])%list
                    /\ user_id row = userId /\ github_url row = githubUrl
                    /\ fst (fst out) = Ok row)).
  { unfold analyzeUncached.
    destruct (selectExisting userId githubUrl (repositories st1)) as [ex|]; [by left|].
    destruct (cloneRepoStructure w githubUrl) as [[[metadata fileTree]|e] tr0]; [|by left].
    destruct (Llm.analyzeRepository _ _ _ _) as [a|]; [|by left].
    unfold insertRepository. cbn [github_url newRow repositories st1].
    destruct (urlTaken githubUrl (repositories st)); [by left|].
    right. eexists. cbn. split; [reflexivity|]. by repeat split. }
  destruct cached as [hit|]; [|exact Hun].
  destruct (String.eqb (user_id hit) userId); [by left | exact Hun].
Qed.

(** X12: a request changes no row of another user: whatever one user analyses,
    updates or deletes, with whatever ids, the rows of the others stay as
    they were. *)
Theorem requests_leave_rows_of_others (r : request) (st : state) (userId : string) :
  requester r <> userId ->
  List.filter (ownedBy userId) (repositories (serve r st))
  = List.filter (ownedBy userId) (repositories st).
Proof.
  intros Hne. destruct r as [w u url now|repoId u updates|repoId u]; simpl in *.
  - destruct (analyzeRepository_rows w u url now st) as [[-> _]|(row & -> & Hu & _)];
      [reflexivity|].
    rewrite List.filter_app. simpl. unfold ownedBy at 2. rewrite Hu.
    apply String.eqb_neq in Hne. rewrite Hne. apply app_nil_r.
  - unfold updateRepository. destruct (List.find _ _); [|reflexivity]. simpl.
    apply filter_map_frame. intros x _. unfold ownedBy. split.
    + by destruct (owns repoId u x).
    + intros Hx. apply String.eqb_eq in Hx.
      destruct (owns repoId u x) eqn:Ho; [|reflexivity].
      apply owns_spec in Ho as [_ Ho]. congruence.
  - apply filter_filter_frame. intros x _ Hx. unfold ownedBy in Hx.
    apply String.eqb_eq in Hx.
    destruct (owns repoId u x) eqn:Ho; [|reflexivity].
    apply owns_spec in Ho as [_ Ho]. congruence.
Qed.

Lemma requests_leave_rows_of_others_witness :
  List.filter (ownedBy "alice") (repositories (serve (DeleteRepository 0 "bob") afterAlice))
  = List.filter (ownedBy "alice") (repositories afterAlice).
Proof.
  apply (requests_leave_rows_of_others (DeleteRepository 0 "bob") afterAlice "alice").
  simpl. discriminate.
Defined.

Lemma filter_owns (repoId : nat) (userId : string) (rows : list Repository) :
  List.NoDup (map id rows) ->
  match List.filter (owns repoId userId) rows with
  | [] => forall r, In r rows -> owns repoId userId r = false
  | [r] => In r rows /\ owns repoId userId r = true
  | _ => False
  end.
Proof.
  intros Hnd.
  destruct (List.filter (owns repoId userId) rows) as [|a [|b l]] eqn:E.
  - intros r Hin. destruct (owns repoId userId r) eqn:Ho; [|reflexivity].
    assert (Hf : In r (List.filter (owns repoId userId) rows)) by (apply filter_In; by split).
    rewrite E in Hf. destruct Hf.
  - assert (Hf : In a (List.filter (owns repoId userId) rows)) by (rewrite E; by left).
    by apply filter_In in Hf.
  - assert (Hnd' : List.NoDup (map id (List.filter (owns repoId userId) rows)))
      by (by apply NoDup_map_filter).
    assert (Ha : In a (List.filter (owns repoId userId) rows)) by (rewrite E; by left).
    assert (Hb : In b (List.filter (owns repoId userId) rows)) by (rewrite E; right; by left).
    apply filter_In in Ha as [_ Ha]. apply filter_In in Hb as [_ Hb].
    apply owns_spec in Ha as [Ha _]. apply owns_spec in Hb as [Hb _].
    rewrite E in Hnd'. simpl in Hnd'. apply List.NoDup_cons_iff in Hnd' as [Hnot _].
    apply Hnot. left. congruence.
Qed.

(** X13: reading a repository by id, after any sequence of requests: the row
    with that id when it belongs to the caller; "not found" (404)
    otherwise, for an id of another user's row as for an unknown id. *)
Theorem getRepositoryById_own_rows_only (rs : list request) (repoId : nat) (userId : string) :
  let st := serveAll rs initial in
  match getRepositoryById repoId userId st with
  | Ok r => In r (repositories st) /\ id r = repoId /\ user_id r = userId
  | Throw e =>
      e = AppError 404 "Repository not found"
      /\ forall r, In r (repositories st) -> id r = repoId -> user_id r <> userId
  end.
Proof.
  intros st. unfold getRepositoryById.
  pose proof (filter_owns repoId userId (repositories st)
                (wf_repo_ids _ (serveAll_wf rs initial wfState_initial))) as Hf.
  destruct (List.filter (owns repoId userId) (repositories st)) as [|a [|b l]].
  - split; [reflexivity|]. intros r Hin Hid Hu. specialize (Hf r Hin).
    assert (owns repoId userId r = true) by (by apply owns_spec). congruence.
  - destruct Hf as [Hin Ho]. apply owns_spec in Ho. tauto.
  - destruct Hf.
Qed.

(** The first analysis of a URL that no row holds: the pipeline runs once,
    the record built from the metadata, the scan and the insights is stored
    under a fresh id for the caller, and cached for 24 hours. *)
Lemma analyze_free_url (w : world) (userId githubUrl : string) (now : Z) (st : state)
    (metadata : GitHubRepoMetadata) (fileTree : list FileTreeNode) (tr : list event) :
  wfState st -> urlTaken githubUrl (repositories st) = false ->
  cloneRepoStructure w githubUrl = (Ok (metadata, fileTree), tr) ->
  exists (a : LLMAnalysis) (st' : state),
    Llm.analyzeRepository (JSON_parse w) (llmReplies w) metadata (scanCodebase fileTree) = Ok a
    /\ let row := newRow userId githubUrl metadata (scanCodebase fileTree) a (next_id st) in
       analyzeRepository w userId githubUrl now st
       = (Ok row, st', (tr ++ [ScanCall; GenerateCall])%list)
       /\ repositories st' = (repositories st ++ [row])%list
       /\ cache st' !! cacheKey githubUrl = Some (row, now + 86400 * 1000).
Proof.
  intros Hwf Hfree Hclone.
  destruct (LlmProps.analyzeRepository_total (JSON_parse w) (llmReplies w) metadata
              (scanCodebase fileTree)) as [a Ha].
  assert (Hnone : forall r, In r (repositories st) -> github_url r <> githubUrl).
  { intros r Hin Hurl.
    assert (urlTaken githubUrl (repositories st) = true); [|congruence].
    apply urlTaken_spec, in_map_iff. by exists r. }
  assert (Hsel : selectExisting userId githubUrl (repositories st) = None).
  { unfold selectExisting.
    destruct (List.filter _ (repositories st)) as [|x [|y l]] eqn:E; try reflexivity.
    assert (Hx : In x (List.filter
                         (fun r => String.eqb (user_id r) userId
                                   && String.eqb (github_url r) githubUrl)
                         (repositories st))) by (rewrite E; by left).
    apply filter_In in Hx as [Hx Hm]. apply andb_prop in Hm as [_ Hm].
    apply String.eqb_eq in Hm. by destruct (Hnone x Hx). }
  exists a. unfold analyzeRepository.
  pose proof (cache_get_spec (cacheKey githubUrl) now (cache st)) as Hg.
  destruct (Cache.get (cacheKey githubUrl) now (cache st)) as [[hit|] c1].
  { destruct Hg as (_ & e & Hk & _). apply (wf_cache _ Hwf) in Hk as [Hin Hkey].
    apply cacheKey_inj in Hkey. by destruct (Hnone hit Hin). }
  unfold analyzeUncached. cbn [repositories]. rewrite Hsel, Hclone, Ha.
  unfold insertRepository. cbn [github_url newRow repositories next_id].
  rewrite Hfree. eexists. cbv zeta. split; [reflexivity|]. split; [reflexivity|].
  cbn [repositories cache]. split; [reflexivity|].
  unfold Cache.set. apply lookup_insert_eq.
Qed.


Definition demoMetadata : GitHubRepoMetadata :=
  {| owner := "octo"; repo := "demo"; full_name := "octo/demo";
     description := Some "A demo"; language := Some "TypeScript";
     stars := 12; forks := 0; default_branch := "main" |}.

Definition demoTree : list FileTreeNode :=
  [ mkNode "src" TDir None None;
    mkNode "src/index.ts" TFile (Some 2048) (Some "ts");
    mkNode "package.json" TFile (Some 512) (Some "json") ].

Definition demoCalls : list event :=
  [HttpGet "/repos/octo/demo"; HttpGet "/repos/octo/demo/git/trees/main"].


(** X15: an update is what the next analysis of the URL returns: the cache entry
    of the URL is dropped by the update, the row is found in the table, and
    no collaborator is called. *)
Theorem update_is_seen_by_next_analysis (rs : list request) (repoId : nat)
    (userId : string) (updates : RepoUpdates) (r : Repository) (st1 : state)
    (w : world) (now : Z) :
  updateRepository repoId userId updates (serveAll rs initial) = (Ok r, st1) ->
  cache st1 !! cacheKey (github_url r) = None
  /\ exists st2 : state,
       analyzeRepository w userId (github_url r) now st1 = (Ok r, st2, [])
       /\ repositories st2 = repositories st1.
Proof.
  intros Hupd.
  pose proof (serveAll_wf rs initial wfState_initial) as Hwf.
  pose proof (updateRepository_wf repoId userId updates _ Hwf) as Hwf1.
  rewrite Hupd in Hwf1. cbn [snd] in Hwf1.
  unfold updateRepository in Hupd.
  destruct (List.find (owns repoId userId) (repositories (serveAll rs initial)))
    as [old|] eqn:Hfind; [|discriminate].
  injection Hupd as Hr Hst1.
  apply find_some in Hfind as [Hin Ho].
  assert (Hsel : selectExisting userId (github_url r) (repositories st1) = Some r).
  { apply selectExisting_unique; [apply Hwf1 | | | reflexivity].
    - rewrite <- Hst1. cbn [repositories]. apply in_map_iff. exists old.
      rewrite Ho. split; [exact Hr | exact Hin].
    - rewrite <- Hr. cbn [applyRepoUpdates user_id]. by apply owns_spec in Ho as [_ Ho]. }
  split.
  - rewrite <- Hst1, <- Hr. cbn [cache]. apply lookup_delete_eq.
  - destruct (analyze_persisted w userId (github_url r) now st1 r Hwf1 Hsel)
      as (st2 & H1 & H2 & _).
    exists st2. by split.
Qed.

Definition retag : RepoUpdates := {| upd_tags := Some ["demo"]; upd_metadata := None |}.

Lemma update_is_seen_by_next_analysis_witness :
  exists st2 : state,
    analyzeRepository demoWorld "alice" repoUrl 5000
      (snd (updateRepository 0 "alice" retag afterAlice))
    = (Ok (applyRepoUpdates retag aliceRecord), st2, []).
Proof.
  destruct (update_is_seen_by_next_analysis [Analyze demoWorld "alice" repoUrl 1000]
              0 "alice" retag (applyRepoUpdates retag aliceRecord)
              (snd (updateRepository 0 "alice" retag afterAlice)) demoWorld 5000 eq_refl)
    as (_ & st2 & Hrun & _).
  exists st2. exact Hrun.
Defined.

(** X16: deleting a row frees its URL: no row and no cache entry holds it any
    more, and an analysis of the URL, by any user, runs the pipeline and
    stores a new row for that user. *)
Theorem deleted_url_can_be_analysed_again (rs : list request) (r : Repository)
    (w : world) (userId : string) (now : Z)
    (repoMeta : GitHubRepoMetadata) (fileTree : list FileTreeNode) (tr : list event) :
  let st := serveAll rs initial in
  let st1 := snd (deleteRepository (id r) (user_id r) st) in
  In r (repositories st) ->
  cloneRepoStructure w (github_url r) = (Ok (repoMeta, fileTree), tr) ->
  urlTaken (github_url r) (repositories st1) = false
  /\ cache st1 !! cacheKey (github_url r) = None
  /\ exists (row : Repository) (st2 : state),
       analyzeRepository w userId (github_url r) now st1
       = (Ok row, st2, (tr ++ [ScanCall; GenerateCall])%list)
       /\ user_id row = userId
       /\ repositories st2 = (repositories st1 ++ [row])%list.
Proof.
  intros st st1 Hin Hclone.
  pose proof (serveAll_wf rs initial wfState_initial) as Hwf. fold st in Hwf.
  pose proof (deleteRepository_wf (id r) (user_id r) st Hwf) as Hwf1. fold st1 in Hwf1.
  assert (Hown : owns (id r) (user_id r) r = true) by (by apply owns_spec).
  assert (Hfree : urlTaken (github_url r) (repositories st1) = false).
  { destruct (urlTaken (github_url r) (repositories st1)) eqn:E; [|reflexivity].
    apply urlTaken_spec, in_map_iff in E as (x & Hurl & Hx).
    subst st1. cbn [deleteRepository snd repositories] in Hx.
    apply filter_In in Hx as [Hx Hneg].
    assert (x = r) by (apply (url_determines_row (repositories st)); auto; apply Hwf).
    subst x. rewrite Hown in Hneg. discriminate. }
  split; [exact Hfree|]. split.
  - subst st1. cbn [deleteRepository snd cache].
    destruct (List.find (owns (id r) (user_id r)) (repositories st)) as [found|] eqn:Hfind.
    + apply find_some in Hfind as [Hf Ho]. apply owns_spec in Ho as [Ho _].
      assert (found = r)
        by (apply (key_determines_row id (repositories st)); auto; apply Hwf).
      subst found. apply lookup_delete_eq.
    + pose proof (find_none _ _ Hfind r Hin). congruence.
  - destruct (analyze_free_url w userId (github_url r) now st1 repoMeta fileTree tr
                Hwf1 Hfree Hclone) as (a & st2 & _ & Hrun & Hrows & _).
    eexists. exists st2. split; [exact Hrun|]. split; [reflexivity | exact Hrows].
Qed.

Lemma deleted_url_can_be_analysed_again_witness :
  exists (row : Repository) (st2 : state),
    analyzeRepository demoWorld "bob" repoUrl 3000
      (snd (deleteRepository 0 "alice" afterAlice))
    = (Ok row, st2, (demoCalls ++ [ScanCall; GenerateCall])%list)
    /\ user_id row = "bob".
Proof.
  destruct (deleted_url_can_be_analysed_again [Analyze demoWorld "alice" repoUrl 1000]
              aliceRecord demoWorld "bob" 3000 demoMetadata demoTree demoCalls
              (or_introl eq_refl) eq_refl)
    as (_ & _ & row & st2 & Hrun & Hu & _).
  exists row, st2. split; [exact Hrun | exact Hu].
Defined.

(** X17: a failed analysis leaves the table as it was, and the error it reports
    carries one of four statuses; the rate-limited status (429) that the
    provider client builds never reaches the caller. *)
Theorem analysis_failure_statuses
    (parseGitHubUrl : string -> option (string * string)) (gh : GitHub.api)
    (answers : replies) (parse : string -> option json)
    (userId githubUrl : string) (now : Z) (st : state)
    (e : exn) (st' : state) (tr : list event) :
  analyzeRepository
    {| cloneRepoStructure := GitHub.cloneRepoStructure parseGitHubUrl gh;
       llmReplies := answers; JSON_parse := parse |}
    userId githubUrl now st = (Throw e, st', tr) ->
  repositories st' = repositories st /\ next_id st' = next_id st
  /\ exists (statusCode : Z) (message : string),
       e = AppError statusCode message /\ In statusCode [400; 403; 404; 500].
Proof.
  unfold analyzeRepository.
  destruct (Cache.get (cacheKey githubUrl) now (cache st)) as [cached c1].
  set (st1 := {| repositories := repositories st; next_id := next_id st; cache := c1 |}).
  set (w := {| cloneRepoStructure := GitHub.cloneRepoStructure parseGitHubUrl gh;
               llmReplies := answers; JSON_parse := parse |}).
  assert (Hun : analyzeUncached w userId githubUrl now st1 = (Throw e, st', tr) ->
    repositories st' = repositories st /\ next_id st' = next_id st
    /\ exists (statusCode : Z) (message : string),
         e = AppError statusCode message /\ In statusCode [400; 403; 404; 500]).
  { unfold analyzeUncached.
    destruct (selectExisting userId githubUrl (repositories st1)); [discriminate|].
    pose proof (GitHubMore.cloneRepoStructure_error_list parseGitHubUrl gh githubUrl) as Herr.
    cbn [cloneRepoStructure w].
    destruct (GitHub.cloneRepoStructure parseGitHubUrl gh githubUrl)
      as [[[repoMeta fileTree]|e0] tr0]; cbn [fst] in Herr.
    - destruct (Llm.analyzeRepository _ _ _ _) as [a|e1].
      + unfold insertRepository. destruct (urlTaken _ _); [|discriminate].
        intros [= <- <- <-]. repeat split. exists 500, "Failed to save repository analysis".
        split; [reflexivity | simpl; tauto].
      + intros [= <- <- <-]. repeat split. exists 500, "Repository analysis failed".
        split; [reflexivity | simpl; tauto].
    - intros [= <- <- <-]. split; [reflexivity|]. split; [reflexivity|].
      specialize (Herr e0 eq_refl). simpl in Herr.
      destruct Herr as [<-|[<-|[<-|[<-|[<-|[]]]]]]; do 2 eexists;
        (split; [reflexivity | simpl; tauto]). }
  destruct cached as [hit|]; [|exact Hun].
  destruct (String.eqb (user_id hit) userId); [discriminate | exact Hun].
Qed.

(** A world whose provider reports an exhausted rate limit. *)
Definition rateLimited : world :=
  {| cloneRepoStructure :=
       GitHub.cloneRepoStructure GitHubProps.parseDemo (GitHubProps.always 403 true);
     llmReplies := llmReplies demoWorld;
     JSON_parse := JSON_parse demoWorld |}.

Lemma analysis_failure_statuses_witness :
  let out := analyzeRepository rateLimited "alice" repoUrl 0 initial in
  fst (fst out) = Throw (AppError 500 "Failed to fetch repository metadata")
  /\ repositories (snd (fst out)) = repositories initial.
Proof.
  intros out. split; [reflexivity|].
  apply (analysis_failure_statuses GitHubProps.parseDemo (GitHubProps.always 403 true)
           (llmReplies demoWorld) (JSON_parse demoWorld) "alice" repoUrl 0 initial
           (AppError 500 "Failed to fetch repository metadata") (snd (fst out)) (snd out)).
  reflexivity.
Defined.

End RepoMore.

(** ** The log manager over any sequence of mutations *)

Module LogsMore.

Import Logs ListFacts LogsProps.

Definition author (m : mutation) : string :=
  match m with
  | Create userId _ => userId
  | Update _ userId _ => userId
  | Delete _ userId => userId
  end.

Definition writtenBy (userId : string) (log : DailyLog) : bool :=
  String.eqb (user_id log) userId.

Lemma other_key (u userId : string) (d date : Z) : u <> userId -> (userId, date) <> (u, d).
Proof. intros Hne [= -> _]. by apply Hne. Qed.

(** X18: a mutation by one user changes no log entry and no aggregate of another
    user, whatever ids it names. *)
Theorem mutations_leave_logs_of_others (m : mutation) (st : store) (userId : string) :
  author m <> userId ->
  List.filter (writtenBy userId) (daily_logs (apply m st))
  = List.filter (writtenBy userId) (daily_logs st)
  /\ (forall date : Z,
        activity_days (apply m st) !! (userId, date) = activity_days st !! (userId, date)).
Proof.
  intros Hne. destruct m as [u data|logId u updates|logId u]; cbn [author apply] in *.
  - unfold createLog. destruct (uniqueViolation _ _); [by split|]. cbn [snd]. split.
    + cbn [updateActivityForDate daily_logs]. rewrite List.filter_app. cbn [List.filter].
      unfold writtenBy at 2. cbn [user_id]. apply String.eqb_neq in Hne. rewrite Hne.
      apply app_nil_r.
    + intros date. rewrite updateActivityForDate_other by (by apply other_key).
      reflexivity.
  - unfold updateLog. destruct (List.find _ _); [|split; reflexivity]. cbn [snd]. split.
    + cbn [updateActivityForDate daily_logs]. apply filter_map_frame.
      intros x _. unfold writtenBy. split.
      * destruct (targets logId u x); [|reflexivity].
        by destruct (applyUpdates_key updates x) as (_ & -> & _).
      * intros Hx. apply String.eqb_eq in Hx.
        destruct (targets logId u x) eqn:Ht; [|reflexivity].
        apply targets_spec in Ht as [_ Ht]. congruence.
    + intros date. rewrite updateActivityForDate_other by (by apply other_key).
      reflexivity.
  - unfold deleteLog.
    assert (Hrows : List.filter (writtenBy userId)
                      (List.filter (fun l => negb (targets logId u l)) (daily_logs st))
                    = List.filter (writtenBy userId) (daily_logs st)).
    { apply filter_filter_frame. intros x _ Hx. apply String.eqb_eq in Hx.
      destruct (targets logId u x) eqn:Ht; [|reflexivity].
      apply targets_spec in Ht as [_ Ht]. congruence. }
    destruct (List.find _ _); cbn [snd]; (split; [exact Hrows|]).
    + intros date. rewrite updateActivityForDate_other by (by apply other_key).
      reflexivity.
    + reflexivity.
Qed.

Lemma mutations_leave_logs_of_others_witness :
  List.filter (writtenBy "alice") (daily_logs (apply (Delete 0 "bob") (run created initial)))
  = List.filter (writtenBy "alice") (daily_logs (run created initial)).
Proof.
  apply (mutations_leave_logs_of_others (Delete 0 "bob") (run created initial) "alice").
  simpl. discriminate.
Defined.

(** [UNIQUE(user_id, repo_id, log_date)] on the rows: two rows in conflict
    are one row. *)
Definition uniqueRows (rows : list DailyLog) : Prop :=
  forall a b, In a rows -> In b rows -> conflicts a b = true -> a = b.

Lemma conflicts_sym (a b : DailyLog) : conflicts a b = conflicts b a.
Proof.
  unfold conflicts. rewrite (String.eqb_sym (user_id a)), (Z.eqb_sym (log_date a)).
  destruct (repo_id a) as [ra|], (repo_id b) as [rb|]; try reflexivity.
  by rewrite (String.eqb_sym ra).
Qed.

Lemma conflicts_keys (a a' b b' : DailyLog) :
  user_id a' = user_id a -> log_date a' = log_date a -> repo_id a' = repo_id a ->
  user_id b' = user_id b -> log_date b' = log_date b -> repo_id b' = repo_id b ->
  conflicts a' b' = conflicts a b.
Proof. unfold conflicts. by intros -> -> -> -> -> ->. Qed.

Lemma apply_unique (m : mutation) (st : store) :
  uniqueRows (daily_logs st) -> uniqueRows (daily_logs (apply m st)).
Proof.
  intros Hu. destruct m as [u data|logId u updates|logId u]; cbn [apply].
  - unfold createLog. destruct (uniqueViolation _ _) eqn:Ev; [exact Hu|].
    cbn [snd updateActivityForDate daily_logs].
    set (log := {| id := next_id st; user_id := u |}) in *.
    assert (Hfree : forall old, In old (daily_logs st) -> conflicts log old = false).
    { intros old Hold. destruct (conflicts log old) eqn:Ec; [|reflexivity].
      assert (uniqueViolation log (daily_logs st) = true); [|congruence].
      apply existsb_exists. by exists old. }
    intros a b [Ha|[<-|[]]]%in_app_or [Hb|[<-|[]]]%in_app_or Hc.
    + by apply Hu.
    + rewrite conflicts_sym, (Hfree a Ha) in Hc. discriminate.
    + rewrite (Hfree b Hb) in Hc. discriminate.
    + reflexivity.
  - unfold updateLog. destruct (List.find _ _); [|exact Hu].
    cbn [snd updateActivityForDate daily_logs].
    set (g := fun log => if targets logId u log then applyUpdates updates log else log).
    assert (Hg : forall x, user_id (g x) = user_id x /\ log_date (g x) = log_date x
                           /\ repo_id (g x) = repo_id x).
    { intros x. unfold g. destruct (targets logId u x); [|by repeat split].
      destruct (applyUpdates_key updates x) as (_ & ? & ? & ?). by repeat split. }
    intros a' b' (a & <- & Ha)%in_map_iff (b & <- & Hb)%in_map_iff Hc.
    destruct (Hg a) as (? & ? & ?), (Hg b) as (? & ? & ?).
    rewrite (conflicts_keys a (g a) b (g b)) in Hc by assumption.
    by rewrite (Hu a b Ha Hb Hc).
  - assert (Hsub : uniqueRows (List.filter (fun l => negb (targets logId u l)) (daily_logs st))).
    { intros a b [Ha _]%filter_In [Hb _]%filter_In. by apply Hu. }
    unfold deleteLog. destruct (List.find _ _); exact Hsub.
Qed.

(** X19: after any sequence of mutations from the empty store, a user has at most
    one log entry per repository and date: two rows with the same user, the
    same date and the same repository are the same row. *)
Theorem one_log_per_user_repository_date (ms : list mutation) (a b : DailyLog)
    (repo : string) :
  let st := run ms initial in
  In a (daily_logs st) -> In b (daily_logs st) ->
  user_id a = user_id b -> log_date a = log_date b ->
  repo_id a = Some repo -> repo_id b = Some repo ->
  a = b.
Proof.
  intros st Ha Hb Hu Hd Hra Hrb.
  assert (Hall : forall (l : list mutation) (s : store),
            uniqueRows (daily_logs s) -> uniqueRows (daily_logs (run l s))).
  { induction l as [|m l IH]; intros s Hs; [exact Hs|]. apply IH, apply_unique, Hs. }
  apply (Hall ms initial ltac:(intros x y [])); [exact Ha | exact Hb|].
  unfold conflicts. rewrite Hu, Hd, Hra, Hrb, !String.eqb_refl, Z.eqb_refl. reflexivity.
Qed.

Definition firstEntry : DailyLog :=
  {| id := 0; user_id := "alice"; repo_id := Some "repo-1"; log_date := 19732;
     content := "worked"; hours_worked := 150; mood := None |}.

Lemma one_log_per_user_repository_date_witness :
  In firstEntry (daily_logs (run created initial)) /\ firstEntry = firstEntry.
Proof.
  assert (Hin : In firstEntry (daily_logs (run created initial))) by (left; reflexivity).
  split; [exact Hin|].
  apply (one_log_per_user_repository_date created firstEntry firstEntry "repo-1");
    solve [exact Hin | reflexivity].
Defined.












(** X22: an id that names no entry of the caller (unknown, or an entry of another
    user): the update is refused as not found, the deletion reports success;
    both leave the store as it was. *)
Theorem foreign_log_id_changes_nothing (logId : nat) (userId : string) (updates : Updates)
    (st : store) :
  (forall log, In log (daily_logs st) -> id log = logId -> user_id log <> userId) ->
  updateLog logId userId updates st
  = (Throw (AppError 404 "Log entry not found or update failed"), st)
  /\ deleteLog logId userId st = (Ok tt, st).
Proof.
  intros Hforeign.
  assert (Hfind : List.find (targets logId userId) (daily_logs st) = None).
  { destruct (List.find _ (daily_logs st)) as [found|] eqn:Hf; [|reflexivity].
    apply find_some in Hf as [Hin Ht]. apply targets_spec in Ht as [Hid Hu].
    by destruct (Hforeign found Hin Hid). }
  unfold updateLog, deleteLog. rewrite Hfind. split; [reflexivity|].
  rewrite (find_none_filter _ _ Hfind). by destruct st.
Qed.

Lemma foreign_log_id_changes_nothing_witness :
  updateLog 0 "bob" {| upd_content := Some "mine"; upd_hoursWorked := None; upd_mood := None |}
    (run created initial)
  = (Throw (AppError 404 "Log entry not found or update failed"), run created initial)
  /\ deleteLog 0 "bob" (run created initial) = (Ok tt, run created initial).
Proof.
  apply (foreign_log_id_changes_nothing 0 "bob").
  intros log Hin _. simpl in Hin.
  destruct Hin as [<-|[<-|[<-|[]]]]; discriminate.
Defined.

End LogsMore.

(** ** Streaks, for every history *)

Module StreakMore.

Import Helpers HelpersProps Logs Activity ActivityProps.










End StreakMore.

(** ** The calendar of a month *)

Module CalendarMore.

Import Helpers HelpersProps Logs Activity ActivityProps.




Lemma days_from_civil_era (y m d k : Z) :
  days_from_civil (y + 400 * k) m d = days_from_civil y m d + 146097 * k.
Proof.
  unfold days_from_civil.
  replace (y + 400 * k - janFeb m) with (y - janFeb m + k * 400) by lia.
  rewrite Z.div_add, Z.mod_add by lia. lia.
Qed.





Lemma checked_below (P : Z -> bool) (k : nat) (bound z : Z) :
  allFrom k 0 (fun z => (bound <=? z) || P z) = true ->
  0 <= z < bound -> bound <= 2 ^ Z.of_nat k -> P z = true.
Proof.
  intros H Hz Hb. pose proof (allFrom_spec k 0 _ H z ltac:(lia)) as Hc.
  cbv beta in Hc. destruct (Z.leb_spec bound z); [lia | exact Hc].
Qed.






Section Zone.

Variable tz : Z.




End Zone.


(** *** The calendar view *)








End CalendarMore.

(** ** The ranges of the periods *)

Module RangesMore.

Import Helpers HelpersProps CalendarMore.

(** The distances from the first of a month to the first of the month
    before, and to the first of the same month a year before, as [setMonth]
    and [setFullYear] find those months. *)
Definition spanOk (ym : Z) : bool :=
  let y := ym / 12 in
  let m := ym mod 12 + 1 in
  let first := days_from_civil y m 1 in
  let monthAgo := days_from_civil (y + (m - 2) / 12) ((m - 2) mod 12 + 1) 1 in
  let yearAgo := days_from_civil (y - 1) m 1 in
  (28 <=? first - monthAgo) && (first - monthAgo <=? 31)
  && (365 <=? first - yearAgo) && (first - yearAgo <=? 366).

Lemma spans_checked : allFrom 13 0 (fun z => (4800 <=? z) || spanOk z) = true.
Proof. vm_compute. reflexivity. Qed.

Lemma month_and_year_back (y m : Z) :
  1 <= m <= 12 ->
  28 <= days_from_civil y m 1
        - days_from_civil (y + (m - 2) / 12) ((m - 2) mod 12 + 1) 1 <= 31
  /\ 365 <= days_from_civil y m 1 - days_from_civil (y - 1) m 1 <= 366.
Proof.
  intros Hm.
  pose proof (Z.div_mod y 400 ltac:(lia)) as Hy.
  pose proof (Z.mod_pos_bound y 400 ltac:(lia)) as Hy0.
  set (y0 := y mod 400) in *. set (k := y / 400) in *.
  assert (Hc : spanOk (y0 * 12 + (m - 1)) = true)
    by (apply (checked_below _ 13 4800 _ spans_checked); [lia | by vm_compute]).
  unfold spanOk in Hc.
  replace ((y0 * 12 + (m - 1)) / 12) with y0 in Hc
    by (apply Z.div_unique with (m - 1); lia).
  replace ((y0 * 12 + (m - 1)) mod 12) with (m - 1) in Hc
    by (apply Z.mod_unique with y0; lia).
  replace (m - 1 + 1) with m in Hc by lia.
  cbv zeta in Hc. repeat (apply andb_prop in Hc as [Hc ?]).
  replace y with (y0 + 400 * k) by lia.
  replace (y0 + 400 * k + (m - 2) / 12) with (y0 + (m - 2) / 12 + 400 * k) by lia.
  replace (y0 + 400 * k - 1) with (y0 - 1 + 400 * k) by lia.
  rewrite !days_from_civil_era. lia.
Qed.

Section Zone.

Variable tz : Z.

Lemma localDay_makeLocal (y mIdx d : Z) (t : Z) :
  localDay tz (makeLocal tz y mIdx d (timeInDay tz t))
  = days_from_civil (y + mIdx / 12) (mIdx mod 12 + 1) d.
Proof. unfold makeLocal. apply localDay_of_local, timeInDay_bound. Qed.

Lemma from_first (y m d : Z) : days_from_civil y m d = days_from_civil y m 1 + (d - 1).
Proof. rewrite <- days_from_civil_linear. f_equal. lia. Qed.

Lemma dateRange_bounds (now : Z) :
  let today := localDay tz now in
  (forall p : period, snd (getDateRange tz p now) = today)
  /\ today - 31 <= fst (getDateRange tz Month now) <= today - 28
  /\ today - 366 <= fst (getDateRange tz Year now) <= today - 365
  /\ fst (getDateRange tz All now) = days_from_civil 2000 1 1.
Proof.
  intros today.
  split; [intros p; unfold getDateRange; cbn [snd]; apply formatDate_localDay|].
  unfold getDateRange. cbn [fst]. rewrite !formatDate_localDay.
  unfold setMonth, setFullYear. rewrite !localDay_makeLocal.
  unfold getFullYear, getMonth, getDate. fold today.
  pose proof (civil_round_trip today) as Hrt.
  destruct (civil_from_days today) as [[y m] d]. cbn [fst snd].
  destruct Hrt as [Hm Hrt].
  destruct (month_and_year_back y m Hm) as [Hmonth Hyear].
  replace (m - 1 - 1) with (m - 2) by lia.
  rewrite (Z.div_small (m - 1) 12), (Z.mod_small (m - 1) 12) by lia.
  replace (y - 1 + 0) with (y - 1) by lia. replace (m - 1 + 1) with m by lia.
  rewrite (from_first y m d) in Hrt.
  rewrite (from_first (y + (m - 2) / 12)), (from_first (y - 1)).
  split; [lia|]. split; [lia | reflexivity].
Qed.


End Zone.

(** One month back from the 31st of March 2023 is the 3rd of March. *)
Example month_before_march_31 :
  fst (getDateRange 0 Month (days_from_civil 2023 3 31 * msPerDay))
  = days_from_civil 2023 3 3.
Proof. reflexivity. Qed.

End RangesMore.

(** ** Productivity metrics against the log entries *)

Module MetricsMore.

Import Helpers HelpersProps Logs Activity ActivityProps LogsProps.

Section Range.

Variable userId : string.
Variables startDate endDate : Z.










End Range.





Lemma activitiesIn_NoDup (userId : string) (startDate endDate : Z)
    (days : gmap (string * Z) ActivityDay) :
  List.NoDup (activitiesIn userId startDate endDate days).
Proof.
  apply NoDup_ListNoDup. unfold activitiesIn.
  apply NoDup_omap_inj; [apply NoDup_map_to_list|].
  intros [[u1 d1] a1] [[u2 d2] a2] b _ _ H1 H2.
  destruct (String.eqb u1 userId) eqn:E1; [|discriminate].
  destruct (String.eqb u2 userId) eqn:E2; [|discriminate].
  cbn [andb] in H1, H2.
  destruct (inRange startDate endDate d1); [|discriminate].
  destruct (inRange startDate endDate d2); [|discriminate].
  apply String.eqb_eq in E1, E2. congruence.
Qed.


(** The active days counted over a range are at most those counted over a
    range that holds it. *)
Lemma activeDays_nested (userId : string) (s e s' e' : Z)
    (days : gmap (string * Z) ActivityDay) :
  s' <= s -> e <= e' ->
  (length (List.filter (fun day : Z * ActivityDay => is_active (snd day))
             (activitiesIn userId s e days))
   <= length (List.filter (fun day : Z * ActivityDay => is_active (snd day))
                (activitiesIn userId s' e' days)))%nat.
Proof.
  intros Hs He. apply NoDup_incl_length.
  - apply List.NoDup_filter, activitiesIn_NoDup.
  - intros [d a] [Hin Hact]%filter_In. apply filter_In. split; [|exact Hact].
    apply activitiesIn_spec in Hin as [Hl Hr]. apply activitiesIn_spec. split; [exact Hl | lia].
Qed.


End MetricsMore.

(** ** URL parsing and text helpers *)

Module HelpersMore.

Import Helpers GitHubMore.











Section Url.

Variable URL : string -> option (string * string).



End Url.

End HelpersMore.

(** ** The improvement plan *)

Module LlmMore.

Import Scanner Llm.




Section Plan.

Variable JSON_parse : string -> option json.
Variable metadata : GitHubRepoMetadata.
Variable scanResults : ScanResults.


End Plan.


End LlmMore.

(** ** The activity summary *)

Module SummaryMore.

Import Helpers HelpersProps Logs Activity ActivityProps.

Lemma activeDays_of_range (tz : Z) (userId : string) (p : period) (now : Z) (st : store) :
  activeDays (getProductivityMetrics tz userId p now st)
  = length (List.filter (fun day : Z * ActivityDay => is_active (snd day))
              (activitiesIn userId (fst (getDateRange tz p now))
                 (snd (getDateRange tz p now)) (activity_days st))).
Proof.
  unfold getProductivityMetrics. by destruct (getDateRange tz p now) as [s e].
Qed.

(** X30: the three periods of the summary nest: when the three computations read
    the clock on the same local date, on or after 2000-02-01, the active
    days of the week are among those of the month, and those of the month
    among those of all time. *)
Theorem summary_periods_nest (tz : Z) (userId : string) (nowS nowW nowM nowA : Z)
    (st : store) :
  localDay tz nowW = localDay tz nowA ->
  localDay tz nowM = localDay tz nowA ->
  days_from_civil 2000 2 1 <= localDay tz nowA ->
  let summary := getActivitySummary tz userId nowS nowW nowM nowA st in
  (thisWeek_activeDays summary <= thisMonth_activeDays summary)%nat
  /\ (thisMonth_activeDays summary <= allTime_activeDays summary)%nat.
Proof.
  intros HW HM Hafter summary. subst summary.
  cbn [getActivitySummary thisWeek_activeDays thisMonth_activeDays allTime_activeDays].
  rewrite !activeDays_of_range, getDateRange_week. cbn [fst snd].
  destruct (RangesMore.dateRange_bounds tz nowM) as (HendM & HstartM & _).
  destruct (RangesMore.dateRange_bounds tz nowA) as (HendA & _ & _ & HstartA).
  rewrite (HendM Month), (HendA All), HstartA.
  assert (Hfeb : days_from_civil 2000 2 1 = days_from_civil 2000 1 1 + 31) by reflexivity.
  split; apply MetricsMore.activeDays_nested; lia.
Qed.

Lemma summary_periods_nest_witness :
  let summary :=
    getActivitySummary 0 "alice" (19733 * msPerDay) (19733 * msPerDay + 1)
      (19733 * msPerDay + 2) (19733 * msPerDay + 3) (run LogsProps.created initial) in
  (thisWeek_activeDays summary <= thisMonth_activeDays summary)%nat
  /\ (thisMonth_activeDays summary <= allTime_activeDays summary)%nat.
Proof.
  apply (summary_periods_nest 0 "alice" (19733 * msPerDay) (19733 * msPerDay + 1)
           (19733 * msPerDay + 2) (19733 * msPerDay + 3) (run LogsProps.created initial));
    [reflexivity | reflexivity | by vm_compute].
Defined.

End SummaryMore.
